(** * prtg-tool: configuration resolver, API gateway, query operations

    A shallow embedding of [prtg/config.py], [prtg/client.py],
    [prtg/models/] and the get, move and data commands of
    [prtg/commands/], followed by the properties checked against it.

    Python [str] values are modelled as [string] (ASCII text), a [dict] used
    as a map as [gmap], [Optional[T]] as [option T], an [int] as [Z].
    Exceptions are values of [Exc]; code that talks to the server threads
    a [World] holding the server state and the log of requests sent. *)

From Stdlib Require Import ZArith Ascii String List Lia.
From stdpp Require Import base option list gmap strings pretty.

Local Open Scope string_scope.
Local Open Scope Z_scope.

(* ===================================================================== *)
(** ** Python string primitives *)
(* ===================================================================== *)

Module PyStr.

(** Truthiness of a [str]: only the empty string is falsy. *)
Definition truthy (s : string) : bool :=
  match s with EmptyString => false | String _ _ => true end.

(** [s.rstrip(chars)]: drop every trailing character that is in [chars]. *)
Fixpoint rstrip (chars : ascii -> bool) (s : string) : string :=
  match s with
  | EmptyString => EmptyString
  | String c rest =>
      match rstrip chars rest with
      | EmptyString => if chars c then EmptyString else String c EmptyString
      | String _ _ as kept => String c kept
      end
  end.

(** [s.lstrip(chars)]. *)
Fixpoint lstrip (chars : ascii -> bool) (s : string) : string :=
  match s with
  | EmptyString => EmptyString
  | String c rest => if chars c then lstrip chars rest else s
  end.

(** [str.isspace] on ASCII: TAB, LF, VT, FF, CR, FS, GS, RS, US, space. *)
Definition isspace (c : ascii) : bool :=
  let n := nat_of_ascii c in
  ((9 <=? n)%nat && (n <=? 13)%nat) || ((28 <=? n)%nat && (n <=? 32)%nat).

(** [s.strip()] with no argument strips whitespace at both ends. *)
Definition strip (s : string) : string := rstrip isspace (lstrip isspace s).

(** [str.lower] on ASCII: only [A]..[Z] change. *)
Definition lower_char (c : ascii) : ascii :=
  let n := nat_of_ascii c in
  if ((65 <=? n)%nat && (n <=? 90)%nat)%bool then ascii_of_nat (n + 32) else c.

Fixpoint lower (s : string) : string :=
  match s with
  | EmptyString => EmptyString
  | String c rest => String (lower_char c) (lower rest)
  end.

(** [s.startswith(p)]. *)
Definition startswith (p s : string) : bool := String.prefix p s.

(** [needle in hay]: substring test. *)
Fixpoint contains (needle hay : string) : bool :=
  startswith needle hay
  || match hay with
     | EmptyString => false
     | String _ rest => contains needle rest
     end.

(** The text has an [o] or [O] immediately followed by a [k] or [K]:
    it contains ["ok"] whatever the case of the letters. *)
Definition contains_ok_ci (t : string) : Prop :=
  ∃ pre post c1 c2,
    t = pre ++ String c1 (String c2 post)
    ∧ (c1 = "o"%char ∨ c1 = "O"%char) ∧ (c2 = "k"%char ∨ c2 = "K"%char).

(** [c * n] for a one-character string [c]. *)
Fixpoint replicate (n : nat) (c : ascii) : string :=
  match n with O => EmptyString | S k => String c (replicate k c) end.

(** The last character, if any. *)
Fixpoint last_char (s : string) : option ascii :=
  match s with
  | EmptyString => None
  | String c EmptyString => Some c
  | String _ rest => last_char rest
  end.

End PyStr.

(* ===================================================================== *)
(** ** prtg/config.py *)
(* ===================================================================== *)

Module Config.

(** [@dataclass PRTGConfig]. *)
Record PRTGConfig := mkPRTGConfig {
  url : string;
  api_token : string;
  verify_ssl : bool;
  profile : string;
}.

Definition is_slash (c : ascii) : bool := Ascii.eqb c "/"%char.

Definition has_scheme (s : string) : bool :=
  PyStr.startswith "http://" s || PyStr.startswith "https://" s.

(** Lines 27-32 of [__post_init__]: the two assignments to [self.url]. *)
Definition normalize_url (u : string) : string :=
  let u1 := PyStr.rstrip is_slash u in
  if has_scheme u1 then u1 else "https://" ++ u1.

(** [PRTGConfig.__post_init__]: [inl msg] is [ValueError(msg)], [inr] the
    object after the assignments to [self.url]. *)
Definition __post_init__ (self : PRTGConfig) : string + PRTGConfig :=
  if negb (PyStr.truthy (url self)) then inl "PRTG URL is required"
  else if negb (PyStr.truthy (api_token self)) then inl "API token is required"
  else inr (mkPRTGConfig (normalize_url (url self)) (api_token self)
              (verify_ssl self) (profile self)).

(** [PRTGConfig(url=..., api_token=..., verify_ssl=..., profile=...)]: the
    generated constructor, which ends in [__post_init__]. *)
Definition PRTGConfig_init (u tok : string) (vs : bool) (prof : string)
  : string + PRTGConfig :=
  __post_init__ (mkPRTGConfig u tok vs prof).

(** What [ConfigParser] holds after [read]: the named sections and the
    [DEFAULT] section whose keys every section inherits, with the values
    as the file writes them. *)
Record ConfigParser := mkParser {
  sections : gmap string (gmap string string);
  defaults : gmap string string;
}.

Definition has_section (p : ConfigParser) (name : string) : bool :=
  bool_decide (is_Some (sections p !! name)).

(** The errors of [BasicInterpolation], all of them subclasses of
    [configparser.InterpolationError]. *)
Inductive InterpolationError :=
| InterpolationSyntaxError
| InterpolationMissingOptionError
| InterpolationDepthError.

Definition MAX_INTERPOLATION_DEPTH : nat := 10.

(** Where the scan of a value stands: in plain text, after a [%], inside
    the name of [%(name)s], or after its closing parenthesis. *)
Inductive Scan :=
| Text
| Percent
| Name (name : string)
| Close (name : string).

(** [BasicInterpolation._interpolate_some], the value being read from
    left to right: [%%] gives [%], [%(name)s] the value of option [name]
    in [map] (interpolated in turn when it holds a [%]), any other use of
    [%] is a syntax error.  [depth] counts the nested calls still allowed:
    the call at depth [MAX_INTERPOLATION_DEPTH + 1] raises. *)
Fixpoint _interpolate_some (depth : nat) (map : gmap string string) (rest : string)
    {struct depth} : InterpolationError + string :=
  match depth with
  | O => inl InterpolationDepthError
  | S depth' =>
      (fix scan (st : Scan) (rest : string) {struct rest}
         : InterpolationError + string :=
         match rest with
         | EmptyString =>
             match st with
             | Text => inr ""
             | _ => inl InterpolationSyntaxError
             end
         | String c rest' =>
             match st with
             | Text =>
                 if Ascii.eqb c "%" then scan Percent rest'
                 else match scan Text rest' with
                      | inl e => inl e
                      | inr out => inr (String c out)
                      end
             | Percent =>
                 if Ascii.eqb c "%" then
                   match scan Text rest' with
                   | inl e => inl e
                   | inr out => inr (String "%" out)
                   end
                 else if Ascii.eqb c "(" then scan (Name "") rest'
                 else inl InterpolationSyntaxError
             | Name name =>
                 if Ascii.eqb c ")" then
                   if PyStr.truthy name then scan (Close name) rest'
                   else inl InterpolationSyntaxError
                 else scan (Name (name ++ String c "")) rest'
             | Close name =>
                 if Ascii.eqb c "s" then
                   match map !! PyStr.lower name with
                   | None => inl InterpolationMissingOptionError
                   | Some v =>
                       match (if PyStr.contains "%" v
                              then _interpolate_some depth' map v else inr v) with
                       | inl e => inl e
                       | inr value =>
                           match scan Text rest' with
                           | inl e => inl e
                           | inr out => inr (value ++ out)
                           end
                       end
                   end
                 else inl InterpolationSyntaxError
             end
         end) Text rest
  end.

(** [BasicInterpolation.before_get]. *)
Definition before_get (map : gmap string string) (value : string)
  : InterpolationError + string :=
  _interpolate_some MAX_INTERPOLATION_DEPTH map value.

(** [parser.get(section, key, fallback=None)]: the fallback when the
    section or the key is missing, else the value of the key in the
    section or in [DEFAULT], interpolated; [inl] is the exception the
    interpolation raises. *)
Definition parser_get (p : ConfigParser) (name key : string)
  : InterpolationError + option string :=
  match sections p !! name with
  | Some sec =>
      let d := sec ∪ defaults p in
      match d !! PyStr.lower key with
      | Some value =>
          match before_get d value with
          | inl e => inl e
          | inr v => inr (Some v)
          end
      | None => inr None
      end
  | None => inr None
  end.

(** The state a [ConfigManager] reads from: [os.environ] (after the
    optional dotenv load) and the parsed file. *)
Record ConfigManager := mkManager {
  environ : gmap string string;
  parser : ConfigParser;
}.

Definition ENV_PREFIX : string := "PRTG_".

Definition _get_env (m : ConfigManager) (key : string) : option string :=
  environ m !! (ENV_PREFIX ++ key).

Definition _get_from_file (m : ConfigManager) (prof key : string)
  : InterpolationError + option string :=
  if negb (has_section (parser m) prof) then inr None
  else parser_get (parser m) prof key.

(** Python's [a or b] on [Optional[str]]: [a] when it is truthy (neither
    [None] nor empty), else [b]. *)
Definition py_or (a b : option string) : option string :=
  match a with
  | Some s => if PyStr.truthy s then a else b
  | None => b
  end.

Infix "|||" := py_or (at level 50, left associativity).

(** [a or b] where an operand is a read of the file, which may raise:
    [b] is evaluated only when [a] is falsy. *)
Definition or_read (a b : InterpolationError + option string)
  : InterpolationError + option string :=
  match a with
  | inl e => inl e
  | inr (Some s) => if PyStr.truthy s then a else b
  | inr None => b
  end.

Infix "||?" := or_read (at level 50, left associativity).

(** [x or "literal"]. *)
Definition or_default (a : option string) (d : string) : string :=
  match a with
  | Some s => if PyStr.truthy s then s else d
  | None => d
  end.

Definition resolve_profile (m : ConfigManager) (prof : option string) : string :=
  or_default (prof ||| _get_env m "PROFILE") "default".

(** The local [config_url] of [get_config]. *)
Definition config_url (m : ConfigManager) (prof : string) (u : option string)
  : InterpolationError + option string :=
  inr u ||? inr (_get_env m "URL") ||? _get_from_file m prof "url".

(** The local [config_api_token] of [get_config]. *)
Definition config_api_token (m : ConfigManager) (prof : string)
    (tok : option string) : InterpolationError + option string :=
  inr tok
  ||? inr (_get_env m "API_TOKEN")
  ||? inr (_get_env m "API_TOKEN_RW")
  ||? inr (_get_env m "API_TOKEN_RO")
  ||? _get_from_file m prof "api_token"
  ||? _get_from_file m prof "api_token_rw"
  ||? _get_from_file m prof "api_token_ro".

Definition in_list (s : string) (l : list string) : bool :=
  bool_decide (s ∈ l).

(** The local [config_verify_ssl] of [get_config]. *)
Definition config_verify_ssl (m : ConfigManager) (prof : string)
    (vs : option bool) : InterpolationError + bool :=
  match vs with
  | Some b => inr b
  | None =>
      match _get_env m "NO_VERIFY_SSL" with
      | Some (String _ _ as env_verify) =>
          inr (negb (in_list (PyStr.lower env_verify) ["1"; "true"; "yes"]))
      | _ =>
          match _get_from_file m prof "verify_ssl" with
          | inl e => inl e
          | inr (Some (String _ _ as file_verify)) =>
              inr (in_list (PyStr.lower file_verify) ["true"; "yes"; "1"])
          | inr _ => inr true
          end
      end
  end.

(** What [get_config] raises: the [ValueError] of [__post_init__], or the
    error of a file read. *)
Inductive ConfigError :=
| ValueError (msg : string)
| ConfigInterpolationError (e : InterpolationError).

(** [ConfigManager.get_config]: the URL is resolved first, then the
    token, then [verify_ssl], and the constructor runs last. *)
Definition get_config (m : ConfigManager) (prof u tok : option string)
    (vs : option bool) : ConfigError + PRTGConfig :=
  let prof' := resolve_profile m prof in
  match config_url m prof' u with
  | inl e => inl (ConfigInterpolationError e)
  | inr cu =>
      match config_api_token m prof' tok with
      | inl e => inl (ConfigInterpolationError e)
      | inr ct =>
          match config_verify_ssl m prof' vs with
          | inl e => inl (ConfigInterpolationError e)
          | inr cv =>
              match PRTGConfig_init (or_default cu "") (or_default ct "") cv prof' with
              | inl msg => inl (ValueError msg)
              | inr config => inr config
              end
          end
      end
  end.

(** The text the file holds for [key] in the section of the profile or,
    failing that, in [DEFAULT]; [None] without such a section or key. *)
Definition file_text (m : ConfigManager) (prof key : string) : option string :=
  match sections (parser m) !! prof with
  | Some sec =>
      match sec !! key with
      | Some v => Some v
      | None => defaults (parser m) !! key
      end
  | None => None
  end.

(** The text holds no [%]. *)
Definition no_percent (s : string) : bool := negb (PyStr.contains "%" s).

(** The seven token sources in the order the specification lists them,
    the three of the file by their text. *)
Definition token_sources (m : ConfigManager) (prof : string)
    (tok : option string) : list (option string) :=
  [ tok;
    environ m !! "PRTG_API_TOKEN";
    environ m !! "PRTG_API_TOKEN_RW";
    environ m !! "PRTG_API_TOKEN_RO";
    file_text m prof "api_token";
    file_text m prof "api_token_rw";
    file_text m prof "api_token_ro" ].

(** The operands of the [or] chain of [config_api_token], in order. *)
Definition token_reads (m : ConfigManager) (prof : string) (tok : option string)
  : list (InterpolationError + option string) :=
  [ inr tok;
    inr (_get_env m "API_TOKEN");
    inr (_get_env m "API_TOKEN_RW");
    inr (_get_env m "API_TOKEN_RO");
    _get_from_file m prof "api_token";
    _get_from_file m prof "api_token_rw";
    _get_from_file m prof "api_token_ro" ].

(** A source that is set to a non-empty value. *)
Definition source_set (o : option string) : Prop :=
  ∃ s, o = Some s ∧ s ≠ "".

(** The normalisation the specification words describe: drop one trailing
    slash if there is one, then default the scheme. *)
Fixpoint strip_one_trailing_slash (s : string) : string :=
  match s with
  | EmptyString => EmptyString
  | String c EmptyString => if is_slash c then EmptyString else s
  | String c rest => String c (strip_one_trailing_slash rest)
  end.

Definition normalize_url_one_slash (u : string) : string :=
  let u1 := strip_one_trailing_slash u in
  if has_scheme u1 then u1 else "https://" ++ u1.

End Config.

(* ===================================================================== *)
(** ** prtg/client.py *)
(* ===================================================================== *)

Module Client.
Import Config.

(** *** Exceptions *)

(** The exception classes of [client.py]; [OtherError] stands for any
    class outside the [PRTGClientError] hierarchy (pydantic's
    [ValidationError], [TypeError], ...). *)
Inductive ExcClass :=
| PRTGClientError
| PRTGAuthenticationError
| PRTGNotFoundError
| PRTGAPIError
| OtherError.

#[global] Instance ExcClass_eq_dec : EqDecision ExcClass.
Proof. solve_decision. Defined.

(** The direct base named in each [class] statement. *)
Definition base_class (c : ExcClass) : option ExcClass :=
  match c with
  | PRTGAuthenticationError | PRTGNotFoundError | PRTGAPIError => Some PRTGClientError
  | PRTGClientError | OtherError => None
  end.

Definition issubclass (c d : ExcClass) : bool :=
  bool_decide (c = d) || bool_decide (base_class c = Some d).

(** An exception instance: its class and [str(e)]. *)
Record Exc := mkExc { exc_class : ExcClass; exc_str : string }.

Definition isinstance (e : Exc) (c : ExcClass) : bool := issubclass (exc_class e) c.

(** [except (c1, c2, ...)]. *)
Definition except_matches (cs : list ExcClass) (e : Exc) : bool :=
  existsb (isinstance e) cs.

Inductive Result (A : Type) :=
| Ok (a : A)
| Raise (e : Exc).
Arguments Ok {A} a.
Arguments Raise {A} e.

(** *** Transport *)

(** A query-parameter value: the code stores [str] and [int]. *)
Inductive PVal := PStr (s : string) | PInt (n : Z).

(** The keyword arguments of [session.request]. *)
Record Request := mkRequest {
  method : string;
  req_url : string;
  params : gmap string PVal;
  verify : bool;
  timeout : Z;
}.

Record Response := mkResponse { status_code : Z; text : string }.

(** What [session.request] raises, by the first of the four [except]
    clauses of the client that matches it. *)
Inductive RequestsKind := SSLError | ConnectionError | Timeout | RequestException.

Record RequestsError := mkRequestsError { rkind : RequestsKind; rstr : string }.

(** The world outside the client: the server behind the session (a state
    machine answering one request at a time, retries included);
    [response.json()], which gives the decoded body or raises the
    [requests] decoding error; the text of the [HTTPError] of
    [raise_for_status]; and the pydantic list-response constructors
    followed by the read of their item list, which either raise
    (message) or give the items. *)
Class Backend := {
  ServerState : Type;
  serve : Request → ServerState → (RequestsError + Response) * ServerState;
  Json : Type;
  response_json : Response → RequestsError + Json;
  http_error_str : Response → string;
  Device : Type;
  Sensor : Type;
  Group : Type;
  DeviceListResponse_devices : Json → string + list Device;
  SensorListResponse_sensors : Json → string + list Sensor;
  GroupListResponse_groups : Json → string + list Group;
}.

Section WithBackend.
Context `{B : Backend}.

(** Server state and the log of requests the session has sent. *)
Record World := mkWorld { srv : ServerState; sent : list Request }.

Definition M (A : Type) : Type := World → Result A * World.

Definition ret {A} (a : A) : M A := λ w, (Ok a, w).
Definition raise {A} (e : Exc) : M A := λ w, (Raise e, w).
Definition bind {A C} (m : M A) (k : A → M C) : M C :=
  λ w, match m w with
       | (Ok a, w') => k a w'
       | (Raise e, w') => (Raise e, w')
       end.

(** [self.session.request(...)]. *)
Definition session_request (r : Request) : World → (RequestsError + Response) * World :=
  λ w, let '(o, s') := serve r (srv w) in
       (o, mkWorld s' (sent w ++ [r])).

(** [response.raise_for_status()]. *)
Definition raise_for_status (r : Response) : option RequestsError :=
  if (400 <=? status_code r) && (status_code r <? 600)
  then Some (mkRequestsError RequestException (http_error_str r))
  else None.

Definition _build_auth_params (cfg : PRTGConfig) : gmap string PVal :=
  {[ "apitoken" := PStr (api_token cfg) ]}.

(** [d.update(other)] and [{**d, **other}]: keys of [other] win. *)
Definition dict_update (d other : gmap string PVal) : gmap string PVal :=
  other ∪ d.

Definition base_url (cfg : PRTGConfig) : string := url cfg ++ "/api".

(** The four [except requests.exceptions...] clauses shared by
    [_request], [get_sensor_historicdata] and [move_device]. *)
Definition on_requests_error (cfg : PRTGConfig) (e : RequestsError) : Exc :=
  match rkind e with
  | SSLError =>
      mkExc PRTGClientError
        ("SSL verification failed. Use --no-verify-ssl to disable verification. Error: "
           ++ rstr e)
  | ConnectionError =>
      mkExc PRTGClientError
        ("Connection error: Unable to connect to " ++ url cfg ++ ". Error: " ++ rstr e)
  | Timeout => mkExc PRTGClientError ("Request timeout: " ++ rstr e)
  | RequestException => mkExc PRTGClientError ("Request failed: " ++ rstr e)
  end.

Definition api_error (r : Response) : Exc :=
  mkExc PRTGAPIError ("API error: " ++ pretty (status_code r) ++ " - " ++ text r).

(** [PRTGClient._request]. *)
Definition _request (cfg : PRTGConfig) (endpoint : string)
    (ps : option (gmap string PVal)) (meth : string) : M Json :=
  λ w,
    let u := base_url cfg ++ "/" ++ endpoint in
    let request_params := _build_auth_params cfg in
    let request_params :=
      match ps with
      | Some p => if bool_decide (p = ∅) then request_params
                  else dict_update request_params p
      | None => request_params
      end in
    match session_request (mkRequest meth u request_params (verify_ssl cfg) 30) w with
    | (inl e, w') => (Raise (on_requests_error cfg e), w')
    | (inr response, w') =>
        if status_code response =? 401 then
          (Raise (mkExc PRTGAuthenticationError
                    "Authentication failed. Check username and passhash."), w')
        else if status_code response =? 404 then
          (Raise (mkExc PRTGNotFoundError ("Resource not found: " ++ endpoint)), w')
        else if 400 <=? status_code response then
          (Raise (api_error response), w')
        else
          match raise_for_status response with
          | Some e => (Raise (on_requests_error cfg e), w')
          | None =>
              match response_json response with
              | inl e => (Raise (on_requests_error cfg e), w')
              | inr j => (Ok j, w')
              end
          end
    end.

Definition device_columns : list string :=
  [ "objid"; "name"; "device"; "host"; "probe"; "group"; "parentid";
    "status"; "status_raw"; "message"; "tags"; "priority"; "upsens";
    "downsens"; "warnsens"; "pausedsens"; "unusualsens" ].

Definition sensor_columns : list string :=
  [ "objid"; "name"; "sensor"; "device"; "group"; "probe"; "parentid";
    "status"; "status_raw"; "message"; "sensor_type"; "interval";
    "lastvalue"; "lastmessage"; "downtime"; "uptime"; "priority"; "tags" ].

Definition group_columns : list string :=
  [ "objid"; "name"; "probe"; "group"; "parentid" ].

(** The body shared by [get_device], [get_sensor] and [get_group]: a
    [table.json] query filtered on the id, the list-response
    constructor, and the first item or [PRTGNotFoundError]. *)
Definition get_single {A} (content kind : string) (default_columns : list string)
    (items : Json → string + list A)
    (cfg : PRTGConfig) (id : string) (columns : option (list string)) : M A :=
  let columns := default default_columns columns in
  let ps : gmap string PVal :=
    {[ "content" := PStr content;
       "columns" := PStr (String.concat "," columns);
       "filter_objid" := PStr id ]} in
  bind (_request cfg "table.json" (Some ps) "GET") (λ response_data,
    match items response_data with
    | inl msg => raise (mkExc OtherError msg)
    | inr [] => raise (mkExc PRTGNotFoundError (kind ++ " not found: " ++ id))
    | inr (first :: _) => ret first
    end).

Definition get_device := get_single "devices" "Device" device_columns DeviceListResponse_devices.
Definition get_sensor := get_single "sensors" "Sensor" sensor_columns SensorListResponse_sensors.
Definition get_group := get_single "groups" "Group" group_columns GroupListResponse_groups.

(** The loop shared by the three [get_*_by_ids]: [found] is the list
    being appended to. *)
Fixpoint get_many_loop {A} (single : string → M A) (ids : list string)
    (found : list A) : M (list A) :=
  match ids with
  | [] => ret found
  | id :: rest =>
      λ w, match single id w with
           | (Ok item, w') => get_many_loop single rest (found ++ [item]) w'
           | (Raise e, w') =>
               if isinstance e PRTGNotFoundError
               then get_many_loop single rest found w'
               else (Raise e, w')
           end
  end.

Definition get_devices_by_ids (cfg : PRTGConfig) (device_ids : list string)
    (columns : option (list string)) : M (list Device) :=
  get_many_loop (λ id, get_device cfg id columns) device_ids [].

Definition get_sensors_by_ids (cfg : PRTGConfig) (sensor_ids : list string)
    (columns : option (list string)) : M (list Sensor) :=
  get_many_loop (λ id, get_sensor cfg id columns) sensor_ids [].

Definition get_groups_by_ids (cfg : PRTGConfig) (group_ids : list string)
    (columns : option (list string)) : M (list Group) :=
  get_many_loop (λ id, get_group cfg id columns) group_ids [].

(** What [get_sensor_historicdata] returns: [response.text] or
    [response.json()]. *)
Inductive HistoricData := CsvText (body : string) | JsonData (j : Json).

Definition rate_limit_error : Exc :=
  mkExc PRTGAPIError
    ("Rate limit exceeded (5 requests per minute for historic data). "
       ++ "Please wait 60 seconds before trying again.").

(** [PRTGClient.get_sensor_historicdata]. *)
Definition get_sensor_historicdata (cfg : PRTGConfig) (sensor_id start_date end_date : string)
    (avg_interval : Z) (output_format : string) : M HistoricData :=
  λ w,
    let endpoint := "historicdata." ++ output_format in
    let ps : gmap string PVal :=
      {[ "id" := PStr sensor_id; "sdate" := PStr start_date;
         "edate" := PStr end_date; "avg" := PInt avg_interval ]} in
    let u := base_url cfg ++ "/" ++ endpoint in
    let request_params := dict_update (_build_auth_params cfg) ps in
    match session_request (mkRequest "GET" u request_params (verify_ssl cfg) 30) w with
    | (inl e, w') => (Raise (on_requests_error cfg e), w')
    | (inr response, w') =>
        if status_code response =? 429 then (Raise rate_limit_error, w')
        else if status_code response =? 401 then
          (Raise (mkExc PRTGAuthenticationError "Authentication failed. Check API token."), w')
        else if status_code response =? 404 then
          (Raise (mkExc PRTGNotFoundError ("Sensor not found: " ++ sensor_id)), w')
        else if 400 <=? status_code response then
          (Raise (api_error response), w')
        else
          match raise_for_status response with
          | Some e => (Raise (on_requests_error cfg e), w')
          | None =>
              if String.eqb output_format "csv" then (Ok (CsvText (text response)), w')
              else match response_json response with
                   | inl e => (Raise (on_requests_error cfg e), w')
                   | inr j => (Ok (JsonData j), w')
                   end
          end
    end.

Definition move_request (cfg : PRTGConfig) (device_id target_group_id : string) : Request :=
  let ps : gmap string PVal :=
    {[ "id" := PStr device_id; "targetid" := PStr target_group_id ]} in
  mkRequest "GET" (url cfg ++ "/moveobjectnow.htm")
    (dict_update (_build_auth_params cfg) ps) (verify_ssl cfg) 30.

(** [PRTGClient.move_device]. *)
Definition move_device (cfg : PRTGConfig) (device_id target_group_id : string) : M bool :=
  λ w,
    match session_request (move_request cfg device_id target_group_id) w with
    | (inl e, w') => (Raise (on_requests_error cfg e), w')
    | (inr response, w') =>
        if status_code response =? 401 then
          (Raise (mkExc PRTGAuthenticationError "Authentication failed. Check API token."), w')
        else if status_code response =? 404 then
          (Raise (mkExc PRTGNotFoundError
                    ("Device or target group not found: " ++ device_id
                       ++ " -> " ++ target_group_id)), w')
        else if 400 <=? status_code response then
          (Raise (api_error response), w')
        else
          match raise_for_status response with
          | Some e => (Raise (on_requests_error cfg e), w')
          | None =>
              let response_text := PyStr.lower (PyStr.strip (text response)) in
              if PyStr.contains "ok" response_text then (Ok true, w')
              else (Raise (mkExc PRTGAPIError
                             ("Unexpected response from move operation: "
                                ++ text response)), w')
          end
    end.

(** One entry of the list [move_devices] returns: the dict has the key
    ["error"] exactly when [error] is [Some]. *)
Record MoveResult := mkMoveResult {
  device_id : string;
  success : bool;
  error : option string;
}.

Definition move_devices_handled : list ExcClass :=
  [ PRTGClientError; PRTGAPIError; PRTGNotFoundError ].

(** The loop of [move_devices] over an arbitrary single-move operation
    ([self.move_device]); [results] is the list being appended to. *)
Fixpoint move_devices_loop (move : string → M bool) (device_ids : list string)
    (results : list MoveResult) : M (list MoveResult) :=
  match device_ids with
  | [] => ret results
  | id :: rest =>
      λ w, match move id w with
           | (Ok _, w') =>
               move_devices_loop move rest (results ++ [mkMoveResult id true None]) w'
           | (Raise e, w') =>
               if except_matches move_devices_handled e
               then move_devices_loop move rest
                      (results ++ [mkMoveResult id false (Some (exc_str e))]) w'
               else (Raise e, w')
           end
  end.

(** [PRTGClient.move_devices]. *)
Definition move_devices (cfg : PRTGConfig) (device_ids : list string)
    (target_group_id : string) : M (list MoveResult) :=
  move_devices_loop (λ id, move_device cfg id target_group_id) device_ids [].

(** Running an operation on each id in turn, whatever each one returns
    or raises: the outcomes, in order, and the world afterwards. *)
Fixpoint run_each {A} (op : string → M A) (ids : list string) (w : World)
    : list (Result A) * World :=
  match ids with
  | [] => ([], w)
  | id :: rest =>
      let '(o, w1) := op id w in
      let '(os, w2) := run_each op rest w1 in
      (o :: os, w2)
  end.

(** *** Vocabulary of the properties *)

(** The parameters [_request] passes to the session for the caller's
    [params]. *)
Definition request_params_of (cfg : PRTGConfig) (ps : option (gmap string PVal))
    : gmap string PVal :=
  match ps with
  | Some p => if bool_decide (p = ∅) then _build_auth_params cfg
              else dict_update (_build_auth_params cfg) p
  | None => _build_auth_params cfg
  end.



(** An outcome of a single lookup that ends the batch: an exception
    that is not a [PRTGNotFoundError]. *)
Definition aborts {A} (o : Result A) : bool :=
  match o with
  | Ok _ => false
  | Raise e => negb (isinstance e PRTGNotFoundError)
  end.

(** The records of the lookups that returned, in order. *)
Definition found_items {A} (outs : list (Result A)) : list A :=
  omap (λ o, match o with Ok a => Some a | Raise _ => None end) outs.

(** What a get-many over [ids] from world [w] must give, in terms of
    the single lookups run one after the other: with no aborting
    outcome, the found records and the world after the last lookup;
    otherwise the first aborting exception and the world right after
    the lookup that raised it. *)
Definition get_many_spec {A} (single : string → M A) (ids : list string)
    (w : World) (res : Result (list A) * World) : Prop :=
  (∀ outs w', run_each single ids w = (outs, w') →
     Forall (λ o, aborts o = false) outs →
     res = (Ok (found_items outs), w'))
  ∧ (∀ pre id post outs e w',
       ids = (pre ++ id :: post)%list →
       run_each single (pre ++ [id]) w = ((outs ++ [Raise e])%list, w') →
       Forall (λ o, aborts o = false) outs →
       isinstance e PRTGNotFoundError = false →
       res = (Raise e, w')).

End WithBackend.

Arguments World : clear implicits.
Arguments World {B}.

End Client.

(* ===================================================================== *)
(** ** prtg/models/base.py, device.py, sensor.py, group.py *)
(* ===================================================================== *)

Module Models.

(** A value of an API payload, as [json] decoding produces it. *)
#[warnings="-register-all"]
Inductive Value :=
| VNone
| VBool (b : bool)
| VInt (n : Z)
| VFloat (repr : string)
| VStr (s : string)
| VList (items : list Value)
| VDict (entries : list (string * Value)).

(** Library behaviour the models rely on: the builtins [str] and [int],
    and pydantic's validation of an [int] annotation. *)
Class Library := {
  py_str : Value → string;
  py_int : string → option Z;
  validate_int : Value → option Z;
}.

(** The annotations that occur in the models. *)
Inductive FType := TStr | TOptStr | TInt | TOptInt | TListStr.

Definition Validator := Value → Value.

(** One declared field: [default = None] is [Field(...)], a required
    field; [before] is its [field_validator(..., mode="before")]. *)
Record Field := mkField {
  fname : string;
  ftype : FType;
  fdefault : option Value;
  fbefore : option Validator;
}.

(** [s.split()]: the maximal runs of non-whitespace characters. *)
Fixpoint split_ws (s : string) (tok : string) : list string :=
  match s with
  | EmptyString => if PyStr.truthy tok then [tok] else []
  | String c rest =>
      if PyStr.isspace c
      then (if PyStr.truthy tok then tok :: split_ws rest "" else split_ws rest "")
      else split_ws rest (tok ++ String c "")
  end.

Section WithLibrary.
Context `{L : Library}.

(** [PRTGObjectModel.convert_objid] and [Group.convert_to_string]. *)
Definition convert_objid (v : Value) : Value :=
  match v with
  | VNone => VStr ""
  | _ => VStr (py_str v)
  end.

Definition convert_to_string : Validator := convert_objid.

(** The body shared by the validators of the optional fields: [None]
    stays [None], anything else goes through [str]. *)
Definition convert_optional (v : Value) : Value :=
  match v with
  | VNone => VNone
  | _ => VStr (py_str v)
  end.

Definition convert_status_raw : Validator := convert_optional.
Definition convert_priority_raw : Validator := convert_optional.
Definition convert_parentid : Validator := convert_optional.
Definition convert_sensor_count : Validator := convert_optional.

(** [PRTGObjectModel.parse_tags]. *)
Definition parse_tags (v : Value) : Value :=
  match v with
  | VStr s =>
      VList ((λ tag, VStr (PyStr.strip tag))
               <$> filter (λ tag, PyStr.truthy (PyStr.strip tag) = true) (split_ws s ""))
  | VList _ => v
  | _ => VList []
  end.

(** [Group.strip_whitespace]. *)
Definition strip_whitespace (v : Value) : Value :=
  match v with
  | VStr s => VStr (PyStr.strip s)
  | _ => v
  end.

(** Validation of a [str]: only a string passes;
    [str_strip_whitespace] then strips it. *)
Definition validate_str (strip : bool) (v : Value) : option Value :=
  match v with
  | VStr s => Some (VStr (if strip then PyStr.strip s else s))
  | _ => None
  end.

Definition validate_type (strip : bool) (t : FType) (v : Value) : option Value :=
  match t with
  | TStr => validate_str strip v
  | TOptStr => match v with VNone => Some VNone | _ => validate_str strip v end
  | TInt => VInt <$> validate_int v
  | TOptInt => match v with VNone => Some VNone | _ => VInt <$> validate_int v end
  | TListStr =>
      match v with
      | VList items => VList <$> mapM (validate_str strip) items
      | _ => None
      end
  end.

(** One field of one model: an absent key takes the default (a
    required field fails); a present value goes through the before
    validator and then the annotation. *)
Definition validate_field (strip : bool) (f : Field) (payload : gmap string Value)
    : option Value :=
  match payload !! fname f with
  | None => fdefault f
  | Some v => validate_type strip (ftype f) (default id (fbefore f) v)
  end.

(** the constructor call over the payload dict: every declared field validated, keys that are
    not declared dropped ([extra="ignore"]); [None] is a
    [ValidationError]. *)
Fixpoint validate_model (strip : bool) (fields : list Field)
    (payload : gmap string Value) : option (gmap string Value) :=
  match fields with
  | [] => Some ∅
  | f :: rest =>
      v ← validate_field strip f payload;
      m ← validate_model strip rest payload;
      Some (<[fname f := v]> m)
  end.

Definition required (n : string) (t : FType) (b : option Validator) : Field :=
  mkField n t None b.
Definition optional (n : string) (t : FType) (b : option Validator) : Field :=
  mkField n t (Some VNone) b.
Definition defaulted (n : string) (t : FType) (d : Value) (b : option Validator) : Field :=
  mkField n t (Some d) b.

(** [class PRTGObjectModel]. *)
Definition PRTGObjectModel_fields : list Field :=
  [ required "objid" TStr (Some convert_objid);
    required "name" TStr None;
    defaulted "tags" TListStr (VList []) (Some parse_tags) ].

(** [class PRTGStatusMixin]. *)
Definition PRTGStatusMixin_fields : list Field :=
  [ required "status" TStr None;
    optional "status_raw" TOptStr (Some convert_status_raw);
    defaulted "message" TStr (VStr "") None ].

(** [class PRTGPriorityMixin]. *)
Definition PRTGPriorityMixin_fields : list Field :=
  [ optional "priority" TOptStr None;
    optional "priority_raw" TOptStr (Some convert_priority_raw) ].

(** The fields [class Device] declares itself. *)
Definition Device_own_fields : list Field :=
  [ optional "device" TOptStr None;
    optional "host" TOptStr None;
    optional "probe" TOptStr None;
    optional "group" TOptStr None;
    optional "parentid" TOptStr (Some convert_parentid);
    optional "icon" TOptStr None;
    optional "location" TOptStr None;
    optional "comments" TOptStr None;
    optional "sensor_count" TOptInt None;
    optional "upsens" TOptStr (Some convert_sensor_count);
    optional "downsens" TOptStr (Some convert_sensor_count);
    optional "warnsens" TOptStr (Some convert_sensor_count);
    optional "pausedsens" TOptStr (Some convert_sensor_count);
    optional "unusualsens" TOptStr (Some convert_sensor_count);
    optional "undefinedsens" TOptStr None;
    optional "partialdownsens" TOptStr None;
    optional "sensor_count_up" TOptInt None;
    optional "sensor_count_down" TOptInt None;
    optional "sensor_count_warning" TOptInt None;
    optional "sensor_count_paused" TOptInt None;
    optional "sensor_count_unusual" TOptInt None;
    optional "lastup" TOptStr None;
    optional "lastdown" TOptStr None;
    optional "uptime" TOptStr None;
    optional "downtime" TOptStr None;
    optional "uptime_seconds" TOptInt None;
    optional "downtime_seconds" TOptInt None;
    optional "uptime_percent" TOptStr None;
    optional "schedule" TOptStr None;
    optional "access_rights" TOptStr None;
    defaulted "dependencies" TListStr (VList []) None ].

(** The fields [class Sensor] declares itself. *)
Definition Sensor_own_fields : list Field :=
  [ optional "sensor" TOptStr None;
    optional "device" TOptStr None;
    optional "group" TOptStr None;
    optional "probe" TOptStr None;
    optional "parentid" TOptStr (Some convert_parentid);
    optional "sensor_type" TOptStr None;
    optional "interval" TOptStr None;
    optional "lastvalue" TOptStr None;
    optional "lastmessage" TOptStr None;
    optional "downtime" TOptStr None;
    optional "uptime" TOptStr None;
    optional "downtime_seconds" TOptInt None;
    optional "uptime_seconds" TOptInt None;
    optional "downtime_percent" TOptStr None;
    optional "uptime_percent" TOptStr None;
    optional "lastup" TOptStr None;
    optional "lastdown" TOptStr None;
    optional "lastcheck" TOptStr None;
    optional "icon" TOptStr None;
    optional "schedule" TOptStr None;
    optional "access_rights" TOptStr None;
    defaulted "dependencies" TListStr (VList []) None ].

(** [class Device(PRTGObjectModel, PRTGStatusMixin, PRTGPriorityMixin)]. *)
Definition Device_fields : list Field :=
  PRTGObjectModel_fields ++ PRTGStatusMixin_fields ++ PRTGPriorityMixin_fields
    ++ Device_own_fields.

(** [class Sensor(PRTGObjectModel, PRTGStatusMixin, PRTGPriorityMixin)]. *)
Definition Sensor_fields : list Field :=
  PRTGObjectModel_fields ++ PRTGStatusMixin_fields ++ PRTGPriorityMixin_fields
    ++ Sensor_own_fields.

(** [class Group(BaseModel)]. *)
Definition Group_fields : list Field :=
  [ required "objid" TStr (Some convert_to_string);
    required "name" TStr (Some strip_whitespace);
    defaulted "probe" TStr (VStr "") (Some strip_whitespace);
    defaulted "group" TStr (VStr "") (Some strip_whitespace);
    required "parentid" TStr (Some convert_to_string);
    optional "objid_raw" TOptInt None;
    optional "name_raw" TOptStr None;
    optional "probe_raw" TOptStr None;
    optional "group_raw" TOptStr None;
    optional "parentid_raw" TOptInt None ].

(** One step of [Device.model_post_init]: derive the integer count
    from the raw string unless it is already set; a failed [int()] is
    swallowed. *)
Definition derive_count (raw derived : string) (m : gmap string Value)
    : gmap string Value :=
  match m !! raw, m !! derived with
  | Some (VStr s), Some VNone =>
      match py_int s with
      | Some n => <[derived := VInt n]> m
      | None => m
      end
  | _, _ => m
  end.

Definition model_post_init (m : gmap string Value) : gmap string Value :=
  derive_count "unusualsens" "sensor_count_unusual"
    (derive_count "pausedsens" "sensor_count_paused"
       (derive_count "warnsens" "sensor_count_warning"
          (derive_count "downsens" "sensor_count_down"
             (derive_count "upsens" "sensor_count_up" m)))).

(** The constructors of [Device], [Sensor] and [Group] over a payload dict. *)
Definition Device (payload : gmap string Value) : option (gmap string Value) :=
  model_post_init <$> validate_model true Device_fields payload.

Definition Sensor (payload : gmap string Value) : option (gmap string Value) :=
  validate_model true Sensor_fields payload.

Definition Group (payload : gmap string Value) : option (gmap string Value) :=
  validate_model true Group_fields payload.

(** Construction with one field left out of consideration: what the
    remaining declared fields make of the payload. *)
Definition without_field (n : string) (fields : list Field) : list Field :=
  filter (λ f, fname f ≠ n) fields.

End WithLibrary.

End Models.

(* ===================================================================== *)
(** ** prtg/commands/sensor.py: the [sensor data] command *)
(* ===================================================================== *)

Module SensorCmd.
Import Config Client.

(** A naive [datetime.datetime] (microseconds are always 0 here). *)
Record datetime := mkDatetime {
  year : Z; month : Z; day : Z;
  hour : Z; minute : Z; second : Z;
}.

Definition is_leap (y : Z) : bool :=
  (y mod 4 =? 0) && (negb (y mod 100 =? 0) || (y mod 400 =? 0)).

Definition days_in_month (y m : Z) : Z :=
  if m =? 2 then (if is_leap y then 29 else 28)
  else if (m =? 4) || (m =? 6) || (m =? 9) || (m =? 11) then 30
  else 31.

(** Days in the year before the first day of month [m]. *)
Definition days_before_month (y m : Z) : Z :=
  foldr Z.add 0 (days_in_month y <$> seqZ 1 (m - 1)).

(** Days before January 1st of year [y]. *)
Definition days_before_year (y : Z) : Z :=
  let p := y - 1 in
  p * 365 + p / 4 - p / 100 + p / 400.

(** [date.toordinal()]: proleptic Gregorian ordinal, 0001-01-01 is 1. *)
Definition toordinal (d : datetime) : Z :=
  days_before_year (year d) + days_before_month (year d) (month d) + day d.

Definition seconds_of_day (d : datetime) : Z :=
  hour d * 3600 + minute d * 60 + second d.

(** Seconds from [a] to [b]: the exact value of the [timedelta] [b - a]. *)
Definition span_seconds (b a : datetime) : Z :=
  (toordinal b - toordinal a) * 86400 + (seconds_of_day b - seconds_of_day a).

(** [(b - a).days]: a [timedelta] is normalised to
    [0 <= seconds < 86400], so [days] is the floor. *)
Definition timedelta_days (b a : datetime) : Z := span_seconds b a / 86400.

(** The clock and the [datetime] library: [strptime] with the format
    [%Y-%m-%d-%H-%M-%S] ([None] is [ValueError]); [window n] is the pair
    of formatted strings [(now - n seconds, now)] ([None] when the
    subtraction overflows). *)
Class DateLib := {
  strptime : string → option datetime;
  window : Z → option (string * string);
}.

(** How the command ends: [sys.exit(code)], or the request returned and
    its result goes on to be printed or saved. *)
Inductive CmdResult {B : Backend} :=
| SysExit (code : Z)
| Fetched (result : HistoricData).

Definition interval_map : gmap string Z :=
  {[ "raw" := 0; "1m" := 60; "1h" := 3600; "1d" := 86400 ]}.

Definition both_given (start_date end_date : option string) : option (string * string) :=
  match start_date, end_date with
  | Some (String _ _ as s), Some (String _ _ as e) => Some (s, e)
  | _, _ => None
  end.

Definition nonzero (n : option Z) : option Z :=
  match n with
  | Some k => if k =? 0 then None else Some k
  | None => None
  end.

Section WithLibs.
Context `{B : Backend} `{D : DateLib}.

(** "Calculate date range": [(sdate, edate)]. *)
Definition date_range (days hours : option Z) (start_date end_date : option string)
    : option (string * string) :=
  match both_given start_date end_date with
  | Some r => Some r
  | None =>
      match nonzero days with
      | Some d => window (d * 86400)
      | None =>
          match nonzero hours with
          | Some h => window (h * 3600)
          | None => window (7 * 86400)
          end
      end
  end.

(** "Validate date range based on interval": [Some code] when the
    block ends in [sys.exit(code)] ([1] stands for the [ValueError] of
    [strptime], which the command's [except Exception] turns into
    exit 1), [None] when it falls through. *)
Definition validate_range (start_date end_date : option string) (avg_interval : Z)
    : option Z :=
  match both_given start_date end_date with
  | None => None
  | Some (s, e) =>
      match strptime s with
      | None => Some 1
      | Some start_dt =>
          match strptime e with
          | None => Some 1
          | Some end_dt =>
              let delta_days := timedelta_days end_dt start_dt in
              if (avg_interval =? 0) && (40 <? delta_days) then Some 5
              else if 500 <? delta_days then Some 5
              else None
          end
      end
  end.

(** [sensor_data], from the date range to the result of the request,
    with the three [except] clauses of the command. *)
Definition sensor_data (cfg : PRTGConfig) (sensor_id : string)
    (days hours : option Z) (start_date end_date : option string)
    (interval output_format : string) : World → CmdResult * World :=
  λ w,
    match date_range days hours start_date end_date with
    | None => (SysExit 1, w)
    | Some (sdate, edate) =>
        match interval_map !! PyStr.lower interval with
        | None => (SysExit 1, w)
        | Some avg_interval =>
            match validate_range start_date end_date avg_interval with
            | Some code => (SysExit code, w)
            | None =>
                match get_sensor_historicdata cfg sensor_id sdate edate
                        avg_interval output_format w with
                | (Ok result, w') => (Fetched result, w')
                | (Raise e, w') =>
                    if isinstance e PRTGNotFoundError then (SysExit 4, w')
                    else if isinstance e PRTGClientError then (SysExit 2, w')
                    else (SysExit 1, w')
                end
            end
        end
    end.

End WithLibs.

End SensorCmd.

(* ===================================================================== *)
(** ** A sample environment on which the definitions run *)
(* ===================================================================== *)

Module Sample.
Import Config Client.

(** A server that counts the requests it has answered.  A move
    ([id=...]) of device ["B"] gets a 500, of device ["locked"] a 401, any
    other move a 200 with body ["OK"]; a lookup ([filter_objid=...]) of
    ["missing"] gets a 404, of ["void"] an empty table, of ["broken"] a
    500, any other lookup a table holding the id asked for. *)
Definition sample_serve (r : Request) (n : nat) : (RequestsError + Response) * nat :=
  let answer :=
    match params r !! "id", params r !! "filter_objid" with
    | Some (PStr id), _ =>
        if String.eqb id "B" then mkResponse 500 "Internal Server Error"
        else if String.eqb id "locked" then mkResponse 401 "Unauthorized"
        else mkResponse 200 "OK"
    | _, Some (PStr id) =>
        if String.eqb id "missing" then mkResponse 404 "Not Found"
        else if String.eqb id "void" then mkResponse 200 ""
        else if String.eqb id "broken" then mkResponse 500 "Internal Server Error"
        else mkResponse 200 id
    | _, _ => mkResponse 200 ""
    end in
  (inr answer, S n).

(** Bodies decode to themselves; a non-empty body is a table with one
    record, the body. *)
Definition sample_items (j : string) : string + list string :=
  inr (if PyStr.truthy j then [j] else []).

#[export] Instance sample_backend : Backend := {|
  ServerState := nat;
  serve := sample_serve;
  Json := string;
  response_json := λ r, inr (text r);
  http_error_str := λ r, pretty (status_code r) ++ " Error";
  Device := string;
  Sensor := string;
  Group := string;
  DeviceListResponse_devices := sample_items;
  SensorListResponse_sensors := sample_items;
  GroupListResponse_groups := sample_items;
|}.

Definition sample_config : PRTGConfig :=
  mkPRTGConfig "https://prtg.example.com" "TOKEN" true "default".

(** The world after the server has answered [n] requests, [log] being
    the requests sent. *)
Definition sample_world (n : nat) (log : list Request) : World :=
  @mkWorld sample_backend n log.

Definition world0 : World := sample_world 0 [].

Definition digit (c : ascii) : option Z :=
  let n := nat_of_ascii c in
  if ((48 <=? n)%nat && (n <=? 57)%nat)%bool then Some (Z.of_nat n - 48) else None.

Definition two_digits (a b : ascii) : option Z :=
  x ← digit a; y ← digit b; Some (10 * x + y).

Definition in_range (lo hi n : Z) : option Z :=
  if (lo <=? n) && (n <=? hi) then Some n else None.

(** [strptime] on the fixed-width form [yyyy-MM-dd-HH-mm-ss]. *)
Definition sample_strptime (s : string) : option SensorCmd.datetime :=
  match list_ascii_of_string s with
  | [y1; y2; y3; y4; "-"; m1; m2; "-"; d1; d2; "-"; h1; h2; "-"; n1; n2; "-"; s1; s2]%char =>
      yh ← two_digits y1 y2; yl ← two_digits y3 y4;
      y ← in_range 1 9999 (100 * yh + yl);
      m ← two_digits m1 m2 ≫= in_range 1 12;
      d ← two_digits d1 d2 ≫= in_range 1 (SensorCmd.days_in_month y m);
      h ← two_digits h1 h2 ≫= in_range 0 23;
      n ← two_digits n1 n2 ≫= in_range 0 59;
      sec ← two_digits s1 s2 ≫= in_range 0 59;
      Some (SensorCmd.mkDatetime y m d h n sec)
  | _ => None
  end.

(** A clock stopped at 2024-06-08 00:00:00 that only knows the default
    seven-day window. *)
#[export] Instance sample_datelib : SensorCmd.DateLib := {|
  SensorCmd.strptime := sample_strptime;
  SensorCmd.window := λ n,
    if n =? 7 * 86400 then Some ("2024-06-01-00-00-00", "2024-06-08-00-00-00") else None;
|}.

(** [str] on the scalars of a payload, [int] on nothing, and integer
    validation of integers only. *)
#[export] Instance sample_library : Models.Library := {|
  Models.py_str := λ v,
    match v with
    | Models.VNone => "None"
    | Models.VBool true => "True"
    | Models.VBool false => "False"
    | Models.VInt n => pretty n
    | Models.VFloat r => r
    | Models.VStr s => s
    | _ => "[...]"
    end;
  Models.py_int := λ _, None;
  Models.validate_int := λ v, match v with Models.VInt n => Some n | _ => None end;
|}.

End Sample.

(* ===================================================================== *)
(** ** prtg/config.py, continued: the URL sources *)
(* ===================================================================== *)

Module Resolve.
Import Config.

(** The three URL sources of [get_config], in the order of its [or]
    chain: the argument, [PRTG_URL], and the text of the [url] key of the
    profile in the file. *)
Definition url_sources (m : ConfigManager) (prof : string) (u : option string)
  : list (option string) :=
  [ u; environ m !! "PRTG_URL"; file_text m prof "url" ].

(** The operands of the [or] chain of [config_url], in order. *)
Definition url_reads (m : ConfigManager) (prof : string) (u : option string)
  : list (InterpolationError + option string) :=
  [ inr u; inr (_get_env m "URL"); _get_from_file m prof "url" ].

(** The keys of a profile that [get_config] may read. *)
Definition config_keys : list string :=
  [ "url"; "api_token"; "api_token_rw"; "api_token_ro"; "verify_ssl" ].

(** Some source of the list is set to a non-empty value. *)
Definition some_set (l : list (option string)) : Prop :=
  ∃ i o, l !! i = Some o ∧ source_set o.

(** The string holds a character that is not a slash. *)
Definition has_non_slash (s : string) : Prop :=
  ∃ pre c post, s = pre ++ String c post ∧ c ≠ "/"%char.

End Resolve.

(* ===================================================================== *)
(** ** prtg/client.py, continued: list queries and ping *)
(* ===================================================================== *)

Module Queries.
Import Config Client.

(** [status_map] of [get_devices] and [get_sensors]. *)
Definition status_map : gmap string string :=
  {[ "up" := "3"; "down" := "5"; "warning" := "4";
     "paused" := "7"; "unusual" := "10"; "unknown" := "1" ]}.

(** [status_map.get(filter_status.lower(), filter_status)]. *)
Definition translate_status (filter_status : string) : string :=
  default filter_status (status_map !! PyStr.lower filter_status).

(** [if x:] on an [Optional[str]]: the value when it is neither [None] nor
    empty. *)
Definition given (x : option string) : option string :=
  match x with
  | Some (String _ _ as s) => Some s
  | _ => None
  end.

(** The local [params] that [get_devices], [get_sensors] and [get_groups]
    build before the request; [get_groups] has no status and no tag
    filter. *)
Definition list_params (content : string) (default_columns : list string)
    (columns : option (list string))
    (filter_status filter_tags filter_parent : option string)
    (count start : option Z) : gmap string PVal :=
  let columns := default default_columns columns in
  let params : gmap string PVal :=
    {[ "content" := PStr content; "columns" := PStr (String.concat "," columns) ]} in
  let params :=
    match given filter_status with
    | Some s => <["filter_status" := PStr (translate_status s)]> params
    | None => params
    end in
  let params :=
    match given filter_tags with
    | Some t => <["filter_tags" := PStr ("@tag(" ++ t ++ ")")]> params
    | None => params
    end in
  let params :=
    match given filter_parent with
    | Some g => <["filter_parentid" := PStr g]> params
    | None => params
    end in
  let params :=
    match count with
    | Some c => <["count" := PInt c]> params
    | None => <["count" := PStr "*"]> params
    end in
  match start with
  | Some s => <["start" := PInt s]> params
  | None => params
  end.

Section WithBackend.
Context `{B : Backend}.

(** The request and the list-response constructor shared by the three
    list functions; the response object is represented by its items. *)
Definition list_query {A} (items : Json → string + list A) (cfg : PRTGConfig)
    (ps : gmap string PVal) : M (list A) :=
  bind (_request cfg "table.json" (Some ps) "GET") (λ response_data,
    match items response_data with
    | inl msg => raise (mkExc OtherError msg)
    | inr l => ret l
    end).

(** [PRTGClient.get_devices]. *)
Definition get_devices (cfg : PRTGConfig) (columns : option (list string))
    (filter_status filter_tags filter_group : option string)
    (count start : option Z) : M (list Device) :=
  list_query DeviceListResponse_devices cfg
    (list_params "devices" device_columns columns
       filter_status filter_tags filter_group count start).

(** [PRTGClient.get_sensors]. *)
Definition get_sensors (cfg : PRTGConfig) (columns : option (list string))
    (filter_status filter_tags filter_device : option string)
    (count start : option Z) : M (list Sensor) :=
  list_query SensorListResponse_sensors cfg
    (list_params "sensors" sensor_columns columns
       filter_status filter_tags filter_device count start).

(** [PRTGClient.get_groups]. *)
Definition get_groups (cfg : PRTGConfig) (columns : option (list string))
    (filter_parentid : option string) (count start : option Z) : M (list Group) :=
  list_query GroupListResponse_groups cfg
    (list_params "groups" group_columns columns None None filter_parentid count start).


(** The request a single lookup sends. *)
Definition lookup_request (cfg : PRTGConfig) (content : string)
    (default_columns : list string) (columns : option (list string)) (id : string)
  : Request :=
  mkRequest "GET" (base_url cfg ++ "/" ++ "table.json")
    (dict_update (_build_auth_params cfg)
       {[ "content" := PStr content;
          "columns" := PStr (String.concat "," (default default_columns columns));
          "filter_objid" := PStr id ]})
    (verify_ssl cfg) 30.

(** The request [get_sensor_historicdata] sends. *)
Definition historic_request_of (cfg : PRTGConfig) (sensor_id sdate edate : string)
    (avg : Z) (fmt : string) : Request :=
  mkRequest "GET" (base_url cfg ++ "/" ++ "historicdata." ++ fmt)
    (dict_update (_build_auth_params cfg)
       {[ "id" := PStr sensor_id; "sdate" := PStr sdate;
          "edate" := PStr edate; "avg" := PInt avg ]})
    (verify_ssl cfg) 30.

(** The request a list query or [ping] sends for its [params]. *)
Definition table_request (cfg : PRTGConfig) (ps : gmap string PVal) : Request :=
  mkRequest "GET" (base_url cfg ++ "/" ++ "table.json")
    (dict_update (_build_auth_params cfg) ps) (verify_ssl cfg) 30.

(** What a single lookup makes of the items of the table it received. *)
Definition first_item {A} (kind id : string) (items : string + list A) : Result A :=
  match items with
  | inl msg => Raise (mkExc OtherError msg)
  | inr [] => Raise (mkExc PRTGNotFoundError (kind ++ " not found: " ++ id))
  | inr (first :: _) => Ok first
  end.

End WithBackend.

End Queries.

(* ===================================================================== *)
(** ** prtg/commands/device.py, sensor.py, group.py: get and move *)
(* ===================================================================== *)

Module Commands.
Import Config Client.

(** [[line.strip() for line in sys.stdin if line.strip()]]. *)
Definition read_ids (stdin_lines : list string) : list string :=
  PyStr.strip <$> filter (λ line, PyStr.truthy (PyStr.strip line) = true) stdin_lines.

(** The exit code the [except] clauses of a get command give for an
    exception that left the [try] block. *)
Definition get_exit_code (e : Exc) : Z :=
  if isinstance e PRTGNotFoundError then 4
  else if isinstance e PRTGClientError then 2
  else 1.

(** The exit code of [device_move]'s [except] clauses. *)
Definition move_exit_code (e : Exc) : Z :=
  if isinstance e PRTGClientError then 2 else 1.

Section WithBackend.
Context `{B : Backend}.

(** [device_get], [sensor_get] and [group_get] share this shape: the exit
    code of the process ([0] when the command returns) and the world.
    The ids are declared [nargs=-1, required=True], so with no positional
    id click ends the command with its usage error, exit code 2, before
    the body runs; the body is taken after [init_client], and the
    rendering of the records is left out. *)
Definition get_command {A} (single : string → M A) (many : list string → M (list A))
    (ids : list string) (stdin : bool) (stdin_lines : list string) : World → Z * World :=
  λ w,
    match ids with
    | [] => (2, w)
    | _ :: _ =>
        let ids := if stdin then read_ids stdin_lines else ids in
        match ids with
        | [] => (1, w)
        | [id] =>
            match single id w with
            | (Ok _, w') => (0, w')
            | (Raise e, w') => (get_exit_code e, w')
            end
        | _ =>
            match many ids w with
            | (Ok _, w') => (0, w')
            | (Raise e, w') => (get_exit_code e, w')
            end
        end
    end.

(** [device_get], [sensor_get], [group_get]. *)
Definition device_get (cfg : PRTGConfig) :=
  get_command (λ id, get_device cfg id None) (λ ids, get_devices_by_ids cfg ids None).

Definition sensor_get (cfg : PRTGConfig) :=
  get_command (λ id, get_sensor cfg id None) (λ ids, get_sensors_by_ids cfg ids None).

Definition group_get (cfg : PRTGConfig) :=
  get_command (λ id, get_group cfg id None) (λ ids, get_groups_by_ids cfg ids None).

(** [sum(1 for r in results if r["success"])]. *)
Definition success_count (results : list MoveResult) : nat :=
  length (filter (λ r, success r = true) results).

(** [device_move], after [init_client]: the exit code and the world. *)
Definition device_move (cfg : PRTGConfig) (device_ids : list string) (stdin : bool)
    (stdin_lines : list string) (target_group : string) (dry_run : bool)
  : World → Z * World :=
  λ w,
    let device_ids := if stdin then read_ids stdin_lines else device_ids in
    match device_ids with
    | [] => (1, w)
    | _ =>
        if dry_run then (0, w)
        else
          match move_devices cfg device_ids target_group w with
          | (Ok results, w') =>
              let failure_count := (length results - success_count results)%nat in
              if (0 <? failure_count)%nat then (3, w') else (0, w')
          | (Raise e, w') => (move_exit_code e, w')
          end
    end.

End WithBackend.

End Commands.

(* ===================================================================== *)
(** ** prtg/commands/sensor.py: the rows shown on the terminal *)
(* ===================================================================== *)

Module CsvOutput.

Definition newline : ascii := "010"%char.

(** [s.split(sep)] for a one-character separator; [cur] is the piece being
    read. *)
Fixpoint split_on (sep : ascii) (s : string) (cur : string) : list string :=
  match s with
  | EmptyString => [cur]
  | String c rest =>
      if Ascii.eqb c sep then cur :: split_on sep rest ""
      else split_on sep rest (cur ++ String c "")
  end.

(** ['\n'.join(lines)]. *)
Definition join_lines (lines : list string) : string :=
  String.concat (String newline "") lines.

(** [l[-n:]] for [0 < n]. *)
Definition last_n {A} (n : nat) (l : list A) : list A := drop (length l - n) l.

(** [output.strip().split('\n')]. *)
Definition csv_lines (output : string) : list string :=
  split_on newline (PyStr.strip output) "".

(** "Apply row limiting for CSV to terminal": the [output] that is written
    for the CSV [result], the [--output] file and the [--head] value. *)
Definition limit_rows (result : string) (output_file : option string)
    (head : option Z) : string :=
  match Queries.given output_file with
  | Some _ => result
  | None =>
      let limit := default 50 head in
      if 0 <? limit then
        match csv_lines result with
        | header :: ((_ :: _) as data_lines) =>
            if limit <? Z.of_nat (length data_lines)
            then join_lines (header :: last_n (Z.to_nat limit) data_lines)
                 ++ String newline ""
            else result
        | _ => result
        end
      else result
  end.

(** A line of text: it holds no newline. *)
Definition is_line (s : string) : Prop :=
  ∀ pre post, s ≠ pre ++ String newline post.

End CsvOutput.

(* ===================================================================== *)
(** ** Words of a tag string *)
(* ===================================================================== *)

Module Tags.

(** No character of the string is white space. *)
Definition no_space (s : string) : bool :=
  forallb (λ c, negb (PyStr.isspace c)) (list_ascii_of_string s).

End Tags.

(* ===================================================================== *)
(** ** More sample environments *)
(* ===================================================================== *)

Module Offline.
Import Client.

(** A server that cannot be reached: every request ends in a connection
    error. *)
Definition offline_backend : Backend := {|
  ServerState := unit;
  serve := λ _ s, (inl (mkRequestsError ConnectionError "refused"), s);
  Json := string;
  response_json := λ r, inr (text r);
  http_error_str := λ r, pretty (status_code r) ++ " Error";
  Device := string;
  Sensor := string;
  Group := string;
  DeviceListResponse_devices := Sample.sample_items;
  SensorListResponse_sensors := Sample.sample_items;
  GroupListResponse_groups := Sample.sample_items;
|}.

Definition offline_world : @World offline_backend := @mkWorld offline_backend tt [].

(** [int] on a string of decimal digits. *)
Fixpoint parse_digits (s : string) (acc : Z) : option Z :=
  match s with
  | EmptyString => Some acc
  | String c rest => d ← Sample.digit c; parse_digits rest (10 * acc + d)
  end.

(** The sample library with an [int] that reads decimal digits. *)
Definition counting_library : Models.Library := {|
  Models.py_str := @Models.py_str Sample.sample_library;
  Models.py_int := λ s, if PyStr.truthy s then parse_digits s 0 else None;
  Models.validate_int := @Models.validate_int Sample.sample_library;
|}.

End Offline.

(* ===================================================================== *)
(** * Properties *)
(* ===================================================================== *)

(** ** Strings *)

Section StringFacts.
Import PyStr.

Lemma str_app_nil s : "" ++ s = s.
Proof. reflexivity. Qed.

Lemma str_app_cons c a b : String c a ++ b = String c (a ++ b).
Proof. reflexivity. Qed.

Lemma str_app_nil_r s : s ++ "" = s.
Proof. induction s as [|c s IH]; [done|]. by rewrite str_app_cons, IH. Qed.

Lemma str_app_assoc a b c : (a ++ b) ++ c = a ++ (b ++ c).
Proof. induction a as [|x a IH]; [done|]. by rewrite !str_app_cons, IH. Qed.

Lemma truthy_spec s : truthy s = true ↔ s ≠ "".
Proof. destruct s; simpl; split; congruence. Qed.

Lemma rstrip_cons chars c s :
  rstrip chars s ≠ "" → rstrip chars (String c s) = String c (rstrip chars s).
Proof. simpl. destruct (rstrip chars s); [congruence | done]. Qed.

Lemma rstrip_cons_keep chars c s :
  chars c = false → rstrip chars (String c s) = String c (rstrip chars s).
Proof. intros Hc. simpl. destruct (rstrip chars s); [by rewrite Hc | done]. Qed.

Lemma last_char_cons c s : s ≠ "" → last_char (String c s) = last_char s.
Proof. by destruct s. Qed.

Lemma last_char_app a b : b ≠ "" → last_char (a ++ b) = last_char b.
Proof.
  intros Hb. induction a as [|c a IH]; [done|].
  rewrite str_app_cons, last_char_cons; [done|]. by destruct a, b.
Qed.

(** What [rstrip] leaves does not end in a stripped character. *)
Lemma rstrip_last chars s c : last_char (rstrip chars s) = Some c → chars c = false.
Proof.
  revert c. induction s as [|d s IH]; intros c; [done|].
  simpl. destruct (rstrip chars s) as [|k kept] eqn:E.
  - destruct (chars d) eqn:Hd; simpl; [done|]. by intros [= <-].
  - rewrite last_char_cons; [|done]. apply IH.
Qed.

Lemma rstrip_fixed chars s :
  (∀ c, last_char s = Some c → chars c = false) → rstrip chars s = s.
Proof.
  induction s as [|d s IH]; [done|]. intros Hlast.
  destruct s as [|e s].
  - simpl. by rewrite (Hlast d).
  - assert (rstrip chars (String e s) = String e s) as Hr.
    { apply IH. intros c Hc. apply Hlast. by rewrite last_char_cons. }
    rewrite rstrip_cons; by rewrite Hr.
Qed.

Lemma rstrip_prefix chars s : ∃ suf, s = rstrip chars s ++ suf.
Proof.
  induction s as [|c s [suf IH]]; [by exists ""|]. simpl.
  destruct (rstrip chars s) as [|k kept].
  - rewrite str_app_nil in IH. subst suf. destruct (chars c); [by exists (String c s)|].
    by exists s.
  - exists suf. by rewrite str_app_cons, <- IH.
Qed.

Lemma lstrip_suffix chars s : ∃ pre, s = pre ++ lstrip chars s.
Proof.
  induction s as [|c s [pre IH]]; [by exists ""|]. simpl.
  destruct (chars c); [|by exists ""].
  exists (String c pre). by rewrite str_app_cons, <- IH.
Qed.

(** *** Case-insensitive search for "ok" *)

Lemma lower_char_o c : lower_char c = "o"%char ↔ c = "o"%char ∨ c = "O"%char.
Proof.
  destruct c as [[] [] [] [] [] [] [] []]; vm_compute;
    (split; [first [discriminate | by auto] | by intros [|]]).
Qed.

Lemma lower_char_k c : lower_char c = "k"%char ↔ c = "k"%char ∨ c = "K"%char.
Proof.
  destruct c as [[] [] [] [] [] [] [] []]; vm_compute;
    (split; [first [discriminate | by auto] | by intros [|]]).
Qed.

Lemma not_space_o c : c = "o"%char ∨ c = "O"%char → isspace c = false.
Proof. by intros [-> | ->]. Qed.

Lemma not_space_k c : c = "k"%char ∨ c = "K"%char → isspace c = false.
Proof. by intros [-> | ->]. Qed.

Lemma startswith_ok s :
  startswith "ok" s = true ↔ ∃ post, s = String "o" (String "k" post).
Proof.
  unfold startswith. split.
  - destruct s as [|a [|b s]]; cbn [String.prefix]; [done|..].
    + by destruct (ascii_dec "o" a).
    + destruct (ascii_dec "o" a) as [<-|]; [|done].
      destruct (ascii_dec "k" b) as [<-|]; [|done]. by exists s.
  - intros [post ->]. by destruct post.
Qed.

Lemma contains_ok_ci_nil : ¬ contains_ok_ci "".
Proof. intros (pre & post & c1 & c2 & H & _). by destruct pre. Qed.

Lemma contains_ok_ci_cons c s :
  contains_ok_ci (String c s)
  ↔ ((c = "o"%char ∨ c = "O"%char)
     ∧ ∃ c2 post, s = String c2 post ∧ (c2 = "k"%char ∨ c2 = "K"%char))
    ∨ contains_ok_ci s.
Proof.
  split.
  - intros (pre & post & c1 & c2 & H & H1 & H2). destruct pre as [|p pre].
    + rewrite str_app_nil in H. injection H as -> ->. left. split; [done|]. by exists c2, post.
    + rewrite str_app_cons in H. injection H as -> ->. right. by exists pre, post, c1, c2.
  - intros [(H1 & c2 & post & -> & H2) | (pre & post & c1 & c2 & -> & H1 & H2)].
    + by exists "", post, c, c2.
    + by exists (String c pre), post, c1, c2.
Qed.

Lemma contains_ok_ci_app a m b : contains_ok_ci m → contains_ok_ci (a ++ m ++ b).
Proof.
  intros (pre & post & c1 & c2 & -> & H1 & H2).
  exists (a ++ pre), (post ++ b), c1, c2. split; [|done].
  by rewrite !str_app_assoc, !str_app_cons.
Qed.

Lemma contains_lower_ok s : contains "ok" (lower s) = true ↔ contains_ok_ci s.
Proof.
  induction s as [|c s IH].
  - split; [done|]. intros H. by destruct contains_ok_ci_nil.
  - rewrite contains_ok_ci_cons. cbn [lower contains]. rewrite orb_true_iff, IH.
    rewrite startswith_ok. split.
    + intros [[post H] | H]; [|by right]. left.
      injection H as Hc Hs. apply lower_char_o in Hc. split; [done|].
      destruct s as [|c2 s]; [done|]. cbn [lower] in Hs. injection Hs as Hc2 _.
      apply lower_char_k in Hc2. by exists c2, s.
    + intros [(H1 & c2 & post & -> & H2) | H]; [|by right]. left.
      exists (lower post). cbn [lower].
      apply lower_char_o in H1 as ->. by apply lower_char_k in H2 as ->.
Qed.

Lemma contains_ok_ci_lstrip s : contains_ok_ci (lstrip isspace s) ↔ contains_ok_ci s.
Proof.
  split.
  - intros H. destruct (lstrip_suffix isspace s) as [pre Hs]. rewrite Hs.
    rewrite <- (str_app_nil_r (lstrip isspace s)). by apply contains_ok_ci_app.
  - induction s as [|c s IH]; [done|]. simpl. destruct (isspace c) eqn:Hc; [|done].
    rewrite contains_ok_ci_cons. intros [[H1 _] | H]; [|by apply IH].
    apply not_space_o in H1. congruence.
Qed.

Lemma contains_ok_ci_rstrip s : contains_ok_ci (rstrip isspace s) ↔ contains_ok_ci s.
Proof.
  split.
  - intros H. destruct (rstrip_prefix isspace s) as [suf Hs]. rewrite Hs.
    rewrite <- (str_app_nil (rstrip isspace s ++ suf)). by apply contains_ok_ci_app.
  - induction s as [|c s IH]; [done|]. rewrite contains_ok_ci_cons.
    intros [(H1 & c2 & post & -> & H2) | H].
    + rewrite (rstrip_cons_keep _ c) by by apply not_space_o.
      rewrite (rstrip_cons_keep _ c2) by by apply not_space_k.
      apply contains_ok_ci_cons. left. split; [done|]. by eexists _, _.
    + specialize (IH H). rewrite rstrip_cons.
      * apply contains_ok_ci_cons. by right.
      * intros E. rewrite E in IH. by destruct contains_ok_ci_nil.
Qed.

(** The test [move_device] makes on a body is the case-insensitive search. *)
Lemma contains_ok_response t :
  contains "ok" (lower (strip t)) = true ↔ contains_ok_ci t.
Proof.
  rewrite contains_lower_ok. unfold strip.
  by rewrite contains_ok_ci_rstrip, contains_ok_ci_lstrip.
Qed.

End StringFacts.

(** ** Configuration *)

Section ConfigFacts.
Import Config.

Lemma is_slash_spec c : is_slash c = true ↔ c = "/"%char.
Proof. unfold is_slash. apply Ascii.eqb_eq. Qed.

(** The stripped string followed by the slashes that were dropped. *)
Lemma rstrip_slash_split s :
  ∃ n, s = PyStr.rstrip is_slash s ++ PyStr.replicate n "/".
Proof.
  induction s as [|c s [n IH]].
  - by exists 0%nat.
  - simpl. destruct (PyStr.rstrip is_slash s) as [|k kept] eqn:E.
    + destruct (is_slash c) eqn:Hc.
      * apply is_slash_spec in Hc as ->. exists (S n). simpl.
        by rewrite str_app_nil in *; subst.
      * exists n. rewrite str_app_cons, str_app_nil in *. by subst.
    + exists n. rewrite str_app_cons. by rewrite <- IH.
Qed.

Lemma rstrip_slash_empty s :
  PyStr.rstrip is_slash s = "" ↔ ∃ n, s = PyStr.replicate n "/".
Proof.
  split.
  - intros E. destruct (rstrip_slash_split s) as [n Hn]. rewrite E in Hn. by exists n.
  - intros [n ->]. induction n as [|n IH]; [done|]. simpl. by rewrite IH.
Qed.

Lemma rstrip_slash_stem u stem n :
  u = stem ++ PyStr.replicate n "/" → PyStr.last_char stem ≠ Some "/"%char →
  PyStr.rstrip is_slash u = stem.
Proof.
  intros -> Hl. induction stem as [|c stem IH].
  - rewrite str_app_nil. apply rstrip_slash_empty. by exists n.
  - rewrite str_app_cons. destruct stem as [|d stem].
    + rewrite str_app_nil.
      assert (PyStr.rstrip is_slash (PyStr.replicate n "/") = "") as E
        by (apply rstrip_slash_empty; by exists n).
      simpl. rewrite E. destruct (is_slash c) eqn:Hc; [|done].
      apply is_slash_spec in Hc as ->. by destruct Hl.
    + rewrite rstrip_cons; rewrite IH; try done.
Qed.

Lemma has_scheme_https s : has_scheme ("https://" ++ s) = true.
Proof.
  unfold has_scheme, PyStr.startswith. apply orb_true_iff. right.
  destruct s; reflexivity.
Qed.

Lemma normalize_url_fixed s :
  has_scheme s = true → (∀ c, PyStr.last_char s = Some c → is_slash c = false) →
  normalize_url s = s.
Proof.
  intros Hs Hl. unfold normalize_url. rewrite (rstrip_fixed _ _ Hl). by rewrite Hs.
Qed.

Lemma normalize_url_nonempty u : normalize_url u ≠ "".
Proof.
  unfold normalize_url. destruct (has_scheme (PyStr.rstrip is_slash u)) eqn:Hs; [|done].
  by destruct (PyStr.rstrip is_slash u).
Qed.

Lemma PRTGConfig_init_ok u tok vs prof :
  u ≠ "" → tok ≠ "" →
  PRTGConfig_init u tok vs prof = inr (mkPRTGConfig (normalize_url u) tok vs prof).
Proof. intros Hu Ht. unfold PRTGConfig_init, __post_init__. by destruct u, tok. Qed.

(** C5 (amended): for every non-empty URL and token, the constructor strips
    every trailing slash of the URL, however many there are, and then
    prepends [https://] exactly when what is left starts with neither
    [http://] nor [https://].  The URL splits into a stem that does not end
    in a slash followed by [n] slashes, and for each such split the stored
    URL is built from the stem alone. *)
Theorem url_normalization_strips_all_slashes u tok vs prof :
  u ≠ "" → tok ≠ "" →
  (∃ stem n, u = stem ++ PyStr.replicate n "/" ∧ PyStr.last_char stem ≠ Some "/"%char)
  ∧ (∀ stem n,
       u = stem ++ PyStr.replicate n "/" → PyStr.last_char stem ≠ Some "/"%char →
       PRTGConfig_init u tok vs prof
       = inr (mkPRTGConfig (if has_scheme stem then stem else "https://" ++ stem)
                tok vs prof)).
Proof.
  intros Hu Ht. split.
  - destruct (rstrip_slash_split u) as [n Hn].
    exists (PyStr.rstrip is_slash u), n. split; [done|].
    intros Hl. by apply rstrip_last in Hl.
  - intros stem n Hsplit Hl. rewrite PRTGConfig_init_ok by done.
    unfold normalize_url. by rewrite (rstrip_slash_stem u stem n).
Qed.

Lemma url_normalization_strips_all_slashes_witness :
  "prtg.example.com//" ≠ "" ∧ "TOKEN" ≠ ""
  ∧ "prtg.example.com//" = "prtg.example.com" ++ PyStr.replicate 2 "/"
  ∧ PRTGConfig_init "prtg.example.com//" "TOKEN" true "default"
    = inr (mkPRTGConfig "https://prtg.example.com" "TOKEN" true "default").
Proof.
  assert ("prtg.example.com//" ≠ "") as Hu by discriminate.
  assert ("TOKEN" ≠ "") as Ht by discriminate.
  split; [done|]. split; [done|]. split; [reflexivity|].
  destruct (url_normalization_strips_all_slashes
              "prtg.example.com//" "TOKEN" true "default" Hu Ht) as [_ H].
  apply (H "prtg.example.com" 2%nat); [reflexivity | discriminate].
Defined.

(** C5, as stated, fails: of two trailing slashes both are dropped, not
    one. *)
Lemma url_two_trailing_slashes_both_stripped :
  ∃ cfg, PRTGConfig_init "prtg.example.com//" "TOKEN" true "default" = inr cfg
         ∧ url cfg = "https://prtg.example.com"
         ∧ normalize_url_one_slash "prtg.example.com//" = "https://prtg.example.com/"
         ∧ url cfg ≠ normalize_url_one_slash "prtg.example.com//".
Proof.
  eexists. split; [reflexivity|]. split; [reflexivity|]. split; [reflexivity|].
  vm_compute. discriminate.
Qed.

(** C6 (amended): for every URL with at least one character that is not a
    slash, normalising the normalised URL gives it back unchanged, and the
    constructor accepts the normalised URL as it is. *)
Theorem url_normalization_idempotent u tok vs prof :
  (∀ n, u ≠ PyStr.replicate n "/") →
  normalize_url (normalize_url u) = normalize_url u
  ∧ (tok ≠ "" →
     PRTGConfig_init (normalize_url u) tok vs prof
     = inr (mkPRTGConfig (normalize_url u) tok vs prof)).
Proof.
  intros Hu.
  assert (normalize_url (normalize_url u) = normalize_url u) as Hidem.
  { assert (PyStr.rstrip is_slash u ≠ "") as Hne.
    { intros E. apply rstrip_slash_empty in E as [n ->]. by apply (Hu n). }
    unfold normalize_url at 2 3. destruct (has_scheme (PyStr.rstrip is_slash u)) eqn:Hs.
    - apply normalize_url_fixed; [done|]. apply rstrip_last.
    - apply normalize_url_fixed; [apply has_scheme_https|].
      intros c. rewrite last_char_app; [|done]. apply rstrip_last. }
  split; [done|]. intros Ht.
  rewrite PRTGConfig_init_ok; [by rewrite Hidem | apply normalize_url_nonempty | done].
Qed.

Lemma url_normalization_idempotent_witness :
  normalize_url "prtg.example.com/" = "https://prtg.example.com"
  ∧ normalize_url (normalize_url "prtg.example.com/") = normalize_url "prtg.example.com/".
Proof.
  split; [reflexivity|].
  apply (url_normalization_idempotent "prtg.example.com/" "TOKEN" true "default").
  intros [|n]; discriminate.
Defined.

(** C6, as stated, fails on the non-empty URL ["/"]: it normalises to
    ["https://"], which normalises to ["https://https:"]. *)
Lemma url_normalization_not_idempotent_on_slash :
  "/" ≠ ""
  ∧ normalize_url "/" = "https://"
  ∧ normalize_url (normalize_url "/") = "https://https:"
  ∧ normalize_url (normalize_url "/") ≠ normalize_url "/".
Proof.
  split; [discriminate|]. split; [reflexivity|]. split; [reflexivity|].
  vm_compute. discriminate.
Qed.

Example normalize_bare_host : normalize_url "prtg.example.com/" = "https://prtg.example.com".
Proof. reflexivity. Qed.

Example normalize_http_kept : normalize_url "http://x.com" = "http://x.com".
Proof. reflexivity. Qed.

(** *** Token precedence *)

Lemma py_or_set a b : source_set a → py_or a b = a.
Proof. intros (s & -> & Hs). simpl. by destruct s. Qed.

Lemma py_or_unset a b : ¬ source_set a → py_or a b = b.
Proof.
  intros Hn. destruct a as [s|]; [|done]. simpl.
  destruct s; [done|]. destruct Hn. by eexists.
Qed.

Lemma or_default_set a d s : a = Some s → s ≠ "" → or_default a d = s.
Proof. intros -> Hs. simpl. by destruct s. Qed.

Lemma not_source_set_None : ¬ source_set None.
Proof. by intros (s & ? & _). Qed.

Lemma foldl_py_or_set a l : source_set a → foldl py_or a l = a.
Proof.
  intros Ha. induction l as [|o l IH]; [done|]. simpl. by rewrite py_or_set.
Qed.

(** A chain of [or] gives the first operand that is set. *)
Lemma foldl_py_or_first l : ∀ i v acc,
  ¬ source_set acc → l !! i = Some (Some v) → v ≠ "" →
  (∀ j o, (j < i)%nat → l !! j = Some o → ¬ source_set o) →
  foldl py_or acc l = Some v.
Proof.
  induction l as [|o l IH]; intros i v acc Hacc Hi Hv Hlow; [done|].
  simpl. rewrite py_or_unset by done. destruct i as [|i].
  - injection Hi as ->. apply foldl_py_or_set. by exists v.
  - apply (IH i); try done.
    + apply (Hlow 0%nat); [lia | done].
    + intros j o' Hj Ho'. apply (Hlow (S j)); [lia | done].
Qed.

(** *** Reading the file *)

Lemma contains_percent_cons c s :
  PyStr.contains "%" (String c s) = Ascii.eqb c "%" || PyStr.contains "%" s.
Proof.
  cbn [PyStr.contains]. unfold PyStr.startswith. cbn [String.prefix].
  destruct (ascii_dec "%" c) as [<-|Hc].
  - by destruct s.
  - destruct (Ascii.eqb_spec c "%") as [->|]; done.
Qed.

Lemma no_percent_cons c s :
  no_percent (String c s) = true ↔ c ≠ "%"%char ∧ no_percent s = true.
Proof.
  unfold no_percent. rewrite contains_percent_cons, negb_orb, andb_true_iff.
  rewrite negb_true_iff, Ascii.eqb_neq. done.
Qed.

(** A value without [%] is read as it is written. *)
Lemma interpolate_plain depth map value :
  no_percent value = true → _interpolate_some (S depth) map value = inr value.
Proof.
  cbn [_interpolate_some]. induction value as [|c value IH]; [done|].
  intros [Hc Hv]%no_percent_cons. apply Ascii.eqb_neq in Hc. rewrite Hc.
  by rewrite (IH Hv).
Qed.

(** A [%] at the end of a value is a syntax error. *)
Lemma interpolate_lone_percent depth map pre :
  no_percent pre = true →
  _interpolate_some (S depth) map (pre ++ "%") = inl InterpolationSyntaxError.
Proof.
  cbn [_interpolate_some]. induction pre as [|c pre IH]; [done|].
  intros [Hc Hv]%no_percent_cons. rewrite str_app_cons.
  apply Ascii.eqb_neq in Hc. rewrite Hc. by rewrite (IH Hv).
Qed.

Lemma parser_get_text m prof key :
  PyStr.lower key = key →
  _get_from_file m prof key
  = match file_text m prof key with
    | Some value =>
        match sections (parser m) !! prof with
        | Some sec =>
            match before_get (sec ∪ defaults (parser m)) value with
            | inl e => inl e
            | inr v => inr (Some v)
            end
        | None => inr None
        end
    | None => inr None
    end.
Proof.
  intros Hkey. unfold _get_from_file, has_section, parser_get, file_text. rewrite Hkey.
  destruct (sections (parser m) !! prof) as [sec|] eqn:Es.
  - rewrite bool_decide_eq_true_2 by by eexists. cbn [negb].
    rewrite lookup_union.
    destruct (sec !! key) as [v|], (defaults (parser m) !! key) as [v'|]; done.
  - rewrite bool_decide_eq_false_2; [done|]. by intros [? ?].
Qed.

(** A key whose text has no [%] is read as the file writes it. *)
Lemma _get_from_file_plain m prof key :
  PyStr.lower key = key →
  (∀ value, file_text m prof key = Some value → no_percent value = true) →
  _get_from_file m prof key = inr (file_text m prof key).
Proof.
  intros Hkey Hplain. rewrite parser_get_text by done.
  destruct (file_text m prof key) as [value|] eqn:Et; [|done].
  unfold file_text in Et.
  destruct (sections (parser m) !! prof) as [sec|]; [|done].
  unfold before_get, MAX_INTERPOLATION_DEPTH. by rewrite interpolate_plain by by apply Hplain.
Qed.

(** A key that is not set to a non-empty text reads as not set. *)
Lemma _get_from_file_unset m prof key :
  PyStr.lower key = key → ¬ source_set (file_text m prof key) →
  _get_from_file m prof key = inr (file_text m prof key).
Proof.
  intros Hkey Hno. apply _get_from_file_plain; [done|].
  intros [|c value] Hv; [done|]. destruct Hno. by eexists.
Qed.

(** *** The [or] chain over reads *)

Lemma or_read_set a b : source_set a → inr a ||? b = inr a.
Proof. intros (s & -> & Hs). simpl. by destruct s. Qed.

Lemma or_read_unset a b : ¬ source_set a → inr a ||? b = b.
Proof.
  intros Hn. destruct a as [s|]; [|done]. simpl.
  destruct s; [done|]. destruct Hn. by eexists.
Qed.

Lemma or_read_values a b : inr a ||? inr b = inr (a ||| b).
Proof. destruct a as [[|c s]|]; done. Qed.

Lemma foldl_or_read_set a l : source_set a → foldl or_read (inr a) l = inr a.
Proof.
  intros Ha. induction l as [|o l IH]; [done|]. cbn [foldl]. by rewrite or_read_set.
Qed.

(** A chain of [or] over reads gives the first operand that is set, when
    the operands before it return and are not set: the operands after it
    are not evaluated. *)
Lemma foldl_or_read_first l : ∀ i v acc,
  ¬ source_set acc → l !! i = Some (inr (Some v)) → v ≠ "" →
  (∀ j, (j < i)%nat → ∃ o, l !! j = Some (inr o) ∧ ¬ source_set o) →
  foldl or_read (inr acc) l = inr (Some v).
Proof.
  induction l as [|o l IH]; intros i v acc Hacc Hi Hv Hlow; [done|].
  cbn [foldl]. rewrite or_read_unset by done. destruct i as [|i].
  - injection Hi as ->. apply foldl_or_read_set. by exists v.
  - destruct (Hlow 0%nat ltac:(lia)) as (o' & [= ->] & Ho').
    apply (IH i); try done.
    intros j Hj. apply (Hlow (S j)). lia.
Qed.

(** When all operands return, the chain is the chain of their values. *)
Lemma foldl_or_read_values (l : list (option string)) acc :
  foldl or_read (inr acc) (inr <$> l) = inr (foldl py_or acc l).
Proof.
  revert acc. induction l as [|o l IH]; intros acc; [done|].
  rewrite fmap_cons. cbn [foldl]. by rewrite or_read_values, IH.
Qed.

(** The expression of [get_config] is the chain over the seven reads. *)
Lemma config_api_token_foldl m prof tok :
  config_api_token m prof tok = foldl or_read (inr None) (token_reads m prof tok).
Proof. reflexivity. Qed.

(** A token source whose text has no [%], when it is one of the file,
    is what its read returns. *)
Lemma token_read_of_source m prof tok j o :
  token_sources m prof tok !! j = Some o →
  ((4 ≤ j)%nat → ∀ value, o = Some value → no_percent value = true) →
  token_reads m prof tok !! j = Some (inr o).
Proof.
  intros Hj Hplain.
  destruct j as [|[|[|[|[|[|[|j]]]]]]]; cbn in Hj; try done; injection Hj as <-;
    try reflexivity.
  all: apply (f_equal Some), _get_from_file_plain; [reflexivity|].
  all: intros value Hv; apply Hplain; [lia | exact Hv].
Qed.

Lemma token_read_unset m prof tok j o :
  token_sources m prof tok !! j = Some o → ¬ source_set o →
  token_reads m prof tok !! j = Some (inr o).
Proof.
  intros Hj Hno. apply token_read_of_source; [done|].
  intros _ [|c value] ->; [done|]. destruct Hno. by eexists.
Qed.

(** What the constructor keeps of the URL and the token it is given. *)
Lemma PRTGConfig_init_fields u tok vs prof cfg :
  PRTGConfig_init u tok vs prof = inr cfg →
  url cfg = normalize_url u ∧ api_token cfg = tok
  ∧ verify_ssl cfg = vs ∧ profile cfg = prof.
Proof.
  unfold PRTGConfig_init, __post_init__. cbn [url api_token verify_ssl profile].
  destruct (negb _); [done|]. destruct (negb _); [done|]. by intros [= <-].
Qed.

(** What [get_config] returns was built from the three resolved values. *)
Lemma get_config_returns m prof u tok vs cfg :
  get_config m prof u tok vs = inr cfg →
  let p := resolve_profile m prof in
  ∃ cu ct cv,
    config_url m p u = inr cu ∧ config_api_token m p tok = inr ct
    ∧ config_verify_ssl m p vs = inr cv
    ∧ PRTGConfig_init (or_default cu "") (or_default ct "") cv p = inr cfg.
Proof.
  intros Hcfg p. unfold get_config in Hcfg. fold p in Hcfg.
  destruct (config_url m p u) as [|cu]; [done|].
  destruct (config_api_token m p tok) as [|ct]; [done|].
  destruct (config_verify_ssl m p vs) as [|cv]; [done|].
  destruct (PRTGConfig_init _ _ cv p) as [|c] eqn:E; [done|].
  injection Hcfg as <-. by exists cu, ct, cv.
Qed.

(** C4 (amended): with [p] the profile in use, if the [i]-th of the seven
    token sources (explicit argument, PRTG_API_TOKEN, PRTG_API_TOKEN_RW,
    PRTG_API_TOKEN_RO, and the file's text for api_token, api_token_rw,
    api_token_ro) is set to a non-empty value [v], no source before it
    is, and [v] holds no [%] when it comes from the file, then the
    resolved token is [v]: every configuration [get_config] returns
    carries it, and [get_config] does return one whenever a URL and
    [verify_ssl] are resolved.  The sources after the [i]-th are not
    read. *)
Theorem token_precedence m prof u tok vs i v :
  let p := resolve_profile m prof in
  token_sources m p tok !! i = Some (Some v) → v ≠ "" →
  (∀ j o, (j < i)%nat → token_sources m p tok !! j = Some o → ¬ source_set o) →
  ((4 ≤ i)%nat → no_percent v = true) →
  config_api_token m p tok = inr (Some v)
  ∧ (∀ cfg, get_config m prof u tok vs = inr cfg → api_token cfg = v)
  ∧ (∀ cu cv, config_url m p u = inr (Some cu) → cu ≠ "" →
       config_verify_ssl m p vs = inr cv →
       ∃ cfg, get_config m prof u tok vs = inr cfg ∧ api_token cfg = v).
Proof.
  intros p Hi Hv Hlow Hplain.
  assert (config_api_token m p tok = inr (Some v)) as Htok.
  { rewrite config_api_token_foldl.
    apply (foldl_or_read_first _ i); [apply not_source_set_None | | done |].
    - apply token_read_of_source; [done|]. intros Hfile value [= <-]. by apply Hplain.
    - intros j Hj.
      destruct (token_sources m p tok !! j) as [o|] eqn:Ej.
      + exists o. split; [|by apply (Hlow j)].
        apply token_read_unset; [done|]. by apply (Hlow j).
      + apply lookup_ge_None in Ej. apply lookup_lt_Some in Hi. lia. }
  split; [done|]. split.
  - intros cfg Hcfg.
    destruct (get_config_returns _ _ _ _ _ _ Hcfg) as (cu & ct & cv & _ & Ht & _ & Hinit).
    fold p in Ht. rewrite Htok in Ht. injection Ht as <-.
    apply PRTGConfig_init_fields in Hinit as (_ & -> & _).
    by apply or_default_set.
  - intros cu cv Hurl Hcu Hverify. unfold get_config. fold p.
    rewrite Hurl, Htok, Hverify.
    rewrite (or_default_set (Some cu) "" cu), (or_default_set (Some v) "" v) by done.
    rewrite PRTGConfig_init_ok by done. by eexists.
Qed.

Lemma token_precedence_witness :
  let m := mkManager {[ "PRTG_API_TOKEN" := "" ]}
             (mkParser {[ "lab" := {[ "api_token" := ""; "api_token_ro" := "lab-ro";
                                      "url" := "prtg.lab" ]} ]}
                {[ "api_token_rw" := "shared-rw" ]}) in
  token_sources m "lab" None !! 5%nat = Some (Some "shared-rw")
  ∧ no_percent "shared-rw" = true
  ∧ config_api_token m "lab" None = inr (Some "shared-rw")
  ∧ ∃ cfg, get_config m (Some "lab") None None None = inr cfg
           ∧ api_token cfg = "shared-rw".
Proof.
  intros m.
  assert (token_sources m "lab" None !! 5%nat = Some (Some "shared-rw")) as H5
    by (vm_compute; reflexivity).
  assert ("shared-rw" ≠ "") as Hne by discriminate.
  destruct (token_precedence m (Some "lab") None None None 5 "shared-rw" H5 Hne)
    as (Ht & _ & Hcfg).
  { intros j o Hj Ho (s & -> & Hs).
    destruct j as [|[|[|[|[|j]]]]]; [| | | | |lia]; vm_compute in Ho; congruence. }
  { intros _. reflexivity. }
  split; [done|]. split; [reflexivity|]. split; [exact Ht|].
  apply (Hcfg "prtg.lab" true); [vm_compute; reflexivity | discriminate
                                 | vm_compute; reflexivity].
Defined.

(** C4, as stated, fails for a token of the file that holds a [%]: the
    file is read with interpolation, so [%%] resolves to [%], and a lone
    [%] makes [get_config] raise instead of resolving the token. *)
Lemma file_token_with_percent_not_taken_as_written :
  let file token := mkManager ∅
    (mkParser {[ "default" := {[ "url" := "x.com"; "api_token" := token ]} ]} ∅) in
  (token_sources (file "a%%b") "default" None !! 4%nat = Some (Some "a%%b")
   ∧ (∀ j, (j < 4)%nat → token_sources (file "a%%b") "default" None !! j = Some None)
   ∧ get_config (file "a%%b") None None None None
     = inr (mkPRTGConfig "https://x.com" "a%b" true "default"))
  ∧ (token_sources (file "50%") "default" None !! 4%nat = Some (Some "50%")
     ∧ get_config (file "50%") None None None None
       = inl (ConfigInterpolationError InterpolationSyntaxError)).
Proof.
  intros file. split; [split; [|split]|split].
  - vm_compute. reflexivity.
  - intros [|[|[|[|j]]]] Hj; try lia; vm_compute; reflexivity.
  - vm_compute. reflexivity.
  - vm_compute. reflexivity.
  - vm_compute. reflexivity.
Qed.

End ConfigFacts.

(** ** API gateway and query operations *)

Section ClientFacts.
Import Config Client.
Context `{B : Backend}.

Lemma session_request_world r w :
  ∃ o s', serve r (srv w) = (o, s')
          ∧ session_request r w = (o, mkWorld s' (sent w ++ [r])).
Proof.
  unfold session_request. destruct (serve r (srv w)) as [o s'] eqn:E.
  by exists o, s'.
Qed.

(** *** Requests sent *)

Lemma _request_sent cfg endpoint ps meth w :
  sent (_request cfg endpoint ps meth w).2
  = (sent w ++ [mkRequest meth (base_url cfg ++ "/" ++ endpoint)
                  (request_params_of cfg ps) (verify_ssl cfg) 30])%list.
Proof.
  unfold _request. fold (request_params_of cfg ps).
  destruct (session_request_world
              (mkRequest meth (base_url cfg ++ "/" ++ endpoint)
                 (request_params_of cfg ps) (verify_ssl cfg) 30) w)
    as (o & s' & _ & ->).
  destruct o as [err|resp]; [done|]. by repeat case_match.
Qed.

Lemma request_params_of_apitoken cfg ps :
  request_params_of cfg ps !! "apitoken"
  = Some (default (PStr (api_token cfg)) (ps ≫= (.!! "apitoken"))).
Proof.
  unfold request_params_of, _build_auth_params, dict_update.
  destruct ps as [p|]; simpl; [|by rewrite lookup_singleton_eq].
  case_bool_decide as Hp.
  - subst p. rewrite lookup_empty. by rewrite lookup_singleton_eq.
  - rewrite lookup_union, lookup_singleton_eq.
    by destruct (p !! "apitoken").
Qed.

Lemma historicdata_sent cfg sensor_id sdate edate avg fmt w :
  ∃ r, sent (get_sensor_historicdata cfg sensor_id sdate edate avg fmt w).2
       = (sent w ++ [r])%list
       ∧ params r !! "apitoken" = Some (PStr (api_token cfg))
       ∧ params r !! "sdate" = Some (PStr sdate)
       ∧ params r !! "edate" = Some (PStr edate).
Proof.
  unfold get_sensor_historicdata.
  match goal with |- context [session_request ?r w] =>
    destruct (session_request_world r w) as (o & s' & _ & ->); exists r end.
  split; [destruct o as [err|resp]; [done|]; by repeat case_match|].
  simpl. unfold dict_update, _build_auth_params. rewrite !lookup_union.
  repeat split; by simplify_map_eq.
Qed.

(** C1 (amended): [_request] and [get_sensor_historicdata] each send exactly
    one request, and its parameters always hold [apitoken].  For
    [get_sensor_historicdata] the value is the profile's token.  For
    [_request] it is the profile's token when the caller's params have no
    [apitoken] key, and the caller's value for that key when they have
    one. *)
Theorem apitoken_in_every_request cfg endpoint ps meth sensor_id sdate edate avg fmt w :
  (∃ r, sent (_request cfg endpoint ps meth w).2 = (sent w ++ [r])%list
        ∧ params r !! "apitoken"
          = Some (default (PStr (api_token cfg)) (ps ≫= (.!! "apitoken"))))
  ∧ (∃ r, sent (get_sensor_historicdata cfg sensor_id sdate edate avg fmt w).2
          = (sent w ++ [r])%list
        ∧ params r !! "apitoken" = Some (PStr (api_token cfg))).
Proof.
  split.
  - eexists. split; [apply _request_sent|]. apply request_params_of_apitoken.
  - destruct (historicdata_sent cfg sensor_id sdate edate avg fmt w) as (r & ? & ? & _).
    by exists r.
Qed.

(** *** Running an operation on each id *)

Lemma run_each_length {A} (op : string → M A) ids : ∀ w,
  length (run_each op ids w).1 = length ids.
Proof.
  induction ids as [|id ids IH]; intros w; [done|]. simpl.
  destruct (op id w) as [o w1]. specialize (IH w1).
  destruct (run_each op ids w1) as [os w2]. simpl in *. by rewrite IH.
Qed.


(** *** move_device *)

Lemma on_requests_error_class cfg e :
  exc_class (on_requests_error cfg e) = PRTGClientError.
Proof. unfold on_requests_error. by destruct (rkind e). Qed.



Lemma move_device_below_400 cfg id target w resp s' :
  serve (move_request cfg id target) (srv w) = (inr resp, s') →
  status_code resp < 400 →
  move_device cfg id target w
  = (if PyStr.contains "ok" (PyStr.lower (PyStr.strip (text resp)))
     then Ok true
     else Raise (mkExc PRTGAPIError
                   ("Unexpected response from move operation: " ++ text resp)),
     mkWorld s' (sent w ++ [move_request cfg id target])).
Proof.
  intros Hserve Hlt. unfold move_device, session_request. rewrite Hserve.
  destruct (Z.eqb_spec (status_code resp) 401); [lia|].
  destruct (Z.eqb_spec (status_code resp) 404); [lia|].
  destruct (Z.leb_spec 400 (status_code resp)); [lia|].
  unfold raise_for_status.
  destruct (Z.leb_spec 400 (status_code resp)); [lia|]. simpl.
  by destruct (PyStr.contains _ _).
Qed.

(** C8: when the server answers a move with a status below 400,
    [move_device] returns [True] if "ok" is a substring of the body
    stripped and lower-cased, and otherwise raises [PRTGAPIError] with the
    message "Unexpected response from move operation: " followed by the
    body; so it returns [True] exactly when the body contains "ok"
    whatever the case of its letters.  For a body of ASCII characters
    that is: an [o] or [O] immediately followed by a [k] or [K]. *)
Theorem move_device_ok_substring cfg id target w resp s' :
  serve (move_request cfg id target) (srv w) = (inr resp, s') →
  status_code resp < 400 →
  let w' := mkWorld s' (sent w ++ [move_request cfg id target]) in
  let found := PyStr.contains "ok" (PyStr.lower (PyStr.strip (text resp))) in
  (found = true → move_device cfg id target w = (Ok true, w'))
  ∧ (found = false →
     move_device cfg id target w
     = (Raise (mkExc PRTGAPIError
                 ("Unexpected response from move operation: " ++ text resp)), w'))
  ∧ ((move_device cfg id target w).1 = Ok true ↔ found = true)
  ∧ (Forall (λ c, (nat_of_ascii c < 128)%nat) (list_ascii_of_string (text resp)) →
     (found = true ↔ PyStr.contains_ok_ci (text resp))).
Proof.
  intros Hserve Hlt w' found.
  rewrite (move_device_below_400 _ _ _ _ _ _ Hserve Hlt). fold w' found.
  split; [by intros ->|]. split; [by intros ->|]. split.
  - by destruct found.
  - intros _. apply contains_ok_response.
Qed.

(** *** move_devices *)








(** *** get-many *)

Lemma get_many_loop_complete {A} (single : string → M A) ids :
  ∀ found w outs w',
    run_each single ids w = (outs, w') →
    Forall (λ o, aborts o = false) outs →
    get_many_loop single ids found w = (Ok (found ++ found_items outs)%list, w').
Proof.
  induction ids as [|id ids IH]; intros found w outs w'.
  - intros [= <- <-] _. simpl. unfold ret. by rewrite app_nil_r.
  - cbn [run_each get_many_loop].
    destruct (single id w) as [o w1].
    destruct (run_each single ids w1) as [os w2] eqn:Erun.
    intros [= <- <-] Hall. apply Forall_cons in Hall as [Ho Hos].
    destruct o as [item|e].
    + rewrite (IH _ _ _ _ Erun Hos). simpl. by rewrite <- app_assoc.
    + simpl in Ho. apply negb_false_iff in Ho. rewrite Ho.
      by rewrite (IH _ _ _ _ Erun Hos).
Qed.

Lemma get_many_loop_abort {A} (single : string → M A) pre :
  ∀ found w id post outs e w',
    run_each single (pre ++ [id]) w = ((outs ++ [Raise e])%list, w') →
    Forall (λ o, aborts o = false) outs →
    isinstance e PRTGNotFoundError = false →
    get_many_loop single (pre ++ id :: post) found w = (Raise e, w').
Proof.
  induction pre as [|p pre IH]; intros found w id post outs e w' Hrun Hall He.
  - simpl in Hrun. simpl. destruct (single id w) as [o w1].
    injection Hrun as Hout <-.
    destruct outs as [|o1 [|o2 outs]]; simplify_eq/=. by rewrite He.
  - pose proof (run_each_length single (pre ++ [id]) ) as Hlen.
    cbn [app run_each get_many_loop] in *.
    destruct (single p w) as [o w1]. specialize (Hlen w1).
    destruct (run_each single (pre ++ [id]) w1) as [os w2] eqn:Erun.
    injection Hrun as Hout <-. simpl in Hlen. rewrite length_app in Hlen. simpl in Hlen.
    destruct outs as [|o1 outs].
    { simpl in Hout. injection Hout as _ ->. simpl in Hlen. lia. }
    simpl in Hout. injection Hout as <- ->.
    apply Forall_cons in Hall as [Ho Hos].
    destruct o as [item|e1].
    + by apply (IH _ _ _ _ outs).
    + simpl in Ho. apply negb_false_iff in Ho. rewrite Ho. by apply (IH _ _ _ _ outs).
Qed.

Lemma get_many_loop_spec {A} (single : string → M A) ids w :
  get_many_spec single ids w (get_many_loop single ids [] w).
Proof.
  split.
  - intros outs w' Hrun Hall. by rewrite (get_many_loop_complete _ _ _ _ _ _ Hrun Hall).
  - intros pre id post outs e w' -> Hrun Hall He.
    by apply (get_many_loop_abort _ _ _ _ _ _ outs).
Qed.

(** C7: each of [get_devices_by_ids], [get_sensors_by_ids] and
    [get_groups_by_ids] looks the ids up one after the other.  When no
    lookup raises anything but [PRTGNotFoundError], the result is the
    records of the lookups that returned, in input order, the ids whose
    lookup raised [PRTGNotFoundError] left out.  When a lookup raises
    another exception, that exception leaves the batch, and the world is
    the one right after that lookup: no later id is looked up. *)
Theorem get_many_swallows_only_not_found cfg ids columns w :
  get_many_spec (λ id, get_device cfg id columns) ids w
    (get_devices_by_ids cfg ids columns w)
  ∧ get_many_spec (λ id, get_sensor cfg id columns) ids w
      (get_sensors_by_ids cfg ids columns w)
  ∧ get_many_spec (λ id, get_group cfg id columns) ids w
      (get_groups_by_ids cfg ids columns w).
Proof. repeat split; apply get_many_loop_spec. Qed.

End ClientFacts.

(** *** On the sample server *)

Section ClientExamples.
Import Config Client Sample.

(** C1, as stated, fails: params that hold [apitoken] replace the profile's
    token in the request that is sent. *)
Lemma request_params_override_token :
  let sent_tokens :=
    (λ r, params r !! "apitoken")
      <$> sent (_request sample_config "table.json"
                  (Some {[ "apitoken" := PStr "X" ]}) "GET" world0).2 in
  api_token sample_config = "TOKEN"
  ∧ sent_tokens = [Some (PStr "X")]
  ∧ sent_tokens ≠ [Some (PStr (api_token sample_config))].
Proof.
  split; [reflexivity|]. split; [vm_compute; reflexivity|].
  vm_compute. discriminate.
Qed.

Lemma move_device_ok_substring_witness :
  serve (move_request sample_config "A" "5666") (srv world0)
  = (inr (mkResponse 200 "OK"), 1%nat)
  ∧ 200 < 400
  ∧ PyStr.contains "ok" (PyStr.lower (PyStr.strip "OK")) = true
  ∧ PyStr.contains_ok_ci "OK"
  ∧ move_device sample_config "A" "5666" world0
    = (Ok true, sample_world 1 [move_request sample_config "A" "5666"]).
Proof.
  assert (serve (move_request sample_config "A" "5666") (srv world0)
          = (inr (mkResponse 200 "OK"), 1%nat)) as Hserve by (vm_compute; reflexivity).
  assert (status_code (mkResponse 200 "OK") < 400) as Hlt by (simpl; lia).
  destruct (move_device_ok_substring sample_config "A" "5666" world0 _ _ Hserve Hlt)
    as (Hok & _ & _ & Hascii).
  split; [exact Hserve|]. split; [lia|]. split; [reflexivity|]. split.
  - apply Hascii; [|reflexivity]. repeat constructor.
  - apply Hok. reflexivity.
Defined.


Lemma get_many_swallows_only_not_found_witness :
  let single := λ id, get_device sample_config id None in
  let missing := mkExc PRTGNotFoundError "Resource not found: table.json" in
  let broken := mkExc PRTGAPIError "API error: 500 - Internal Server Error" in
  ((run_each single ["A"; "B"; "missing"] world0).1 = [Ok "A"; Ok "B"; Raise missing]
   ∧ get_devices_by_ids sample_config ["A"; "B"; "missing"] None world0
     = (Ok ["A"; "B"], (run_each single ["A"; "B"; "missing"] world0).2))
  ∧ ((run_each single ["A"; "broken"] world0).1 = [Ok "A"; Raise broken]
     ∧ get_devices_by_ids sample_config ["A"; "broken"; "B"] None world0
       = (Raise broken, (run_each single ["A"; "broken"] world0).2)).
Proof.
  intros single missing broken. subst single. cbv beta. split.
  - assert ((run_each (λ id, get_device sample_config id None) ["A"; "B"; "missing"] world0).1
            = [Ok "A"; Ok "B"; Raise missing]) as Houts by (vm_compute; reflexivity).
    split; [exact Houts|].
    destruct (get_many_swallows_only_not_found sample_config ["A"; "B"; "missing"]
                None world0) as [[Hall _] _].
    rewrite (Hall _ _ (surjective_pairing _)); rewrite Houts; [reflexivity|].
    repeat constructor.
  - assert ((run_each (λ id, get_device sample_config id None) ["A"; "broken"] world0).1
            = [Ok "A"; Raise broken]) as Houts by (vm_compute; reflexivity).
    split; [exact Houts|].
    destruct (get_many_swallows_only_not_found sample_config ["A"; "broken"; "B"]
                None world0) as [[_ Habort] _].
    apply (Habort ["A"] "broken" ["B"] [Ok "A"]); [reflexivity | | | reflexivity].
    + apply injective_projections; [exact Houts | reflexivity].
    + repeat constructor.
Defined.

Example move_three_middle_fails :
  (move_devices sample_config ["A"; "B"; "C"] "5666" world0).1
  = Ok [ mkMoveResult "A" true None;
         mkMoveResult "B" false (Some "API error: 500 - Internal Server Error");
         mkMoveResult "C" true None ].
Proof. vm_compute. reflexivity. Qed.

End ClientExamples.

(** ** Response models *)

Section ModelFacts.
Import Models.
Context `{L : Library}.

Lemma validate_model_cons strip f fields payload :
  is_Some (validate_model strip (f :: fields) payload)
  ↔ is_Some (validate_field strip f payload)
    ∧ is_Some (validate_model strip fields payload).
Proof.
  cbn [validate_model].
  destruct (validate_field strip f payload) as [v|],
    (validate_model strip fields payload) as [m|]; simpl;
    split; try (intros [? ?]); try done; by intros [[] []].
Qed.

(** Fields named [n] that validate do not decide whether the model does. *)
Lemma validate_model_without strip n payload fields :
  (∀ f, f ∈ fields → fname f = n → is_Some (validate_field strip f payload)) →
  is_Some (validate_model strip fields payload)
  ↔ is_Some (validate_model strip (without_field n fields) payload).
Proof.
  induction fields as [|f fields IH]; intros Hn; [done|].
  assert (is_Some (validate_model strip fields payload)
          ↔ is_Some (validate_model strip (without_field n fields) payload)) as IH'.
  { apply IH. intros g Hg. apply Hn. by right. }
  unfold without_field in *. rewrite filter_cons. case_decide as Hf.
  - rewrite !validate_model_cons. by rewrite IH'.
  - rewrite validate_model_cons, IH'.
    assert (is_Some (validate_field strip f payload)) as Hsome.
    { apply Hn; [by left|]. by destruct (decide (fname f = n)). }
    tauto.
Qed.

(** The value stored under a declared name is what its field validates to. *)
Lemma validate_model_lookup strip n v payload fields :
  (∀ f, f ∈ fields → fname f = n → validate_field strip f payload = Some v) →
  n ∈ fname <$> fields →
  ∀ m, validate_model strip fields payload = Some m → m !! n = Some v.
Proof.
  induction fields as [|f fields IH]; intros Hn Hin m; [by apply elem_of_nil in Hin|].
  cbn [validate_model].
  destruct (validate_field strip f payload) as [x|] eqn:Ef; [|done].
  destruct (validate_model strip fields payload) as [m'|] eqn:Em; [|done].
  simpl. intros [= <-]. destruct (decide (fname f = n)) as [Heq|Hne].
  - rewrite <- Heq, lookup_insert_eq. rewrite <- Ef. apply Hn; [by left | done].
  - rewrite lookup_insert_ne by done. apply IH; [|..|done].
    + intros g Hg. apply Hn. by right.
    + rewrite fmap_cons in Hin. apply elem_of_cons in Hin as [?|?]; [congruence|done].
Qed.

Lemma lookup_derive_count raw derived k m :
  k ≠ derived → derive_count raw derived m !! k = m !! k.
Proof.
  intros Hk. unfold derive_count. repeat case_match; try done.
  by rewrite lookup_insert_ne.
Qed.

Lemma lookup_model_post_init m : model_post_init m !! "objid" = m !! "objid".
Proof. unfold model_post_init. by rewrite !lookup_derive_count. Qed.

Lemma null_id_field strip n b payload :
  payload !! n = Some VNone → b = convert_objid →
  validate_field strip (required n TStr (Some b)) payload = Some (VStr "").
Proof.
  intros Hp ->. unfold validate_field, required. simpl. rewrite Hp. simpl.
  by destruct strip.
Qed.

Ltac each_field Hin Hname :=
  repeat (apply elem_of_cons in Hin as [-> | Hin]; [try discriminate Hname|]);
  try by apply elem_of_nil in Hin.

Lemma Device_null_objid payload f :
  payload !! "objid" = Some VNone → f ∈ Device_fields → fname f = "objid" →
  validate_field true f payload = Some (VStr "").
Proof.
  intros Hp Hin Hname. unfold Device_fields, PRTGObjectModel_fields,
    PRTGStatusMixin_fields, PRTGPriorityMixin_fields, Device_own_fields in Hin.
  simpl in Hin. each_field Hin Hname. by apply null_id_field.
Qed.

Lemma Sensor_null_objid payload f :
  payload !! "objid" = Some VNone → f ∈ Sensor_fields → fname f = "objid" →
  validate_field true f payload = Some (VStr "").
Proof.
  intros Hp Hin Hname. unfold Sensor_fields, PRTGObjectModel_fields,
    PRTGStatusMixin_fields, PRTGPriorityMixin_fields, Sensor_own_fields in Hin.
  simpl in Hin. each_field Hin Hname. by apply null_id_field.
Qed.

Lemma Group_null_id n payload f :
  n = "objid" ∨ n = "parentid" →
  payload !! n = Some VNone → f ∈ Group_fields → fname f = n →
  validate_field true f payload = Some (VStr "").
Proof.
  intros Hn Hp Hin Hname. unfold Group_fields in Hin.
  destruct Hn as [-> | ->]; each_field Hin Hname; by apply null_id_field.
Qed.

(** C10: for a payload whose [objid] is null, constructing a [Device], a
    [Sensor] or a [Group] succeeds exactly when the other declared fields
    validate, and the record built stores [""] as its [objid]; the same
    holds for [Group] and a null [parentid]. *)
Theorem null_object_id_stored_as_empty payload :
  (payload !! "objid" = Some VNone →
     ((is_Some (Device payload)
       ↔ is_Some (validate_model true (without_field "objid" Device_fields) payload))
      ∧ ∀ m, Device payload = Some m → m !! "objid" = Some (VStr ""))
     ∧ ((is_Some (Sensor payload)
         ↔ is_Some (validate_model true (without_field "objid" Sensor_fields) payload))
        ∧ ∀ m, Sensor payload = Some m → m !! "objid" = Some (VStr ""))
     ∧ ((is_Some (Group payload)
         ↔ is_Some (validate_model true (without_field "objid" Group_fields) payload))
        ∧ ∀ m, Group payload = Some m → m !! "objid" = Some (VStr "")))
  ∧ (payload !! "parentid" = Some VNone →
     (is_Some (Group payload)
      ↔ is_Some (validate_model true (without_field "parentid" Group_fields) payload))
     ∧ ∀ m, Group payload = Some m → m !! "parentid" = Some (VStr "")).
Proof.
  split; [intros Hp; split; [|split] | intros Hp]; split.
  - unfold Device. rewrite fmap_is_Some. apply validate_model_without.
    intros f Hin Hname. by rewrite (Device_null_objid payload f).
  - unfold Device. intros m Hm. apply fmap_Some in Hm as (m0 & Hm0 & ->).
    rewrite lookup_model_post_init.
    eapply validate_model_lookup; [intros f ??; by apply Device_null_objid | | done].
    vm_compute. by left.
  - apply validate_model_without.
    intros f Hin Hname. by rewrite (Sensor_null_objid payload f).
  - intros m. apply validate_model_lookup; [intros f ??; by apply Sensor_null_objid |].
    vm_compute. by left.
  - apply validate_model_without.
    intros f Hin Hname. rewrite (Group_null_id "objid" payload f); auto.
  - intros m. apply validate_model_lookup;
      [intros f ??; apply (Group_null_id "objid"); auto|].
    vm_compute. by left.
  - apply validate_model_without.
    intros f Hin Hname. rewrite (Group_null_id "parentid" payload f); auto.
  - intros m. apply validate_model_lookup;
      [intros f ??; apply (Group_null_id "parentid"); auto|].
    vm_compute. do 4 right. by left.
Qed.

End ModelFacts.

Section ModelExamples.
Import Models Sample.

Lemma null_object_id_stored_as_empty_witness :
  let payload : gmap string Value :=
    {[ "objid" := VNone; "parentid" := VNone;
       "name" := VStr " core "; "status" := VStr "Up" ]} in
  payload !! "objid" = Some VNone
  ∧ payload !! "parentid" = Some VNone
  ∧ (is_Some (Device payload) ∧ Device payload ≫= (.!! "objid") = Some (VStr ""))
  ∧ (is_Some (Sensor payload) ∧ Sensor payload ≫= (.!! "objid") = Some (VStr ""))
  ∧ (is_Some (Group payload) ∧ Group payload ≫= (.!! "objid") = Some (VStr "")
     ∧ Group payload ≫= (.!! "parentid") = Some (VStr "")).
Proof.
  intros payload.
  assert (payload !! "objid" = Some VNone) as Ho by (vm_compute; reflexivity).
  assert (payload !! "parentid" = Some VNone) as Hp by (vm_compute; reflexivity).
  destruct (null_object_id_stored_as_empty payload) as [Hobj Hpar].
  destruct (Hobj Ho) as ((Hd1 & Hd) & (Hs1 & Hs) & (Hg1 & Hg)).
  destruct (Hpar Hp) as (_ & Hgp).
  assert (is_Some (Device payload)) as [d Ed].
  { apply Hd1. refine (bool_decide_unpack _ _). vm_compute. exact I. }
  assert (is_Some (Sensor payload)) as [s Es].
  { apply Hs1. refine (bool_decide_unpack _ _). vm_compute. exact I. }
  assert (is_Some (Group payload)) as [g Eg].
  { apply Hg1. refine (bool_decide_unpack _ _). vm_compute. exact I. }
  split; [exact Ho|]. split; [exact Hp|].
  rewrite Ed, Es, Eg. simpl.
  split; [split; [by eexists | by apply Hd]|].
  split; [split; [by eexists | by apply Hs]|].
  split; [by eexists|]. split; [by apply Hg | by apply Hgp].
Defined.

End ModelExamples.

(** ** The sensor data command *)

Section SensorFacts.
Import Config Client SensorCmd.
Context `{B : Backend} `{D : DateLib}.

(** The request of the command and its three [except] clauses never end
    in exit code 5, and send one request carrying the two dates. *)
Lemma fetch_outcome cfg sensor_id s e avg fmt w :
  let res : CmdResult * World :=
    match get_sensor_historicdata cfg sensor_id s e avg fmt w with
    | (Ok result, w') => (Fetched result, w')
    | (Raise err, w') =>
        if isinstance err PRTGNotFoundError then (SysExit 4, w')
        else if isinstance err PRTGClientError then (SysExit 2, w')
        else (SysExit 1, w')
    end in
  res.1 ≠ SysExit 5
  ∧ ∃ r, sent res.2 = (sent w ++ [r])%list
         ∧ params r !! "sdate" = Some (PStr s) ∧ params r !! "edate" = Some (PStr e).
Proof.
  destruct (historicdata_sent cfg sensor_id s e avg fmt w) as (r & Hr & _ & Hs & He).
  destruct (get_sensor_historicdata cfg sensor_id s e avg fmt w) as [[res|err] w'].
  - simpl. split; [done|]. by exists r.
  - simpl. split; [by repeat case_match|]. exists r. by repeat case_match.
Qed.

(** [.days] counts the whole days of the span. *)
Lemma timedelta_days_gt b a n :
  n < timedelta_days b a ↔ (n + 1) * 86400 ≤ span_seconds b a.
Proof. unfold timedelta_days. Z.div_mod_to_equations. lia. Qed.

Lemma both_given_some s e : s ≠ "" → e ≠ "" → both_given (Some s) (Some e) = Some (s, e).
Proof. by destruct s, e. Qed.

Lemma validate_range_explicit s e avg start_dt end_dt :
  s ≠ "" → e ≠ "" → strptime s = Some start_dt → strptime e = Some end_dt →
  validate_range (Some s) (Some e) avg
  = if (avg =? 0) && (40 <? timedelta_days end_dt start_dt) then Some 5
    else if 500 <? timedelta_days end_dt start_dt then Some 5 else None.
Proof.
  intros Hs He Hps Hpe. unfold validate_range.
  rewrite both_given_some by done. by rewrite Hps, Hpe.
Qed.

(** C2, what the code does: for every explicit start/end pair that parses, with
    [span] the time from start to end: if the interval is raw and the span
    is at least 41 whole days, or the span is at least 501 whole days at
    any interval, the command exits with code 5 and the world is unchanged
    (no request is sent); in every other case, among them a span that
    exceeds 40 (or 500) days by less than a day, the command does not exit
    with code 5 and sends exactly one request, carrying the two dates; in
    particular a 45-day span at interval 3600 sends the request. *)
Theorem historic_range_checked_in_whole_days
    cfg sensor_id days hours s e interval fmt avg start_dt end_dt w :
  s ≠ "" → e ≠ "" →
  strptime s = Some start_dt → strptime e = Some end_dt →
  interval_map !! PyStr.lower interval = Some avg →
  let span := span_seconds end_dt start_dt in
  let run := sensor_data cfg sensor_id days hours (Some s) (Some e) interval fmt w in
  ((avg = 0 ∧ 41 * 86400 ≤ span) ∨ 501 * 86400 ≤ span → run = (SysExit 5, w))
  ∧ (¬ ((avg = 0 ∧ 41 * 86400 ≤ span) ∨ 501 * 86400 ≤ span) →
     run.1 ≠ SysExit 5
     ∧ ∃ r, sent run.2 = (sent w ++ [r])%list
            ∧ params r !! "sdate" = Some (PStr s) ∧ params r !! "edate" = Some (PStr e))
  ∧ (span = 45 * 86400 → avg = 3600 → ∃ r, sent run.2 = (sent w ++ [r])%list).
Proof.
  intros Hs He Hps Hpe Havg span run.
  assert (run = match validate_range (Some s) (Some e) avg with
                | Some code => (SysExit code, w)
                | None =>
                    match get_sensor_historicdata cfg sensor_id s e avg fmt w with
                    | (Ok result, w') => (Fetched result, w')
                    | (Raise err, w') =>
                        if isinstance err PRTGNotFoundError then (SysExit 4, w')
                        else if isinstance err PRTGClientError then (SysExit 2, w')
                        else (SysExit 1, w')
                    end
                end) as Hrun.
  { unfold run, sensor_data, date_range. rewrite both_given_some by done.
    by rewrite Havg. }
  rewrite (validate_range_explicit _ _ _ _ _ Hs He Hps Hpe) in Hrun.
  pose proof (timedelta_days_gt end_dt start_dt 40) as H40.
  pose proof (timedelta_days_gt end_dt start_dt 500) as H500.
  fold span in H40, H500.
  assert (¬ ((avg = 0 ∧ 41 * 86400 ≤ span) ∨ 501 * 86400 ≤ span) →
          run.1 ≠ SysExit 5
          ∧ ∃ r, sent run.2 = (sent w ++ [r])%list
                 ∧ params r !! "sdate" = Some (PStr s)
                 ∧ params r !! "edate" = Some (PStr e)) as Hpass.
  { intros Hno. rewrite Hrun.
    destruct (Z.eqb_spec avg 0), (Z.ltb_spec 40 (timedelta_days end_dt start_dt)),
      (Z.ltb_spec 500 (timedelta_days end_dt start_dt)); simpl;
      try (destruct Hno; lia).
    all: apply fetch_outcome. }
  split; [|split; [done|]].
  - intros Hrej. rewrite Hrun.
    destruct (Z.eqb_spec avg 0), (Z.ltb_spec 40 (timedelta_days end_dt start_dt)),
      (Z.ltb_spec 500 (timedelta_days end_dt start_dt)); simpl; try done; lia.
  - intros Hspan ->. destruct Hpass as [_ (r & Hr & _)]; [lia|]. by exists r.
Qed.

End SensorFacts.

Section SensorExamples.
Import Config Client SensorCmd Sample.

(** C2 fails in the code: a raw-interval span of 40 days and 12 hours
    exceeds 40 days, yet the command sends the request and returns its
    result instead of exiting with code 5. *)
Lemma raw_span_over_40_days_not_rejected :
  let start_dt := mkDatetime 2024 1 1 0 0 0 in
  let end_dt := mkDatetime 2024 2 10 12 0 0 in
  let run :=
    sensor_data sample_config "2460" None None
      (Some "2024-01-01-00-00-00") (Some "2024-02-10-12-00-00") "raw" "csv" world0 in
  strptime "2024-01-01-00-00-00" = Some start_dt
  ∧ strptime "2024-02-10-12-00-00" = Some end_dt
  ∧ span_seconds end_dt start_dt = 40 * 86400 + 12 * 3600
  ∧ interval_map !! PyStr.lower "raw" = Some 0
  ∧ run.1 = Fetched (CsvText "OK")
  ∧ run.1 ≠ SysExit 5
  ∧ req_url <$> sent run.2 = ["https://prtg.example.com/api/historicdata.csv"].
Proof.
  intros start_dt end_dt run.
  assert (run.1 = Fetched (CsvText "OK")) as Hrun by (vm_compute; reflexivity).
  repeat split; try (vm_compute; reflexivity).
  rewrite Hrun. discriminate.
Qed.

Lemma historic_range_checked_in_whole_days_witness :
  let s := "2024-01-01-00-00-00" in
  let e := "2024-02-15-00-00-00" in
  let start_dt := mkDatetime 2024 1 1 0 0 0 in
  let end_dt := mkDatetime 2024 2 15 0 0 0 in
  strptime s = Some start_dt ∧ strptime e = Some end_dt
  ∧ span_seconds end_dt start_dt = 45 * 86400
  ∧ sensor_data sample_config "2460" None None (Some s) (Some e) "raw" "csv" world0
    = (SysExit 5, world0)
  ∧ ∃ r, sent (sensor_data sample_config "2460" None None (Some s) (Some e)
                 "1h" "csv" world0).2 = [r].
Proof.
  intros s e start_dt end_dt.
  assert (s ≠ "") as Hs by discriminate.
  assert (e ≠ "") as He by discriminate.
  assert (strptime s = Some start_dt) as Hps by (vm_compute; reflexivity).
  assert (strptime e = Some end_dt) as Hpe by (vm_compute; reflexivity).
  assert (span_seconds end_dt start_dt = 45 * 86400) as Hspan by (vm_compute; reflexivity).
  split; [exact Hps|]. split; [exact Hpe|]. split; [exact Hspan|]. split.
  - destruct (historic_range_checked_in_whole_days sample_config "2460" None None
                s e "raw" "csv" 0 start_dt end_dt world0 Hs He Hps Hpe
                ltac:(vm_compute; reflexivity)) as [Hrej _].
    apply Hrej. left. split; [reflexivity|]. rewrite Hspan. lia.
  - destruct (historic_range_checked_in_whole_days sample_config "2460" None None
                s e "1h" "csv" 3600 start_dt end_dt world0 Hs He Hps Hpe
                ltac:(vm_compute; reflexivity)) as (_ & _ & H45).
    apply (H45 Hspan eq_refl).
Defined.

End SensorExamples.

(** ** More on configuration *)

Section ResolveFacts.
Import Config Resolve.

Lemma source_set_dec o : {source_set o} + {¬ source_set o}.
Proof.
  destruct o as [[|c s]|].
  - right. by intros (s & [= <-] & Hs).
  - left. by eexists.
  - right. apply not_source_set_None.
Qed.

Lemma foldl_py_or_unset l : ∀ acc,
  ¬ source_set acc → (∀ i o, l !! i = Some o → ¬ source_set o) →
  ¬ source_set (foldl py_or acc l).
Proof.
  induction l as [|o l IH]; intros acc Hacc Hall; [done|].
  simpl. rewrite py_or_unset by done. apply IH.
  - apply (Hall 0%nat). done.
  - intros i o' Hi. apply (Hall (S i)). done.
Qed.

(** A list of sources either has a first one that is set, or none. *)
Lemma first_set_or_none (l : list (option string)) :
  (∃ i v, l !! i = Some (Some v) ∧ v ≠ ""
          ∧ ∀ j o, (j < i)%nat → l !! j = Some o → ¬ source_set o)
  ∨ (∀ i o, l !! i = Some o → ¬ source_set o).
Proof.
  induction l as [|o l IH]; [right; by intros i o|].
  destruct (source_set_dec o) as [(v & -> & Hv)|Hno].
  - left. exists 0%nat, v. split; [done|]. split; [done|]. intros j o' Hj. lia.
  - destruct IH as [(i & v & Hi & Hv & Hlow)|Hnone].
    + left. exists (S i), v. split; [done|]. split; [done|].
      intros [|j] o' Hj Ho'.
      * by injection Ho' as <-.
      * apply (Hlow j); [lia | done].
    + right. intros [|i] o' Ho'.
      * by injection Ho' as <-.
      * by apply (Hnone i).
Qed.

Lemma chain_set_iff l : source_set (foldl py_or None l) ↔ some_set l.
Proof.
  destruct (first_set_or_none l) as [(i & v & Hi & Hv & Hlow)|Hnone].
  - rewrite (foldl_py_or_first l i v None not_source_set_None Hi Hv Hlow).
    split; [|by exists v]. intros _. exists i, (Some v). split; [done|]. by exists v.
  - split.
    + intros H. by apply foldl_py_or_unset in H; [|apply not_source_set_None|].
    + intros (i & o & Hi & Ho). by destruct (Hnone i o Hi).
Qed.

Lemma or_default_empty a : or_default a "" = "" ↔ ¬ source_set a.
Proof.
  destruct a as [[|c s]|]; simpl.
  - split; [|done]. intros _ (s & [= <-] & Hs). done.
  - split; [done|]. intros H. destruct H. by eexists.
  - split; [|done]. intros _. apply not_source_set_None.
Qed.

Lemma config_url_foldl m prof u :
  config_url m prof u = foldl or_read (inr None) (url_reads m prof u).
Proof. reflexivity. Qed.

Lemma url_read_of_source m prof u j o :
  url_sources m prof u !! j = Some o →
  (j = 2%nat → ∀ value, o = Some value → no_percent value = true) →
  url_reads m prof u !! j = Some (inr o).
Proof.
  intros Hj Hplain.
  destruct j as [|[|[|j]]]; cbn in Hj; try done; injection Hj as <-; try reflexivity.
  apply (f_equal Some), _get_from_file_plain; [reflexivity|].
  intros value Hv. by apply Hplain.
Qed.

(** X1: the URL of the configuration comes from the first of the three
    URL sources (argument, [PRTG_URL], text of the [url] key of the
    profile in use) that is set to a non-empty value, normalised; a URL
    taken from the file is one without [%]. *)
Theorem url_precedence m prof u tok vs i v :
  let p := resolve_profile m prof in
  url_sources m p u !! i = Some (Some v) → v ≠ "" →
  (∀ j o, (j < i)%nat → url_sources m p u !! j = Some o → ¬ source_set o) →
  (i = 2%nat → no_percent v = true) →
  config_url m p u = inr (Some v)
  ∧ (∀ cfg, get_config m prof u tok vs = inr cfg → url cfg = normalize_url v)
  ∧ (∀ t cv, config_api_token m p tok = inr (Some t) → t ≠ "" →
       config_verify_ssl m p vs = inr cv →
       ∃ cfg, get_config m prof u tok vs = inr cfg ∧ url cfg = normalize_url v).
Proof.
  intros p Hi Hv Hlow Hplain.
  assert (config_url m p u = inr (Some v)) as Hurl.
  { rewrite config_url_foldl.
    apply (foldl_or_read_first _ i); [apply not_source_set_None | | done |].
    - apply url_read_of_source; [done|]. intros Hfile value [= <-]. by apply Hplain.
    - intros j Hj.
      destruct (url_sources m p u !! j) as [o|] eqn:Ej.
      + exists o. split; [|by apply (Hlow j)].
        apply url_read_of_source; [done|].
        intros _ [|c value] ->; [done|]. destruct (Hlow j _ Hj Ej). by eexists.
      + apply lookup_ge_None in Ej. apply lookup_lt_Some in Hi. lia. }
  split; [done|]. split.
  - intros cfg Hcfg.
    destruct (get_config_returns _ _ _ _ _ _ Hcfg) as (cu & ct & cv & Hu & _ & _ & Hinit).
    fold p in Hu. rewrite Hurl in Hu. injection Hu as <-.
    apply PRTGConfig_init_fields in Hinit as (-> & _).
    by rewrite (or_default_set (Some v) "" v).
  - intros t cv Htok Ht Hverify. unfold get_config. fold p.
    rewrite Hurl, Htok, Hverify.
    rewrite (or_default_set (Some v) "" v), (or_default_set (Some t) "" t) by done.
    rewrite PRTGConfig_init_ok by done. by eexists.
Qed.

Lemma url_precedence_witness :
  let m := mkManager {[ "PRTG_URL" := "" ]}
             (mkParser {[ "default" := {[ "api_token" := "file-token" ]} ]}
                {[ "url" := "prtg.example.com/" ]}) in
  url_sources m "default" None !! 2%nat = Some (Some "prtg.example.com/")
  ∧ config_url m "default" None = inr (Some "prtg.example.com/")
  ∧ ∃ cfg, get_config m None None None None = inr cfg
           ∧ url cfg = "https://prtg.example.com".
Proof.
  intros m.
  assert (url_sources m "default" None !! 2%nat = Some (Some "prtg.example.com/")) as H2
    by (vm_compute; reflexivity).
  assert ("prtg.example.com/" ≠ "") as Hne by discriminate.
  destruct (url_precedence m None None None None 2 "prtg.example.com/" H2 Hne)
    as (Hu & _ & Hcfg).
  { intros j o Hj Ho (s & -> & Hs).
    destruct j as [|[|j]]; [| |lia]; vm_compute in Ho; congruence. }
  { intros _. reflexivity. }
  split; [done|]. split; [exact Hu|].
  apply (Hcfg "file-token" true); [vm_compute; reflexivity | discriminate
                                   | vm_compute; reflexivity].
Defined.

(** With no [%] in the keys of the profile, every read returns the text. *)
Lemma reads_of_plain_file m p :
  (∀ key value, key ∈ config_keys → file_text m p key = Some value →
                no_percent value = true) →
  ∀ key, key ∈ config_keys → _get_from_file m p key = inr (file_text m p key).
Proof.
  intros Hplain key Hkey. apply _get_from_file_plain; [|by intros value; apply Hplain].
  unfold config_keys in Hkey.
  repeat (apply elem_of_cons in Hkey as [-> | Hkey]; [reflexivity|]).
  by apply elem_of_nil in Hkey.
Qed.

Lemma config_verify_ssl_returns m p vs o :
  _get_from_file m p "verify_ssl" = inr o → ∃ cv, config_verify_ssl m p vs = inr cv.
Proof.
  intros Hread. unfold config_verify_ssl. rewrite Hread.
  destruct vs; [by eexists|].
  destruct (_get_env m "NO_VERIFY_SSL") as [[|c e]|]; try by eexists.
  all: destruct o as [[|d f]|]; by eexists.
Qed.

(** X2: when the keys of the profile hold no [%], [get_config] returns a
    configuration exactly when some URL source and some token source are
    set to a non-empty value; with no URL it raises "PRTG URL is required"
    (whatever the token sources hold), and with a URL but no token "API
    token is required".  When the URL has to come from the file and its
    text ends in a lone [%], [get_config] raises the interpolation error
    of the read instead, whatever the token sources hold. *)
Theorem get_config_requires_url_and_token m prof u tok vs :
  let p := resolve_profile m prof in
  ((∀ key value, key ∈ config_keys → file_text m p key = Some value →
                 no_percent value = true) →
   ((∃ cfg, get_config m prof u tok vs = inr cfg)
    ↔ some_set (url_sources m p u) ∧ some_set (token_sources m p tok))
   ∧ (¬ some_set (url_sources m p u) →
      get_config m prof u tok vs = inl (ValueError "PRTG URL is required"))
   ∧ (some_set (url_sources m p u) → ¬ some_set (token_sources m p tok) →
      get_config m prof u tok vs = inl (ValueError "API token is required")))
  ∧ (∀ pre, ¬ source_set u → ¬ source_set (environ m !! "PRTG_URL") →
       file_text m p "url" = Some (pre ++ "%") → no_percent pre = true →
       get_config m prof u tok vs
       = inl (ConfigInterpolationError InterpolationSyntaxError)).
Proof.
  intros p. split.
  - intros Hplain. pose proof (reads_of_plain_file m p Hplain) as Hreads.
    assert (config_url m p u = inr (foldl py_or None (url_sources m p u))) as Hu.
    { rewrite config_url_foldl, <- foldl_or_read_values. f_equal.
      unfold url_reads, url_sources. rewrite (Hreads "url"); [done|].
      apply (list_elem_of_lookup_2 _ 0). reflexivity. }
    assert (config_api_token m p tok = inr (foldl py_or None (token_sources m p tok)))
      as Ht.
    { rewrite config_api_token_foldl, <- foldl_or_read_values. f_equal.
      unfold token_reads, token_sources.
      rewrite (Hreads "api_token"), (Hreads "api_token_rw"), (Hreads "api_token_ro");
        [done|..].
      - apply (list_elem_of_lookup_2 _ 3). reflexivity.
      - apply (list_elem_of_lookup_2 _ 2). reflexivity.
      - apply (list_elem_of_lookup_2 _ 1). reflexivity. }
    destruct (config_verify_ssl_returns m p vs (file_text m p "verify_ssl")) as [cv Hv].
    { apply Hreads. apply (list_elem_of_lookup_2 _ 4). reflexivity. }
    unfold get_config. fold p. rewrite Hu, Ht, Hv.
    rewrite <- !chain_set_iff.
    pose proof (or_default_empty (foldl py_or None (url_sources m p u))) as Eu.
    pose proof (or_default_empty (foldl py_or None (token_sources m p tok))) as Et.
    unfold PRTGConfig_init, __post_init__. cbn [url api_token].
    destruct (or_default (foldl py_or None (url_sources m p u)) "") as [|c1 s1];
      destruct (or_default (foldl py_or None (token_sources m p tok)) "") as [|c2 s2];
      cbn [PyStr.truthy negb].
    + split; [|split; [done|]].
      * split; [by intros [cfg ?]|]. intros [H _]. by apply Eu in H.
      * intros H. by apply Eu in H.
    + split; [|split; [done|]].
      * split; [by intros [cfg ?]|]. intros [H _]. by apply Eu in H.
      * intros H. by apply Eu in H.
    + split; [|split; [|done]].
      * split; [by intros [cfg ?]|]. intros [_ H]. by apply Et in H.
      * intros H. destruct H.
        destruct (source_set_dec (foldl py_or None (url_sources m p u))) as [|Hn]; [done|].
        by apply Eu in Hn.
    + split; [|split].
      * split; [|by eexists]. intros _. split.
        -- destruct (source_set_dec (foldl py_or None (url_sources m p u))) as [|Hn];
             [done|]. by apply Eu in Hn.
        -- destruct (source_set_dec (foldl py_or None (token_sources m p tok))) as [|Hn];
             [done|]. by apply Et in Hn.
      * intros H. destruct H.
        destruct (source_set_dec (foldl py_or None (url_sources m p u))) as [|Hn]; [done|].
        by apply Eu in Hn.
      * intros _ H. destruct H.
        destruct (source_set_dec (foldl py_or None (token_sources m p tok))) as [|Hn];
          [done|]. by apply Et in Hn.
  - intros pre Hu Henv Htext Hpre. unfold get_config. fold p.
    assert (config_url m p u = inl InterpolationSyntaxError) as ->; [|done].
    unfold config_url.
    change (_get_env m "URL") with (environ m !! "PRTG_URL").
    rewrite (or_read_unset u) by done. rewrite or_read_unset by done.
    rewrite parser_get_text by done. rewrite Htext.
    unfold file_text in Htext.
    destruct (sections (parser m) !! p) as [sec|]; [|done].
    unfold before_get, MAX_INTERPOLATION_DEPTH.
    by rewrite interpolate_lone_percent.
Qed.

Lemma get_config_requires_url_and_token_witness :
  let file url := mkManager {[ "PRTG_API_TOKEN" := "" ]}
    (mkParser {[ "default" := {[ "url" := url; "api_token_ro" := "ro" ]} ]} ∅) in
  get_config (file "x.com") None None None None
  = inr (mkPRTGConfig "https://x.com" "ro" true "default")
  ∧ get_config (file "") None None None None = inl (ValueError "PRTG URL is required")
  ∧ get_config (file "100%") None None None None
    = inl (ConfigInterpolationError InterpolationSyntaxError).
Proof.
  intros file. split; [reflexivity|]. split.
  - destruct (get_config_requires_url_and_token (file "") None None None None)
      as (Hplain & _).
    destruct Hplain as (_ & Hurl & _).
    + intros key value Hkey Hv. unfold config_keys in Hkey.
      repeat (apply elem_of_cons in Hkey as [-> | Hkey];
              [vm_compute in Hv; try discriminate Hv; by injection Hv as <-|]).
      by apply elem_of_nil in Hkey.
    + apply Hurl. intros (i & o & Hi & (s & -> & Hs)).
      destruct i as [|[|[|i]]]; vm_compute in Hi; congruence.
  - destruct (get_config_requires_url_and_token (file "100%") None None None None)
      as (_ & Hraise).
    apply (Hraise "100"); try reflexivity.
    + by intros (s & ? & _).
    + by intros (s & ? & _).
Defined.

Lemma has_non_slash_iff s : has_non_slash s ↔ ∀ n, s ≠ PyStr.replicate n "/".
Proof.
  split.
  - intros (pre & c & post & -> & Hc) n. revert n.
    induction pre as [|d pre IH]; intros [|n]; try done.
    + rewrite str_app_nil. simpl. congruence.
    + rewrite str_app_cons. simpl. intros [= _ H]. by apply (IH n).
  - induction s as [|c s IH]; intros Hn.
    + by destruct (Hn 0%nat).
    + destruct (ascii_dec c "/") as [->|Hc].
      * destruct IH as (pre & d & post & -> & Hd).
        { intros n E. apply (Hn (S n)). simpl. by rewrite E. }
        by exists (String "/" pre), d, post.
      * by exists "", c, s.
Qed.

(** X3: every configuration the constructor returns has a non-empty token
    (the one given), a non-empty URL that starts with [http://] or
    [https://], and, when the given URL has a character other than a
    slash, a URL that does not end in a slash; and the constructor fails
    exactly on an empty URL or an empty token. *)
Theorem config_invariants u tok vs prof :
  (∀ cfg, PRTGConfig_init u tok vs prof = inr cfg →
     api_token cfg = tok ∧ tok ≠ "" ∧ u ≠ ""
     ∧ url cfg ≠ "" ∧ has_scheme (url cfg) = true
     ∧ verify_ssl cfg = vs ∧ profile cfg = prof
     ∧ (has_non_slash u → PyStr.last_char (url cfg) ≠ Some "/"%char))
  ∧ ((∃ msg, PRTGConfig_init u tok vs prof = inl msg) ↔ u = "" ∨ tok = "").
Proof.
  split.
  - intros cfg. unfold PRTGConfig_init, __post_init__. cbn [url api_token verify_ssl profile].
    destruct u as [|c u]; [done|]. destruct tok as [|d tok]; [done|]. simpl.
    intros [= <-]. cbn [url api_token verify_ssl profile].
    repeat split; try done.
    + apply normalize_url_nonempty.
    + unfold normalize_url.
      destruct (has_scheme (PyStr.rstrip is_slash (String c u))) eqn:E; [done|].
      apply has_scheme_https.
    + intros Hns' Hlast. pose proof (proj1 (has_non_slash_iff _) Hns') as Hns.
      assert (PyStr.rstrip is_slash (String c u) ≠ "") as Hne.
      { intros E. apply rstrip_slash_empty in E as [n E]. by apply (Hns n). }
      unfold normalize_url in Hlast.
      destruct (has_scheme (PyStr.rstrip is_slash (String c u))).
      * apply rstrip_last in Hlast. done.
      * rewrite last_char_app in Hlast by done. apply rstrip_last in Hlast. done.
  - unfold PRTGConfig_init, __post_init__. cbn [url api_token].
    destruct u as [|c u], tok as [|d tok]; simpl; split;
      try (intros [msg ?]); try (intros [?|?]); try done; eauto.
Qed.

Lemma config_invariants_witness :
  PRTGConfig_init "prtg.example.com///" "TOKEN" false "lab"
  = inr (mkPRTGConfig "https://prtg.example.com" "TOKEN" false "lab")
  ∧ has_non_slash "prtg.example.com///"
  ∧ PyStr.last_char "https://prtg.example.com" ≠ Some "/"%char.
Proof.
  assert (has_non_slash "prtg.example.com///") as Hns.
  { exists "", "p"%char, "rtg.example.com///". split; [reflexivity | discriminate]. }
  split; [reflexivity|]. split; [exact Hns|].
  destruct (config_invariants "prtg.example.com///" "TOKEN" false "lab") as [H _].
  destruct (H _ eq_refl) as (_ & _ & _ & _ & _ & _ & _ & Hlast).
  by apply Hlast.
Defined.

(** X4: whether TLS certificates are verified.  An explicit argument
    decides alone.  Without one, a non-empty [PRTG_NO_VERIFY_SSL] decides
    alone, whatever the file says: verification is off exactly when its
    lower-cased value is [1], [true] or [yes].  Only when that variable is
    unset or empty is the profile's [verify_ssl] read: verification is on
    when it is unset or empty, and otherwise exactly when its lower-cased
    value is [true], [yes] or [1]. *)
Theorem verify_ssl_resolution m prof u tok vs cfg :
  get_config m prof u tok vs = inr cfg →
  let p := resolve_profile m prof in
  (∀ b, vs = Some b → verify_ssl cfg = b)
  ∧ (∀ e, vs = None → environ m !! "PRTG_NO_VERIFY_SSL" = Some e → e ≠ "" →
       (verify_ssl cfg = false ↔ PyStr.lower e ∈ ["1"; "true"; "yes"]))
  ∧ (vs = None → ¬ source_set (environ m !! "PRTG_NO_VERIFY_SSL") →
       ∃ o, _get_from_file m p "verify_ssl" = inr o
            ∧ (∀ f, o = Some f → f ≠ "" →
                 (verify_ssl cfg = true ↔ PyStr.lower f ∈ ["true"; "yes"; "1"]))
            ∧ (¬ source_set o → verify_ssl cfg = true)).
Proof.
  intros Hcfg p.
  destruct (get_config_returns _ _ _ _ _ _ Hcfg) as (cu & ct & cv & _ & _ & Hv & Hinit).
  fold p in Hv. apply PRTGConfig_init_fields in Hinit as (_ & _ & -> & _).
  unfold config_verify_ssl in Hv.
  change (_get_env m "NO_VERIFY_SSL") with (environ m !! "PRTG_NO_VERIFY_SSL") in Hv.
  split; [by intros b ->; injection Hv as <-|]. split.
  - intros e -> He Hne. rewrite He in Hv. destruct e as [|c e]; [done|].
    injection Hv as <-. unfold in_list. rewrite negb_false_iff. apply bool_decide_eq_true.
  - intros -> Hno.
    assert (match _get_from_file m p "verify_ssl" with
            | inl e => inl e
            | inr (Some (String _ _ as file_verify)) =>
                inr (in_list (PyStr.lower file_verify) ["true"; "yes"; "1"])
            | inr _ => inr true
            end = inr cv) as Hfile.
    { destruct (environ m !! "PRTG_NO_VERIFY_SSL") as [[|c e]|]; try done.
      destruct Hno. by eexists. }
    destruct (_get_from_file m p "verify_ssl") as [|o]; [done|].
    exists o. split; [done|]. split.
    + intros f -> Hf. destruct f as [|d f]; [done|]. injection Hfile as <-.
      apply bool_decide_eq_true.
    + intros Ho. destruct o as [[|d f]|]; try by injection Hfile as <-.
      destruct Ho. by eexists.
Qed.

Lemma verify_ssl_resolution_witness :
  let m := mkManager {[ "PRTG_NO_VERIFY_SSL" := "0" ]}
             (mkParser {[ "default" := {[ "verify_ssl" := "false" ]} ]} ∅) in
  let cfg := mkPRTGConfig "https://x.com" "t" true "default" in
  get_config m None (Some "x.com") (Some "t") None = inr cfg
  ∧ environ m !! "PRTG_NO_VERIFY_SSL" = Some "0"
  ∧ _get_from_file m "default" "verify_ssl" = inr (Some "false")
  ∧ verify_ssl cfg ≠ false.
Proof.
  intros m cfg.
  assert (get_config m None (Some "x.com") (Some "t") None = inr cfg) as Hcfg
    by (vm_compute; reflexivity).
  split; [exact Hcfg|]. split; [vm_compute; reflexivity|].
  split; [vm_compute; reflexivity|].
  destruct (verify_ssl_resolution m None (Some "x.com") (Some "t") None cfg Hcfg)
    as (_ & Henv & _).
  intros Hoff.
  apply (Henv "0" eq_refl ltac:(vm_compute; reflexivity) ltac:(discriminate)) in Hoff.
  vm_compute in Hoff.
  repeat (apply elem_of_cons in Hoff as [Hoff|Hoff]; [discriminate|]).
  by apply elem_of_nil in Hoff.
Defined.

End ResolveFacts.

(** ** More on the API gateway *)

Ltac status_cases r :=
  destruct (Z.eqb_spec (Client.status_code r) 401) as [?Hst|?Hst];
  destruct (Z.eqb_spec (Client.status_code r) 404) as [?Hst|?Hst];
  destruct (Z.leb_spec 400 (Client.status_code r)) as [?Hst|?Hst];
  try lia; unfold Client.raise_for_status;
  repeat match goal with
         | |- context [(400 <=? Client.status_code r)] =>
             destruct (Z.leb_spec 400 (Client.status_code r)) as [?Hst|?Hst]; try lia
         end;
  cbn [andb].

Section GatewayTaxonomy.
Import Config Client Queries.
Context `{B : Backend}.




(** X7: when the transport raises, each of the three request paths
    ([_request], [get_sensor_historicdata], [move_device]) raises a plain
    [PRTGClientError] after that one request; its text ends in the text of
    the transport error and begins with the words of the matching
    [except] clause, the SSL one naming the [--no-verify-ssl] flag and the
    connection one the server URL. *)
Theorem transport_failures_wrapped cfg x :
  (∀ endpoint ps meth w s',
     serve (mkRequest meth (base_url cfg ++ "/" ++ endpoint)
              (request_params_of cfg ps) (verify_ssl cfg) 30) (srv w) = (inl x, s') →
     (_request cfg endpoint ps meth w).1 = Raise (on_requests_error cfg x))
  ∧ (∀ sensor_id sdate edate avg fmt w s',
       serve (historic_request_of cfg sensor_id sdate edate avg fmt) (srv w) = (inl x, s') →
       (get_sensor_historicdata cfg sensor_id sdate edate avg fmt w).1
       = Raise (on_requests_error cfg x))
  ∧ (∀ id target w s',
       serve (move_request cfg id target) (srv w) = (inl x, s') →
       (move_device cfg id target w).1 = Raise (on_requests_error cfg x))
  ∧ exc_class (on_requests_error cfg x) = PRTGClientError
  ∧ ∃ words,
      exc_str (on_requests_error cfg x) = words ++ rstr x
      ∧ (rkind x = SSLError →
         words = "SSL verification failed. Use --no-verify-ssl to disable verification. Error: ")
      ∧ (rkind x = ConnectionError →
         words = "Connection error: Unable to connect to " ++ url cfg ++ ". Error: ")
      ∧ (rkind x = Timeout → words = "Request timeout: ")
      ∧ (rkind x = RequestException → words = "Request failed: ").
Proof.
  split; [|split; [|split; [|split]]].
  - intros endpoint ps meth w s' Hserve. unfold _request.
    fold (request_params_of cfg ps). unfold session_request. by rewrite Hserve.
  - intros sensor_id sdate edate avg fmt w s' Hserve. unfold get_sensor_historicdata.
    fold (base_url cfg). change (mkRequest "GET" _ _ _ 30)
      with (historic_request_of cfg sensor_id sdate edate avg fmt).
    unfold session_request. by rewrite Hserve.
  - intros id target w s' Hserve. unfold move_device, session_request. by rewrite Hserve.
  - apply on_requests_error_class.
  - unfold on_requests_error. destruct (rkind x).
    + eexists. split; [reflexivity|]. by repeat split.
    + exists ("Connection error: Unable to connect to " ++ url cfg ++ ". Error: ").
      split; [|by repeat split]. cbn [exc_str]. by rewrite !str_app_assoc.
    + eexists. split; [reflexivity|]. by repeat split.
    + eexists. split; [reflexivity|]. by repeat split.
Qed.


(** *** Table queries *)

Lemma request_params_of_some cfg (ps : gmap string PVal) :
  ps ≠ ∅ → request_params_of cfg (Some ps) = dict_update (_build_auth_params cfg) ps.
Proof. intros Hne. unfold request_params_of. by rewrite bool_decide_eq_false_2. Qed.

Lemma table_request_served cfg (ps : gmap string PVal) w r s' :
  ps ≠ ∅ → serve (table_request cfg ps) (srv w) = (inr r, s') →
  _request cfg "table.json" (Some ps) "GET" w
  = (if status_code r =? 401 then
       Raise (mkExc PRTGAuthenticationError
                "Authentication failed. Check username and passhash.")
     else if status_code r =? 404 then
       Raise (mkExc PRTGNotFoundError "Resource not found: table.json")
     else if 400 <=? status_code r then Raise (api_error r)
     else match response_json r with
          | inl x => Raise (on_requests_error cfg x)
          | inr j => Ok j
          end,
     mkWorld s' (sent w ++ [table_request cfg ps])).
Proof.
  intros Hne Hserve. unfold _request. fold (request_params_of cfg (Some ps)).
  rewrite request_params_of_some by done. fold (table_request cfg ps).
  unfold session_request. rewrite Hserve.
  status_cases r; try done. by destruct (response_json r).
Qed.

Lemma table_request_sent cfg (ps : gmap string PVal) w :
  ps ≠ ∅ →
  sent (_request cfg "table.json" (Some ps) "GET" w).2
  = (sent w ++ [table_request cfg ps])%list.
Proof.
  intros Hne. rewrite _request_sent. by rewrite request_params_of_some.
Qed.

Lemma lookup_params_nonempty content cols id :
  ({[ "content" := PStr content; "columns" := PStr cols;
      "filter_objid" := PStr id ]} : gmap string PVal) ≠ ∅.
Proof. apply insert_non_empty. Qed.

Lemma get_single_served {A} content kind cols (items : Json → string + list A)
    cfg id columns w r s' j :
  serve (lookup_request cfg content cols columns id) (srv w) = (inr r, s') →
  status_code r < 400 → response_json r = inr j →
  get_single content kind cols items cfg id columns w
  = (first_item kind id (items j),
     mkWorld s' (sent w ++ [lookup_request cfg content cols columns id])).
Proof.
  intros Hserve Hlt Hj. unfold get_single, bind.
  rewrite (table_request_served cfg _ w r s' (lookup_params_nonempty _ _ _) Hserve).
  status_cases r. rewrite Hj. unfold first_item.
  destruct (items j) as [msg|[|d l]]; reflexivity.
Qed.

Lemma get_single_404 {A} content kind cols (items : Json → string + list A)
    cfg id columns w r s' :
  serve (lookup_request cfg content cols columns id) (srv w) = (inr r, s') →
  status_code r = 404 →
  get_single content kind cols items cfg id columns w
  = (Raise (mkExc PRTGNotFoundError "Resource not found: table.json"),
     mkWorld s' (sent w ++ [lookup_request cfg content cols columns id])).
Proof.
  intros Hserve Hst. unfold get_single, bind.
  rewrite (table_request_served cfg _ w r s' (lookup_params_nonempty _ _ _) Hserve).
  by status_cases r.
Qed.

(** X8: a single lookup sends one [table.json] query filtered on the id.
    When the answer is below 400 and decodes to a table, [get_device]
    returns the first record of the table and, when the table is empty,
    raises [PRTGNotFoundError] with "Device not found: " and the id
    ([get_sensor] and [get_group] likewise, with their own word); a table
    the list model rejects raises an error outside the client hierarchy.
    On a 404 the lookup raises [PRTGNotFoundError] too, but with the text
    "Resource not found: table.json", which does not name the id. *)
Theorem single_lookup_outcomes cfg id columns w r s' :
  (serve (lookup_request cfg "devices" device_columns columns id) (srv w) = (inr r, s') →
   let w' := mkWorld s'
               (sent w ++ [lookup_request cfg "devices" device_columns columns id]) in
   (∀ j, status_code r < 400 → response_json r = inr j →
      get_device cfg id columns w
      = (first_item "Device" id (DeviceListResponse_devices j), w'))
   ∧ (status_code r = 404 →
      get_device cfg id columns w
      = (Raise (mkExc PRTGNotFoundError "Resource not found: table.json"), w')))
  ∧ (serve (lookup_request cfg "sensors" sensor_columns columns id) (srv w) = (inr r, s') →
     let w' := mkWorld s'
                 (sent w ++ [lookup_request cfg "sensors" sensor_columns columns id]) in
     (∀ j, status_code r < 400 → response_json r = inr j →
        get_sensor cfg id columns w
        = (first_item "Sensor" id (SensorListResponse_sensors j), w'))
     ∧ (status_code r = 404 →
        get_sensor cfg id columns w
        = (Raise (mkExc PRTGNotFoundError "Resource not found: table.json"), w')))
  ∧ (serve (lookup_request cfg "groups" group_columns columns id) (srv w) = (inr r, s') →
     let w' := mkWorld s'
                 (sent w ++ [lookup_request cfg "groups" group_columns columns id]) in
     (∀ j, status_code r < 400 → response_json r = inr j →
        get_group cfg id columns w
        = (first_item "Group" id (GroupListResponse_groups j), w'))
     ∧ (status_code r = 404 →
        get_group cfg id columns w
        = (Raise (mkExc PRTGNotFoundError "Resource not found: table.json"), w'))).
Proof.
  repeat split; intros; first [by eapply get_single_served | by eapply get_single_404].
Qed.


(** *** List queries *)

Lemma list_params_nonempty content cols columns fs ft fp count start :
  list_params content cols columns fs ft fp count start ≠ ∅.
Proof.
  unfold list_params. destruct start; [apply insert_non_empty|].
  destruct count; apply insert_non_empty.
Qed.

Lemma list_query_sent {A} (items : Json → string + list A) cfg (ps : gmap string PVal) w :
  ps ≠ ∅ → sent (list_query items cfg ps w).2 = (sent w ++ [table_request cfg ps])%list.
Proof.
  intros Hne. unfold list_query, bind.
  pose proof (table_request_sent cfg ps w Hne) as Hsent.
  destruct (_request cfg "table.json" (Some ps) "GET" w) as [[j|e] w']; [|done].
  by destruct (items j).
Qed.

Lemma list_params_lookup content cols columns fs ft fp count start :
  let ps := list_params content cols columns fs ft fp count start in
  ps !! "content" = Some (PStr content)
  ∧ ps !! "columns" = Some (PStr (String.concat "," (default cols columns)))
  ∧ ps !! "filter_status" = (λ s, PStr (translate_status s)) <$> given fs
  ∧ ps !! "filter_tags" = (λ t, PStr ("@tag(" ++ t ++ ")")) <$> given ft
  ∧ ps !! "filter_parentid" = PStr <$> given fp
  ∧ ps !! "count" = Some (match count with Some c => PInt c | None => PStr "*" end)
  ∧ ps !! "start" = PInt <$> start
  ∧ ps !! "apitoken" = None.
Proof.
  unfold list_params.
  destruct (given fs), (given ft), (given fp), count, start; simpl;
    repeat split; by simplify_map_eq.
Qed.

Lemma table_request_param cfg (ps : gmap string PVal) k :
  k ≠ "apitoken" → params (table_request cfg ps) !! k = ps !! k.
Proof.
  intros Hk. simpl. unfold dict_update, _build_auth_params.
  rewrite lookup_union, lookup_singleton_ne by done. by destruct (ps !! k).
Qed.

Lemma table_request_token cfg (ps : gmap string PVal) :
  ps !! "apitoken" = None →
  params (table_request cfg ps) !! "apitoken" = Some (PStr (api_token cfg)).
Proof.
  intros Hk. simpl. unfold dict_update, _build_auth_params.
  by rewrite lookup_union, Hk, lookup_singleton_eq.
Qed.

Lemma translate_status_known s code :
  status_map !! PyStr.lower s = Some code → translate_status s = code.
Proof. unfold translate_status. by intros ->. Qed.

Lemma translate_status_unknown s :
  status_map !! PyStr.lower s = None → translate_status s = s.
Proof. unfold translate_status. by intros ->. Qed.

(** X9: the status filter of [get_devices] and [get_sensors].  A status
    name that lower-cases to one of up, down, warning, paused, unusual,
    unknown is sent as its code (3, 5, 4, 7, 10, 1), whatever the case of
    its letters; any other non-empty value is sent unchanged; with no
    value or an empty one, no [filter_status] parameter is sent. *)
Theorem status_filter_translation cfg columns fs ft fp count start w :
  ∃ rd rs,
    sent (get_devices cfg columns fs ft fp count start w).2 = (sent w ++ [rd])%list
    ∧ sent (get_sensors cfg columns fs ft fp count start w).2 = (sent w ++ [rs])%list
    ∧ (∀ s code, fs = Some s → (PyStr.lower s, code) ∈
           [("up", "3"); ("down", "5"); ("warning", "4");
            ("paused", "7"); ("unusual", "10"); ("unknown", "1")] →
         params rd !! "filter_status" = Some (PStr code)
         ∧ params rs !! "filter_status" = Some (PStr code))
    ∧ (∀ s, fs = Some s → s ≠ "" →
         PyStr.lower s ∉ ["up"; "down"; "warning"; "paused"; "unusual"; "unknown"] →
         params rd !! "filter_status" = Some (PStr s)
         ∧ params rs !! "filter_status" = Some (PStr s))
    ∧ (fs = None ∨ fs = Some "" →
       params rd !! "filter_status" = None ∧ params rs !! "filter_status" = None).
Proof.
  eexists _, _. split; [apply list_query_sent, list_params_nonempty|].
  split; [apply list_query_sent, list_params_nonempty|].
  rewrite !table_request_param by done.
  destruct (list_params_lookup "devices" device_columns columns fs ft fp count start)
    as (_ & _ & -> & _).
  destruct (list_params_lookup "sensors" sensor_columns columns fs ft fp count start)
    as (_ & _ & -> & _).
  split; [|split].
  - intros s code -> Hin. assert (s ≠ "") as Hs.
    { intros ->. vm_compute in Hin.
      repeat (apply elem_of_cons in Hin as [Hin|Hin]; [discriminate|]).
      by apply elem_of_nil in Hin. }
    assert (status_map !! PyStr.lower s = Some code) as Hcode.
    { repeat (apply elem_of_cons in Hin as [[= -> ->]|Hin]; [reflexivity|]).
      by apply elem_of_nil in Hin. }
    destruct s as [|c s]; [done|]. simpl. by rewrite (translate_status_known _ code).
  - intros s -> Hs Hnot. destruct s as [|c s]; [done|]. simpl.
    rewrite translate_status_unknown; [done|].
    destruct (status_map !! PyStr.lower (String c s)) as [code|] eqn:E; [|done].
    destruct Hnot. unfold status_map in E.
    repeat (apply lookup_insert_Some in E as [[<- _]|[_ E]]; [set_solver|]).
    apply lookup_singleton_Some in E as [<- _]. set_solver.
  - by intros [-> | ->].
Qed.

(** X10: every list query ([get_devices], [get_sensors], [get_groups])
    sends one GET to [table.json] under [/api] that carries the profile's
    token, the [content] of its kind, and always a [count]: the caller's
    limit when there is one (0 included), else the text [*].  [start] is
    sent exactly when an offset is given; a non-empty tag is sent wrapped
    as [@tag(...)], a non-empty parent id as [filter_parentid], and an
    empty filter is not sent at all; [get_groups] never sends a status or
    a tag filter. *)
Theorem list_query_parameters cfg columns fs ft fp count start w :
  let common content (r : Request) :=
    method r = "GET" ∧ req_url r = url cfg ++ "/api/table.json"
    ∧ params r !! "apitoken" = Some (PStr (api_token cfg))
    ∧ params r !! "content" = Some (PStr content)
    ∧ params r !! "count"
      = Some (match count with Some c => PInt c | None => PStr "*" end)
    ∧ params r !! "start" = PInt <$> start
    ∧ params r !! "filter_parentid" = PStr <$> given fp in
  ∃ rd rs rg,
    sent (get_devices cfg columns fs ft fp count start w).2 = (sent w ++ [rd])%list
    ∧ sent (get_sensors cfg columns fs ft fp count start w).2 = (sent w ++ [rs])%list
    ∧ sent (get_groups cfg columns fp count start w).2 = (sent w ++ [rg])%list
    ∧ common "devices" rd ∧ common "sensors" rs ∧ common "groups" rg
    ∧ params rd !! "filter_tags" = (λ t, PStr ("@tag(" ++ t ++ ")")) <$> given ft
    ∧ params rs !! "filter_tags" = (λ t, PStr ("@tag(" ++ t ++ ")")) <$> given ft
    ∧ params rg !! "filter_tags" = None
    ∧ params rg !! "filter_status" = None.
Proof.
  intros common. eexists _, _, _.
  split; [apply list_query_sent, list_params_nonempty|].
  split; [apply list_query_sent, list_params_nonempty|].
  split; [apply list_query_sent, list_params_nonempty|].
  unfold common.
  destruct (list_params_lookup "devices" device_columns columns fs ft fp count start)
    as (Hd1 & _ & _ & Hd4 & Hd5 & Hd6 & Hd7 & Hd8).
  destruct (list_params_lookup "sensors" sensor_columns columns fs ft fp count start)
    as (Hs1 & _ & _ & Hs4 & Hs5 & Hs6 & Hs7 & Hs8).
  destruct (list_params_lookup "groups" group_columns columns None None fp count start)
    as (Hg1 & _ & Hg3 & Hg4 & Hg5 & Hg6 & Hg7 & Hg8).
  rewrite !table_request_token by done.
  rewrite !table_request_param by done.
  assert (base_url cfg ++ "/" ++ "table.json" = url cfg ++ "/api/table.json") as Hurl.
  { unfold base_url. rewrite str_app_assoc. reflexivity. }
  repeat split; try done; try exact Hurl.
Qed.


(** *** The requests of a batch, and ping *)


Lemma get_single_sent {A} content kind cols (items : Json → string + list A)
    cfg id columns w :
  sent (get_single content kind cols items cfg id columns w).2
  = (sent w ++ [lookup_request cfg content cols columns id])%list.
Proof.
  unfold get_single, bind.
  pose proof (table_request_sent cfg _ w
                (lookup_params_nonempty content
                   (String.concat "," (default cols columns)) id)) as Hsent.
  destruct (_request cfg "table.json" _ "GET" w) as [[j|e] w']; [|done].
  by destruct (items j) as [msg|[|d l]].
Qed.

(** A get-many loop sends the requests of a prefix of the ids, of all of
    them when it returns, and returns at most one record per id. *)
Lemma get_many_loop_sent {A} (single : string → M A) (req : string → Request) ids :
  (∀ id w, sent (single id w).2 = (sent w ++ [req id])%list) →
  ∀ found w,
    ∃ k, (k ≤ length ids)%nat
         ∧ sent (get_many_loop single ids found w).2 = (sent w ++ (req <$> take k ids))%list
         ∧ ∀ l, (get_many_loop single ids found w).1 = Ok l →
               k = length ids ∧ (length l ≤ length found + length ids)%nat.
Proof.
  intros Hsingle. induction ids as [|id ids IH]; intros found w.
  - exists 0%nat. split; [done|]. split; [by rewrite app_nil_r|].
    intros l [= <-]. split; [done | lia].
  - cbn [get_many_loop]. specialize (Hsingle id w).
    destruct (single id w) as [[item|e] w1]; cbn [snd] in Hsingle.
    + destruct (IH (found ++ [item])%list w1) as (k & Hk & Hsent & Hok).
      exists (S k). split; [simpl; lia|]. split.
      * rewrite Hsent, Hsingle. by rewrite <- app_assoc.
      * intros l Hl. destruct (Hok l Hl) as [-> Hlen].
        split; [done|]. rewrite length_app in Hlen. simpl in *. lia.
    + destruct (isinstance e PRTGNotFoundError).
      * destruct (IH found w1) as (k & Hk & Hsent & Hok).
        exists (S k). split; [simpl; lia|]. split.
        { rewrite Hsent, Hsingle. by rewrite <- app_assoc. }
        intros l Hl. destruct (Hok l Hl) as [-> Hlen]. split; [done|]. simpl. lia.
      * exists 1%nat. split; [simpl; lia|]. split; [|done].
        simpl. exact Hsingle.
Qed.

(** X11: a get-many sends nothing but the single lookups of its ids: the
    requests it adds to the log are the [table.json] lookups of the first
    [k] ids, in input order and one each; when it returns, [k] is the
    number of ids and the list returned is no longer than the ids. *)
Theorem get_many_request_log cfg ids columns w :
  (∃ k, (k ≤ length ids)%nat
        ∧ sent (get_devices_by_ids cfg ids columns w).2
          = (sent w ++ (lookup_request cfg "devices" device_columns columns <$> take k ids))%list
        ∧ ∀ l, (get_devices_by_ids cfg ids columns w).1 = Ok l →
              k = length ids ∧ (length l ≤ length ids)%nat)
  ∧ (∃ k, (k ≤ length ids)%nat
          ∧ sent (get_sensors_by_ids cfg ids columns w).2
            = (sent w ++ (lookup_request cfg "sensors" sensor_columns columns <$> take k ids))%list
          ∧ ∀ l, (get_sensors_by_ids cfg ids columns w).1 = Ok l →
                k = length ids ∧ (length l ≤ length ids)%nat)
  ∧ (∃ k, (k ≤ length ids)%nat
          ∧ sent (get_groups_by_ids cfg ids columns w).2
            = (sent w ++ (lookup_request cfg "groups" group_columns columns <$> take k ids))%list
          ∧ ∀ l, (get_groups_by_ids cfg ids columns w).1 = Ok l →
                k = length ids ∧ (length l ≤ length ids)%nat).
Proof.
  split; [|split].
  - apply (get_many_loop_sent (λ id, get_device cfg id columns)
             (lookup_request cfg "devices" device_columns columns) ids
             (λ id w0, get_single_sent _ _ _ _ cfg id columns w0) [] w).
  - apply (get_many_loop_sent (λ id, get_sensor cfg id columns)
             (lookup_request cfg "sensors" sensor_columns columns) ids
             (λ id w0, get_single_sent _ _ _ _ cfg id columns w0) [] w).
  - apply (get_many_loop_sent (λ id, get_group cfg id columns)
             (lookup_request cfg "groups" group_columns columns) ids
             (λ id w0, get_single_sent _ _ _ _ cfg id columns w0) [] w).
Qed.



End GatewayTaxonomy.

(** ** The get and move commands *)

Section CommandFacts.
Import Config Client Queries Commands.
Context `{B : Backend}.

Lemma get_many_loop_raises {A} (single : string → M A) ids :
  ∀ found w e w', get_many_loop single ids found w = (Raise e, w') →
                  isinstance e PRTGNotFoundError = false.
Proof.
  induction ids as [|id ids IH]; intros found w e w'; [done|].
  cbn [get_many_loop]. destruct (single id w) as [[item|e1] w1]; [apply IH|].
  destruct (isinstance e1 PRTGNotFoundError) eqn:E; [apply IH|]. by intros [= <- _].
Qed.

Lemma get_exit_code_4 e : get_exit_code e = 4 ↔ isinstance e PRTGNotFoundError = true.
Proof.
  unfold get_exit_code. destruct (isinstance e PRTGNotFoundError); [done|].
  by destruct (isinstance e PRTGClientError).
Qed.

Lemma get_command_spec {A} (single : string → M A)
    (ids : list string) (stdin : bool) (lines : list string) w :
  let effective := if stdin then read_ids lines else ids in
  let run := get_command single (λ l, get_many_loop single l []) ids stdin lines w in
  (ids = [] → run = (2, w))
  ∧ (ids ≠ [] →
     (effective = [] → run = (1, w))
     ∧ (∀ id e w', effective = [id] → single id w = (Raise e, w') →
          isinstance e PRTGNotFoundError = true → run = (4, w'))
     ∧ (∀ id a w', effective = [id] → single id w = (Ok a, w') → run = (0, w'))
     ∧ ((2 ≤ length effective)%nat →
        run.1 ≠ 4
        ∧ (Forall (λ o, aborts o = false) (run_each single effective w).1 →
           run = (0, (run_each single effective w).2)))).
Proof.
  intros effective run. split; [by intros ->|]. intros Hids.
  assert (run = match effective with
                | [] => (1, w)
                | [id] =>
                    match single id w with
                    | (Ok _, w') => (0, w')
                    | (Raise e, w') => (get_exit_code e, w')
                    end
                | _ =>
                    match get_many_loop single effective [] w with
                    | (Ok _, w') => (0, w')
                    | (Raise e, w') => (get_exit_code e, w')
                    end
                end) as ->.
  { unfold run, get_command. by destruct ids. }
  clearbody effective. clear Hids.
  destruct effective as [|id [|id2 rest]].
  - split; [done|]. split; [done|]. split; [done|]. simpl. lia.
  - split; [done|]. split; [|split; [|simpl; lia]].
    + intros id' e w' [= <-] Hs He. rewrite Hs.
      by apply get_exit_code_4 in He as ->.
    + intros id' a w' [= <-] Hs. by rewrite Hs.
  - split; [done|]. split; [done|]. split; [done|]. intros _.
    destruct (get_many_loop single (id :: id2 :: rest) [] w) as [[l|e] w'] eqn:Eloop.
    + split; [done|]. intros Hall.
      rewrite (get_many_loop_complete single _ [] w _ _ (surjective_pairing _) Hall) in Eloop.
      by injection Eloop as _ <-.
    + split.
      * intros H4. apply get_exit_code_4 in H4.
        apply get_many_loop_raises in Eloop. congruence.
      * intros Hall.
        rewrite (get_many_loop_complete single _ [] w _ _ (surjective_pairing _) Hall) in Eloop.
        done.
Qed.

(** X15: the get commands of devices, sensors and groups.  With no
    positional id the command ends with the usage error of click, exit
    code 2, before its body, whether or not [--stdin] is given.
    Otherwise the ids are those of stdin under [--stdin] and the
    positional ones without it: with none of them (blank stdin) the
    command exits with 1 and sends nothing; with exactly one, a lookup
    that raises [PRTGNotFoundError] gives exit code 4; with two or more
    the exit code is never 4: ids that are not found are dropped, and when
    no lookup raises anything else the command ends with code 0, also
    when every id is missing. *)
Theorem get_commands_exit_codes cfg (ids : list string) (stdin : bool)
    (lines : list string) w :
  let effective := if stdin then read_ids lines else ids in
  let spec {A} (single : string → M A) (run : Z * World) :=
    (ids = [] → run = (2, w))
    ∧ (ids ≠ [] →
       (effective = [] → run = (1, w))
       ∧ (∀ id e w', effective = [id] → single id w = (Raise e, w') →
            isinstance e PRTGNotFoundError = true → run = (4, w'))
       ∧ (∀ id a w', effective = [id] → single id w = (Ok a, w') → run = (0, w'))
       ∧ ((2 ≤ length effective)%nat →
          run.1 ≠ 4
          ∧ (Forall (λ o, aborts o = false) (run_each single effective w).1 →
             run = (0, (run_each single effective w).2)))) in
  spec (λ id, get_device cfg id None) (device_get cfg ids stdin lines w)
  ∧ spec (λ id, get_sensor cfg id None) (sensor_get cfg ids stdin lines w)
  ∧ spec (λ id, get_group cfg id None) (group_get cfg ids stdin lines w).
Proof.
  intros effective spec. split; [|split].
  - apply (get_command_spec (λ id, get_device cfg id None) ids stdin lines w).
  - apply (get_command_spec (λ id, get_sensor cfg id None) ids stdin lines w).
  - apply (get_command_spec (λ id, get_group cfg id None) ids stdin lines w).
Qed.


Lemma read_or_given_nil (l : list string) : l = [] ∨ l ≠ [].
Proof. destruct l; [by left | by right]. Qed.

(** X13: [device move] sends nothing unless it has ids and is not a dry
    run: with no id (none given, or only blank lines on stdin) it exits
    with 1, and a dry run with ids exits with 0; the world is the one it
    started from in both cases. *)
Theorem device_move_sends_nothing cfg (ids : list string) (stdin : bool)
    (lines : list string) target dry_run w :
  let effective := if stdin then read_ids lines else ids in
  (effective = [] → device_move cfg ids stdin lines target dry_run w = (1, w))
  ∧ (effective ≠ [] → dry_run = true →
     device_move cfg ids stdin lines target dry_run w = (0, w))
  ∧ (stdin = true → Forall (λ line, PyStr.strip line = "") lines → effective = []).
Proof.
  intros effective. unfold device_move. fold effective. split; [|split].
  - by intros ->.
  - intros Hne ->. by destruct effective.
  - intros -> Hall. unfold effective, read_ids.
    induction Hall as [|line lines Hline _ IH]; [done|].
    rewrite filter_cons. rewrite decide_False; [done|]. by rewrite Hline.
Qed.


End CommandFacts.

(** ** More on the sensor data command *)

Section SensorDataFacts.
Import Config Client Queries SensorCmd.
Context `{B : Backend} `{D : DateLib}.

Ltac exit_case :=
  eexists; split; [reflexivity|]; split_and!;
  [ try done; intros ? [= <-]; try done;
    unfold isinstance; by rewrite on_requests_error_class
  | intros ? [= <-]; unfold isinstance; rewrite ?on_requests_error_class;
    (split; [try done; intros _; by eexists
            | try done; intros (? & [= <-] & ?); try done; lia])
  | try done; intros ? [= <-] ? ?; try done; lia
  | try done; intros ? [= <-] ?; try lia; by eexists
  | try done; intros; by eexists ].

Lemma historic_request_served cfg sensor_id sd ed avg fmt w o s' :
  serve (historic_request_of cfg sensor_id sd ed avg fmt) (srv w) = (o, s') →
  ∃ res,
    get_sensor_historicdata cfg sensor_id sd ed avg fmt w
    = (res, mkWorld s' (sent w ++ [historic_request_of cfg sensor_id sd ed avg fmt]))
    ∧ (∀ e, res = Raise e → isinstance e PRTGClientError = true)
    ∧ (∀ e, res = Raise e →
         (isinstance e PRTGNotFoundError = true ↔ ∃ r, o = inr r ∧ status_code r = 404))
    ∧ (∀ r, o = inr r → status_code r < 400 → fmt = "csv" → res = Ok (CsvText (text r)))
    ∧ (∀ r, o = inr r → 400 ≤ status_code r → ∃ e, res = Raise e)
    ∧ (∀ x, o = inl x → ∃ e, res = Raise e).
Proof.
  intros Hserve. unfold get_sensor_historicdata. fold (base_url cfg).
  change (mkRequest "GET" _ _ _ 30)
    with (historic_request_of cfg sensor_id sd ed avg fmt).
  unfold session_request. rewrite Hserve. destruct o as [x|r].
  { exit_case. }
  destruct (Z.eqb_spec (status_code r) 429) as [H429|H429].
  { exit_case. }
  status_cases r.
  - exit_case.
  - exit_case.
  - exit_case.
  - destruct (String.eqb_spec fmt "csv") as [->|Hfmt].
    + exit_case.
    + destruct (response_json r); exit_case.
Qed.

Lemma validate_range_computed start_date end_date avg :
  both_given start_date end_date = None → validate_range start_date end_date avg = None.
Proof. unfold validate_range. by intros ->. Qed.

Lemma both_given_none (start_date end_date : option string) :
  start_date = None ∨ start_date = Some "" ∨ end_date = None ∨ end_date = Some "" →
  both_given start_date end_date = None.
Proof.
  intros [-> | [-> | [-> | ->]]]; try done.
  - by destruct start_date as [[|c s]|].
  - by destruct start_date as [[|c s]|].
Qed.

(** The seconds of the look-back window of a computed range. *)
Lemma date_range_computed days hours start_date end_date :
  both_given start_date end_date = None →
  date_range days hours start_date end_date
  = window (match nonzero days, nonzero hours with
            | Some d, _ => d * 86400
            | None, Some h => h * 3600
            | None, None => 7 * 86400
            end).
Proof.
  intros Hb. unfold date_range. rewrite Hb.
  by destruct (nonzero days), (nonzero hours).
Qed.

(** X16: when the start or the end date is absent or empty, the range is
    computed from the clock ([--days] if given and not 0, else [--hours]
    if given and not 0, else 7 days) and is not validated: whatever the
    number of days and the interval, the command never exits with code 5,
    and when the window and the interval are valid it sends exactly one
    request, carrying the dates of the window. *)
Theorem computed_range_never_rejected
    cfg sensor_id days hours (start_date end_date : option string) interval fmt w :
  start_date = None ∨ start_date = Some "" ∨ end_date = None ∨ end_date = Some "" →
  let run := sensor_data cfg sensor_id days hours start_date end_date interval fmt w in
  let seconds := match nonzero days, nonzero hours with
                 | Some d, _ => d * 86400
                 | None, Some h => h * 3600
                 | None, None => 7 * 86400
                 end in
  run.1 ≠ SysExit 5
  ∧ (window seconds = None → run = (SysExit 1, w))
  ∧ (∀ sd ed avg, window seconds = Some (sd, ed) →
       interval_map !! PyStr.lower interval = Some avg →
       run.2 = (get_sensor_historicdata cfg sensor_id sd ed avg fmt w).2
       ∧ ∃ r, sent run.2 = (sent w ++ [r])%list
              ∧ params r !! "sdate" = Some (PStr sd)
              ∧ params r !! "edate" = Some (PStr ed)).
Proof.
  intros Hnone run seconds. apply both_given_none in Hnone.
  unfold run, sensor_data. rewrite (date_range_computed _ _ _ _ Hnone). fold seconds.
  destruct (window seconds) as [[sd ed]|]; [|by repeat split].
  destruct (interval_map !! PyStr.lower interval) as [avg|]; [|by repeat split].
  rewrite (validate_range_computed _ _ _ Hnone).
  destruct (fetch_outcome cfg sensor_id sd ed avg fmt w) as (Hne & r & Hr & Hs & He).
  split; [exact Hne|]. split; [done|].
  intros sd' ed' avg' [= <- <-] [= <-]. split; [|by exists r].
  by destruct (get_sensor_historicdata cfg sensor_id sd ed avg fmt w) as [[res|e] w'];
    repeat case_match.
Qed.

(** X17: exit codes of the sensor data command up to the fetch.
    Explicit dates that do not parse end it with code 1 before any
    request.  Once the range is accepted, the command sends its one
    request; a 404 answer, and only that, ends it with code 4, a
    transport error or any other status from 400 up ends it with code 2,
    nothing ends it with code 5, and a CSV answer below 400 goes on to
    the output stage as received.  The output stage (row limit, file or
    terminal) follows the fetch and is not part of this statement. *)
Theorem sensor_data_exit_codes
    cfg sensor_id days hours start_date end_date interval fmt w :
  let run := sensor_data cfg sensor_id days hours start_date end_date interval fmt w in
  (∀ s e avg, start_date = Some s → end_date = Some e → s ≠ "" → e ≠ "" →
     interval_map !! PyStr.lower interval = Some avg →
     strptime s = None ∨ strptime e = None → run = (SysExit 1, w))
  ∧ (∀ sd ed avg o s',
       date_range days hours start_date end_date = Some (sd, ed) →
       interval_map !! PyStr.lower interval = Some avg →
       validate_range start_date end_date avg = None →
       serve (historic_request_of cfg sensor_id sd ed avg fmt) (srv w) = (o, s') →
       run.2 = mkWorld s' (sent w ++ [historic_request_of cfg sensor_id sd ed avg fmt])
       ∧ (run.1 = SysExit 4 ↔ ∃ r, o = inr r ∧ status_code r = 404)
       ∧ ((∃ x, o = inl x) ∨ (∃ r, o = inr r ∧ 400 ≤ status_code r ∧ status_code r ≠ 404) →
          run.1 = SysExit 2)
       ∧ run.1 ≠ SysExit 5
       ∧ (∀ r, o = inr r → status_code r < 400 → fmt = "csv" →
            run.1 = Fetched (CsvText (text r)))).
Proof.
  intros run. split.
  - intros s e avg -> -> Hs He Havg Hparse. unfold run, sensor_data, date_range.
    rewrite both_given_some by done. rewrite Havg.
    unfold validate_range. rewrite both_given_some by done.
    destruct Hparse as [-> | ->]; [done|]. by destruct (strptime s).
  - intros sd ed avg o s' Hrange Havg Hvalid Hserve. unfold run, sensor_data.
    rewrite Hrange, Havg, Hvalid.
    destruct (historic_request_served cfg sensor_id sd ed avg fmt w o s' Hserve)
      as (res & -> & Hclient & Hnf & Hcsv & Hfail & Htransport).
    destruct res as [result|e]; cbn [fst snd].
    + split; [done|]. split.
      { split; [done|]. intros (r & -> & H404).
        destruct (Hfail r eq_refl ltac:(lia)) as [e ?]. done. }
      split.
      { intros [(x & ->) | (r & -> & Hge & _)].
        - by destruct (Htransport x eq_refl).
        - by destruct (Hfail r eq_refl Hge). }
      split; [done|]. intros r -> Hlt ->.
      by injection (Hcsv r eq_refl Hlt eq_refl) as ->.
    + specialize (Hclient e eq_refl). specialize (Hnf e eq_refl).
      split; [by repeat case_match|].
      destruct (isinstance e PRTGNotFoundError) eqn:Enf.
      * cbn [fst]. split; [split; [intros _; by apply Hnf | done]|].
        split.
        { intros [(x & ->) | (r & -> & Hge & Hne)].
          - destruct (proj1 Hnf eq_refl) as (r & ? & _). done.
          - destruct (proj1 Hnf eq_refl) as (r' & [= <-] & ?). done. }
        split; [done|]. intros r -> Hlt ->.
        by specialize (Hcsv r eq_refl Hlt eq_refl).
      * rewrite Hclient. cbn [fst].
        split; [split; [done|]; intros H; apply Hnf in H; done|].
        split; [done|]. split; [done|]. intros r -> Hlt ->.
        by specialize (Hcsv r eq_refl Hlt eq_refl).
Qed.

End SensorDataFacts.

(** ** Row limiting of the CSV output *)

Section CsvFacts.
Import PyStr CsvOutput.

Lemma is_line_nil : is_line "".
Proof. intros pre post H. by destruct pre. Qed.

Lemma is_line_cons c s : is_line (String c s) ↔ c ≠ newline ∧ is_line s.
Proof.
  split.
  - intros H. split.
    + intros ->. by apply (H "" s).
    + intros pre post ->. by apply (H (String c pre) post).
  - intros [Hc Hs] pre post H. destruct pre as [|p pre].
    + rewrite str_app_nil in H. by injection H as -> _.
    + rewrite str_app_cons in H. injection H as _ ->. by apply (Hs pre post).
Qed.

Lemma is_line_snoc s c : is_line s → c ≠ newline → is_line (s ++ String c "").
Proof.
  induction s as [|d s IH]; intros Hs Hc.
  - rewrite str_app_nil. apply is_line_cons. split; [done | apply is_line_nil].
  - rewrite str_app_cons. apply is_line_cons in Hs as [Hd Hs].
    apply is_line_cons. split; [done | by apply IH].
Qed.

Lemma eqb_newline c : Ascii.eqb c newline = false ↔ c ≠ newline.
Proof. destruct (Ascii.eqb_spec c newline); split; congruence. Qed.

Lemma split_on_nonempty sep s cur : split_on sep s cur ≠ [].
Proof. revert cur. induction s as [|c s IH]; intros cur; simpl; [done|]. by case_match. Qed.

(** Every piece of a split at newlines is a line. *)
Lemma split_on_lines s cur : is_line cur → Forall is_line (split_on newline s cur).
Proof.
  revert cur. induction s as [|c s IH]; intros cur Hcur; simpl.
  - by constructor.
  - destruct (Ascii.eqb c newline) eqn:E.
    + constructor; [done|]. apply IH, is_line_nil.
    + apply IH, is_line_snoc; [done|]. by apply eqb_newline.
Qed.

Lemma join_lines_cons x y l :
  join_lines (x :: y :: l) = x ++ String newline (join_lines (y :: l)).
Proof. reflexivity. Qed.

(** ['\n'.join(s.split('\n')) == s]. *)
Lemma join_split s cur : join_lines (split_on newline s cur) = cur ++ s.
Proof.
  revert cur. induction s as [|c s IH]; intros cur; simpl.
  - by rewrite str_app_nil_r.
  - destruct (Ascii.eqb_spec c newline) as [->|Hc].
    + specialize (IH ""). rewrite str_app_nil in IH.
      destruct (split_on newline s "") as [|y l] eqn:E; [by destruct (split_on_nonempty _ _ _ E)|].
      by rewrite join_lines_cons, IH.
    + rewrite IH, str_app_assoc. by rewrite str_app_cons, str_app_nil.
Qed.

Lemma split_on_line x s cur :
  is_line x → split_on newline (x ++ s) cur = split_on newline s (cur ++ x).
Proof.
  revert cur. induction x as [|c x IH]; intros cur Hx.
  - by rewrite str_app_nil, str_app_nil_r.
  - apply is_line_cons in Hx as [Hc Hx]. rewrite str_app_cons. simpl.
    apply eqb_newline in Hc. rewrite Hc, (IH _ Hx), str_app_assoc.
    by rewrite str_app_cons, str_app_nil.
Qed.

(** ['\n'.join(lines).split('\n') == lines] for lines without newline. *)
Lemma split_join x l :
  Forall is_line (x :: l) → split_on newline (join_lines (x :: l)) "" = x :: l.
Proof.
  revert x. induction l as [|y l IH]; intros x Hl.
  - apply Forall_cons in Hl as [Hx _]. unfold join_lines. simpl.
    rewrite <- (str_app_nil_r x) at 1. rewrite (split_on_line _ _ _ Hx). simpl.
    by rewrite str_app_nil.
  - apply Forall_cons in Hl as [Hx Hl]. rewrite join_lines_cons.
    rewrite (split_on_line _ _ _ Hx). simpl. rewrite str_app_nil. f_equal. by apply IH.
Qed.

Lemma join_lines_snoc x l y :
  join_lines (x :: l ++ [y]) = join_lines (x :: l) ++ String newline y.
Proof.
  revert x. induction l as [|z l IH]; intros x.
  - reflexivity.
  - cbn [app]. rewrite !join_lines_cons, IH, str_app_assoc. by rewrite str_app_cons.
Qed.

Lemma lstrip_first s c t : lstrip isspace s = String c t → isspace c = false.
Proof.
  induction s as [|d s IH]; [done|]. simpl. destruct (isspace d) eqn:E; [done|].
  by intros [= <- _].
Qed.

Lemma rstrip_first chars c s :
  chars c = false → ∃ t, rstrip chars (String c s) = String c t.
Proof. intros Hc. rewrite rstrip_cons_keep by done. by eexists. Qed.

Lemma rstrip_first_inv chars s c t : rstrip chars s = String c t → ∃ u, s = String c u.
Proof.
  destruct s as [|d s]; [done|]. simpl.
  destruct (rstrip chars s); [destruct (chars d)|]; intros [= <- _]; by eexists.
Qed.

Lemma last_char_some c s : ∃ d, last_char (String c s) = Some d.
Proof.
  revert c. induction s as [|e s IH]; intros c; [by exists c|].
  rewrite last_char_cons by done. apply IH.
Qed.

(** A stripped text is empty, or begins and ends with a character that is
    not white space. *)
Lemma strip_ends s :
  strip s = ""
  ∨ (∃ c t, strip s = String c t ∧ isspace c = false)
    ∧ (∃ c, last_char (strip s) = Some c ∧ isspace c = false).
Proof.
  unfold strip. destruct (rstrip isspace (lstrip isspace s)) as [|c t] eqn:E; [by left|].
  right. split.
  - exists c, t. split; [done|].
    destruct (rstrip_first_inv _ _ _ _ E) as [u Hu]. by apply (lstrip_first s c u).
  - destruct (last_char_some c t) as [d El].
    exists d. split; [done|]. rewrite <- E in El. by apply rstrip_last in El.
Qed.

(** Stripping undoes a final newline after a text that begins and ends
    with a character that is not white space. *)
Lemma strip_newline_end c t d :
  isspace c = false → last_char (String c t) = Some d → isspace d = false →
  strip (String c t ++ String newline "") = String c t.
Proof.
  intros Hc Hlast Hd. unfold strip. rewrite str_app_cons. cbn [lstrip]. rewrite Hc.
  rewrite <- str_app_cons.
  assert (∀ u, rstrip isspace (u ++ String newline "") = rstrip isspace u) as Hdrop.
  { induction u as [|e u IH]; [done|]. rewrite str_app_cons. simpl. by rewrite IH. }
  rewrite Hdrop. apply rstrip_fixed. intros e. rewrite Hlast. by intros [= <-].
Qed.

Lemma last_n_snoc {A} (n : nat) (l : list A) (x : A) :
  (0 < n)%nat → ∃ l', last_n n (l ++ [x]) = (l' ++ [x])%list.
Proof.
  intros Hn. unfold last_n. rewrite length_app. simpl.
  rewrite drop_app_le by lia. by eexists.
Qed.

Lemma last_n_length {A} (n : nat) (l : list A) :
  (n ≤ length l)%nat → length (last_n n l) = n.
Proof. intros Hn. unfold last_n. rewrite length_drop. lia. Qed.

Lemma last_n_suffix {A} (n : nat) (l : list A) : ∃ pre, l = (pre ++ last_n n l)%list.
Proof. exists (take (length l - n) l). unfold last_n. by rewrite take_drop. Qed.

(** The limited output, re-read as lines. *)
Lemma limited_lines result header data (n : nat) :
  csv_lines result = header :: data → data ≠ [] → (0 < n)%nat →
  csv_lines (join_lines (header :: last_n n data) ++ String newline "")
  = header :: last_n n data.
Proof.
  intros Hlines Hdata Hn.
  assert (Forall is_line (header :: data)) as Hall.
  { rewrite <- Hlines. apply split_on_lines, is_line_nil. }
  assert (join_lines (header :: data) = strip result) as Hjoin.
  { rewrite <- Hlines. unfold csv_lines. by rewrite join_split, str_app_nil. }
  destruct (exists_last Hdata) as (data' & x & ->).
  destruct (last_n_snoc n data' x Hn) as [kept Hkept].
  assert (Forall is_line (header :: last_n n (data' ++ [x]))) as Hkeptlines.
  { apply Forall_cons in Hall as [Hh Hd]. constructor; [done|].
    destruct (last_n_suffix n (data' ++ [x])) as [pre Hpre].
    rewrite Hpre in Hd. by apply Forall_app in Hd as [_ ?]. }
  rewrite join_lines_snoc in Hjoin.
  destruct (strip_ends result) as [Hempty | [(c & t & Hc & Hsp) (d & Hd & Hdsp)]].
  { rewrite Hempty in Hjoin. by destruct (join_lines (header :: data')). }
  assert (∃ h, header = String c h) as [h ->].
  { rewrite Hc in Hjoin. destruct header as [|c' h].
    - destruct data' as [|y data'].
      + cbn in Hjoin. injection Hjoin as <- _. done.
      + rewrite join_lines_cons, str_app_nil, str_app_cons in Hjoin.
        injection Hjoin as <- _. done.
    - destruct data' as [|y data'].
      + cbn in Hjoin. injection Hjoin as <- _. by eexists.
      + rewrite join_lines_cons, !str_app_cons in Hjoin. injection Hjoin as <- _. by eexists. }
  assert (x ≠ "" ∧ last_char x = Some d) as [Hx Hxlast].
  { rewrite <- Hjoin in Hd. rewrite last_char_app in Hd by done.
    destruct x as [|e x].
    - injection Hd as <-. done.
    - split; [done|]. by rewrite last_char_cons in Hd. }
  unfold csv_lines. rewrite Hkept in *. rewrite join_lines_snoc.
  assert (∃ t', join_lines (String c h :: kept) ++ String newline x = String c t') as [t' Ht'].
  { destruct kept as [|y kept].
    - cbn. rewrite str_app_cons. by eexists.
    - rewrite join_lines_cons, !str_app_cons. by eexists. }
  rewrite Ht', (strip_newline_end c t' d Hsp); [| |done].
  - rewrite <- Ht', <- join_lines_snoc. by apply split_join.
  - rewrite <- Ht'. rewrite last_char_app by done.
    destruct x as [|e x]; [done|]. by rewrite last_char_cons.
Qed.

(** The limited output: what it is, how it reads as lines, and that it is
    within the limit. *)
Lemma limit_rows_limited result output_file head header data :
  let limit := default 50 head in
  Queries.given output_file = None →
  csv_lines result = header :: data →
  0 < limit < Z.of_nat (length data) →
  let output := limit_rows result output_file head in
  csv_lines output = header :: last_n (Z.to_nat limit) data
  ∧ length (last_n (Z.to_nat limit) data) = Z.to_nat limit.
Proof.
  intros limit Hfile Hlines [Hpos Hlt] output.
  assert (data ≠ []) as Hdata by (destruct data; simpl in Hlt; [lia | done]).
  assert (output = join_lines (header :: last_n (Z.to_nat limit) data) ++ String newline "")
    as Houtput.
  { unfold output, limit_rows. rewrite Hfile. fold limit.
    destruct (Z.ltb_spec 0 limit); [|lia]. rewrite Hlines.
    destruct data as [|d data]; [done|].
    by destruct (Z.ltb_spec limit (Z.of_nat (length (d :: data)))); [|lia]. }
  split.
  - rewrite Houtput. apply (limited_lines result); [done..|lia].
  - apply last_n_length. lia.
Qed.

(** X18: when the CSV goes to the terminal and the stripped result has a
    header and more data rows than the limit ([--head], 50 by default),
    the output re-read as lines is the header followed by the last [limit]
    data rows, in order; limiting it again changes nothing. *)
Theorem limit_rows_header_and_last_rows result output_file head header data :
  let limit := default 50 head in
  Queries.given output_file = None →
  csv_lines result = header :: data →
  0 < limit < Z.of_nat (length data) →
  let output := limit_rows result output_file head in
  csv_lines output = header :: last_n (Z.to_nat limit) data
  ∧ length (csv_lines output) = S (Z.to_nat limit)
  ∧ limit_rows output output_file head = output.
Proof.
  intros limit Hfile Hlines Hlimit output.
  destruct (limit_rows_limited result output_file head header data Hfile Hlines Hlimit)
    as [Hout Hlen].
  fold limit output in Hout, Hlen.
  split; [done|]. split; [by rewrite Hout; simpl; rewrite Hlen|].
  unfold limit_rows at 1. rewrite Hfile. fold limit.
  destruct (Z.ltb_spec 0 limit); [|lia]. rewrite Hout.
  destruct (last_n (Z.to_nat limit) data) as [|d kept] eqn:E; [done|].
  destruct (Z.ltb_spec limit (Z.of_nat (length (d :: kept)))); [lia|done].
Qed.

Lemma limit_rows_header_and_last_rows_witness :
  let result := join_lines ["time,value"; "t1,1"; "t2,2"; "t3,3"] ++ String newline "" in
  csv_lines (limit_rows result None (Some 2)) = ["time,value"; "t2,2"; "t3,3"].
Proof.
  intros result.
  exact (proj1 (limit_rows_header_and_last_rows result None (Some 2)
                  "time,value" ["t1,1"; "t2,2"; "t3,3"]
                  eq_refl eq_refl (conj eq_refl eq_refl))).
Defined.

(** X19: the row limit changes the CSV result exactly when no output file
    is given, the limit is positive and the stripped result has more than
    [limit + 1] lines.  In every other case (an output file, [--head 0] or
    a negative value, few rows) the result is passed on byte for byte,
    not even stripped. *)
Theorem limit_rows_changes_iff result output_file head :
  let limit := default 50 head in
  limit_rows result output_file head ≠ result
  ↔ Queries.given output_file = None
    ∧ 0 < limit ∧ limit + 1 < Z.of_nat (length (csv_lines result)).
Proof.
  intros limit. split.
  - intros Hne. unfold limit_rows in Hne. fold limit in Hne.
    destruct (Queries.given output_file); [done|]. split; [done|].
    destruct (Z.ltb_spec 0 limit); [|done]. split; [done|].
    destruct (csv_lines result) as [|header [|d data]]; [done..|].
    destruct (Z.ltb_spec limit (Z.of_nat (length (d :: data)))); [|done].
    cbn [length] in *. lia.
  - intros (Hfile & Hpos & Hlen) Heq.
    destruct (csv_lines result) as [|header data] eqn:Hlines; [simpl in Hlen; lia|].
    cbn [length] in Hlen.
    destruct (limit_rows_limited result output_file head header data
                Hfile Hlines ltac:(fold limit; lia)) as [Hout Hcount].
    rewrite Heq, Hlines in Hout. injection Hout as Hout. rewrite <- Hout in Hcount.
    fold limit in Hcount. lia.
Qed.

End CsvFacts.

(** ** More on the models *)

Section ModelMoreFacts.
Import PyStr Models Tags.
Context `{L : Library}.

Lemma no_space_cons c s : no_space (String c s) = true ↔ isspace c = false ∧ no_space s = true.
Proof.
  unfold no_space. cbn [list_ascii_of_string forallb]. by rewrite andb_true_iff, negb_true_iff.
Qed.

Lemma no_space_snoc s c : no_space s = true → isspace c = false → no_space (s ++ String c "") = true.
Proof.
  induction s as [|d s IH]; intros Hs Hc.
  - rewrite str_app_nil. by apply no_space_cons.
  - rewrite str_app_cons. apply no_space_cons in Hs as [Hd Hs].
    apply no_space_cons. split; [done | by apply IH].
Qed.

Lemma no_space_last s c : no_space s = true → last_char s = Some c → isspace c = false.
Proof.
  induction s as [|d s IH]; [done|]. intros [Hd Hs]%no_space_cons.
  destruct s as [|e s]; [by intros [= <-]|]. rewrite last_char_cons by done. by apply IH.
Qed.

(** Stripping leaves a string without white space as it is. *)
Lemma strip_no_space s : no_space s = true → strip s = s.
Proof.
  intros Hs. unfold strip.
  assert (lstrip isspace s = s) as ->.
  { destruct s as [|c s]; [done|]. apply no_space_cons in Hs as [Hc _]. simpl. by rewrite Hc. }
  apply rstrip_fixed. intros c. by apply no_space_last.
Qed.

(** The pieces of [s.split()] are not empty and hold no white space. *)
Lemma split_ws_tokens s tok :
  no_space tok = true → Forall (λ t, t ≠ "" ∧ no_space t = true) (split_ws s tok).
Proof.
  revert tok. induction s as [|c s IH]; intros tok Htok; simpl.
  - destruct tok; simpl; [constructor|]. by repeat constructor.
  - destruct (isspace c) eqn:Ec.
    + destruct tok; simpl; [by apply IH|]. constructor; [done | by apply IH].
    + by apply IH, no_space_snoc.
Qed.

Lemma tokens_kept (l : list string) :
  Forall (λ t, t ≠ "" ∧ no_space t = true) l →
  strip <$> filter (λ tag, truthy (strip tag) = true) l = l.
Proof.
  induction 1 as [|t l [Hne Hns] _ IH]; [done|].
  rewrite filter_cons_True.
  - rewrite fmap_cons, IH. by rewrite strip_no_space.
  - rewrite strip_no_space by done. by destruct t.
Qed.

Lemma mapM_validate_str_tokens (l : list string) :
  Forall (λ t, t ≠ "" ∧ no_space t = true) l →
  mapM (validate_str true) (VStr <$> l) = Some (VStr <$> l).
Proof.
  intros Hl. apply mapM_Some. induction Hl as [|t l [Hne Hns] _ IH]; [constructor|].
  rewrite !fmap_cons. constructor; [|done]. simpl. by rewrite strip_no_space.
Qed.

Lemma tags_string_split_at_whitespace_aux s :
  parse_tags (VStr s) = VList (VStr <$> split_ws s "")
  ∧ Forall (λ tag, tag ≠ "" ∧ no_space tag = true) (split_ws s "").
Proof.
  assert (Forall (λ tag, tag ≠ "" ∧ no_space tag = true) (split_ws s "")) as Htok
    by by apply split_ws_tokens.
  split; [|done]. cbn [parse_tags]. rewrite <- (tokens_kept _ Htok) at 2. by rewrite <- list_fmap_compose.
Qed.

(** X20: tags given as one string are split at runs of white space: the
    stored tags are exactly the pieces of [s.split()], each of them
    non-empty and free of white space (so the [strip] and the filter of
    [parse_tags] change nothing), and the [tags] field of a payload that
    carries such a string validates to that list. *)
Theorem tags_string_split_at_whitespace s :
  parse_tags (VStr s) = VList (VStr <$> split_ws s "")
  ∧ Forall (λ tag, tag ≠ "" ∧ no_space tag = true) (split_ws s "")
  ∧ ∀ payload f, f ∈ PRTGObjectModel_fields → fname f = "tags" →
      payload !! "tags" = Some (VStr s) →
      validate_field true f payload = Some (VList (VStr <$> split_ws s "")).
Proof.
  destruct (tags_string_split_at_whitespace_aux s) as [Hparse Htok].
  split; [done|]. split; [done|]. intros payload f Hin Hname Hp.
  unfold PRTGObjectModel_fields in Hin.
  repeat (apply elem_of_cons in Hin as [-> | Hin]; [try discriminate Hname|]);
    [|by apply elem_of_nil in Hin].
  unfold validate_field. cbn [fname defaulted ftype fbefore]. rewrite Hp.
  change (validate_type true TListStr (parse_tags (VStr s))
          = Some (VList (VStr <$> split_ws s ""))).
  rewrite Hparse. cbn [validate_type].
  by rewrite (mapM_validate_str_tokens _ Htok).
Qed.

(** X21: the [tags] field rejects a payload only for a list with an item
    that is not a string.  An absent key, [None], a number or any other
    value that is neither a string nor a list gives the empty list. *)
Theorem tags_rejected_only_for_bad_list payload f :
  f ∈ PRTGObjectModel_fields → fname f = "tags" →
  (validate_field true f payload = None
   ↔ ∃ items item, payload !! "tags" = Some (VList items)
                   ∧ item ∈ items ∧ ∀ s, item ≠ VStr s)
  ∧ (payload !! "tags" = None → validate_field true f payload = Some (VList []))
  ∧ (∀ v, payload !! "tags" = Some v → (∀ s, v ≠ VStr s) → (∀ l, v ≠ VList l) →
       validate_field true f payload = Some (VList [])).
Proof.
  intros Hin Hname. unfold PRTGObjectModel_fields in Hin.
  repeat (apply elem_of_cons in Hin as [-> | Hin]; [try discriminate Hname|]);
    [|by apply elem_of_nil in Hin].
  unfold validate_field. cbn [fname defaulted ftype fbefore fdefault].
  split; [|split].
  - destruct (payload !! "tags") as [v|] eqn:Hp.
    2:{ split; [done|]. by intros (? & ? & ? & _). }
    change (default id (Some parse_tags) v) with (parse_tags v).
    destruct v as [| b | n | r | s | items | entries];
      try (split; [done|]; intros (items' & item & [= <-] & _); done).
    + split; [|by intros (? & ? & [=] & _)].
      destruct (tags_string_split_at_whitespace_aux s) as [-> Htok].
      cbn [validate_type]. by rewrite (mapM_validate_str_tokens _ Htok).
    + cbn [parse_tags validate_type]. split.
      * intros Hnone. exists items.
        destruct (mapM (validate_str true) items) as [k|] eqn:Em; [done|].
        assert (¬ Forall (is_Some ∘ validate_str true) items) as Hnot.
        { intros Hall. apply mapM_is_Some in Hall as [? ?]. congruence. }
        apply not_Forall_Exists in Hnot; [|intros x; apply _].
        apply Exists_exists in Hnot as (item & Hitem & Hbad). exists item.
        split; [done|]. split; [done|]. intros s ->. apply Hbad. by eexists.
      * intros (items' & item & [= <-] & Hitem & Hbad).
        destruct (mapM (validate_str true) items) as [k|] eqn:Em; [|done].
        assert (is_Some (mapM (validate_str true) items)) as Hsome by by eexists.
        apply mapM_is_Some in Hsome. rewrite Forall_forall in Hsome.
        destruct (Hsome item Hitem) as [x Hx]. destruct item; try done. by destruct (Hbad s).
  - by intros ->.
  - intros v -> Hs Hl. change (default id (Some parse_tags) v) with (parse_tags v).
    destruct v; try done; [by destruct (Hs s) | by destruct (Hl items)].
Qed.

Lemma validate_field_extra strip f payload k v :
  k ≠ fname f → validate_field strip f (<[k := v]> payload) = validate_field strip f payload.
Proof. intros Hk. unfold validate_field. by rewrite lookup_insert_ne. Qed.

(** X22: keys of the payload that no field declares are ignored: adding
    one changes nothing of the result, and the validated object has
    exactly the declared names as its keys. *)
Theorem undeclared_keys_ignored strip fields payload k v :
  k ∉ fname <$> fields →
  validate_model strip fields (<[k := v]> payload) = validate_model strip fields payload
  ∧ ∀ m, validate_model strip fields payload = Some m →
         dom m = list_to_set (fname <$> fields) ∧ m !! k = None.
Proof.
  intros Hk. split.
  - induction fields as [|f fields IH]; [done|].
    rewrite fmap_cons, not_elem_of_cons in Hk. destruct Hk as [Hf Hk].
    cbn [validate_model]. by rewrite validate_field_extra, IH.
  - assert (∀ m, validate_model strip fields payload = Some m →
                 dom m = list_to_set (C := gset string) (fname <$> fields)) as Hdom.
    { clear Hk. induction fields as [|f fields IH]; intros m.
      - intros [= <-]. by rewrite dom_empty_L.
      - cbn [validate_model].
        destruct (validate_field strip f payload) as [x|]; [|done].
        destruct (validate_model strip fields payload) as [m'|]; [|done].
        simpl. intros [= <-]. rewrite dom_insert_L, (IH m' eq_refl). done. }
    intros m Hm. split; [by apply Hdom|].
    apply not_elem_of_dom. rewrite (Hdom m Hm). by rewrite elem_of_list_to_set.
Qed.








Lemma derive_count_lookup raw derived m :
  derive_count raw derived m !! derived
  = match m !! raw, m !! derived with
    | Some (VStr s), Some VNone =>
        match py_int s with Some n => Some (VInt n) | None => Some VNone end
    | _, d => d
    end.
Proof.
  unfold derive_count. destruct (m !! raw) as [[]|] eqn:Er; try done.
  destruct (m !! derived) as [[]|] eqn:Ed; try done.
  destruct (py_int s); [by rewrite lookup_insert_eq | done].
Qed.

(** X24: what [Device.model_post_init] does to the validated fields.  Of
    each pair (raw string count, integer count) the integer is filled in
    from [int(raw)] only when the raw count is a string and the integer
    is still [None]; a count that was supplied is kept, and a raw string
    that [int] rejects leaves the integer [None] without an error.  No
    other field changes. *)
Theorem sensor_counts_derived_once m :
  (∀ raw derived,
     (raw, derived) ∈ [ ("upsens", "sensor_count_up"); ("downsens", "sensor_count_down");
                        ("warnsens", "sensor_count_warning");
                        ("pausedsens", "sensor_count_paused");
                        ("unusualsens", "sensor_count_unusual") ] →
     model_post_init m !! derived
     = match m !! raw, m !! derived with
       | Some (VStr s), Some VNone =>
           match py_int s with Some n => Some (VInt n) | None => Some VNone end
       | _, d => d
       end)
  ∧ (∀ k, k ∉ [ "sensor_count_up"; "sensor_count_down"; "sensor_count_warning";
                "sensor_count_paused"; "sensor_count_unusual" ] →
          model_post_init m !! k = m !! k)
  ∧ dom (model_post_init m) = dom m.
Proof.
  assert (∀ k, k ∉ [ "sensor_count_up"; "sensor_count_down"; "sensor_count_warning";
                     "sensor_count_paused"; "sensor_count_unusual" ] →
               model_post_init m !! k = m !! k) as Hframe.
  { intros k Hk. rewrite !not_elem_of_cons in Hk. destruct Hk as (? & ? & ? & ? & ? & _).
    unfold model_post_init. by rewrite !lookup_derive_count. }
  split; [|split; [exact Hframe|]].
  - intros raw derived Hin. unfold model_post_init.
    repeat (apply elem_of_cons in Hin as [[= -> ->] | Hin]);
      [..|by apply elem_of_nil in Hin];
      rewrite ?lookup_derive_count by done; rewrite derive_count_lookup;
      by rewrite ?lookup_derive_count by done.
  - assert (∀ raw derived m', dom (derive_count raw derived m') = dom m') as Hdom.
    { intros raw derived m'. unfold derive_count.
      destruct (m' !! raw) as [[]|]; try done.
      destruct (m' !! derived) as [[]|] eqn:Ed; try done.
      destruct (py_int s); [|done]. rewrite dom_insert_L.
      apply elem_of_dom_2 in Ed. by apply subseteq_union_1_L, singleton_subseteq_l. }
    unfold model_post_init. by rewrite !Hdom.
Qed.

End ModelMoreFacts.

(** ** The further properties on the sample environment *)

Section GatewayExamples.
Import Config Client Queries Commands Sample Offline.



Lemma transport_failures_wrapped_witness :
  (@_request offline_backend sample_config "table.json" None "GET" offline_world).1
  = Raise (mkExc PRTGClientError
             "Connection error: Unable to connect to https://prtg.example.com. Error: refused").
Proof.
  destruct (@transport_failures_wrapped offline_backend sample_config
              (mkRequestsError ConnectionError "refused")) as (Hreq & _).
  rewrite (Hreq "table.json" None "GET" offline_world tt eq_refl). reflexivity.
Defined.

Lemma single_lookup_outcomes_witness :
  (get_device sample_config "void" None world0).1
  = Raise (mkExc PRTGNotFoundError "Device not found: void").
Proof.
  destruct (single_lookup_outcomes sample_config "void" None world0
              (mkResponse 200 "") 1%nat) as (Hdev & _).
  destruct (Hdev ltac:(vm_compute; reflexivity)) as (Hok & _).
  rewrite (Hok "" ltac:(simpl; lia) eq_refl). reflexivity.
Defined.

Lemma status_filter_translation_witness :
  ∃ rd, sent (get_devices sample_config None (Some "DOWN") None None None None world0).2 = [rd]
        ∧ params rd !! "filter_status" = Some (PStr "5").
Proof.
  destruct (status_filter_translation sample_config None (Some "DOWN") None None None None
              world0) as (rd & rs & Hd & _ & Hknown & _).
  exists rd. split; [exact Hd|].
  apply (Hknown "DOWN" "5" eq_refl). apply (list_elem_of_lookup_2 _ 1). reflexivity.
Defined.

Lemma get_many_request_log_witness :
  length (sent (get_devices_by_ids sample_config ["A"; "missing"] None world0).2) = 2%nat.
Proof.
  destruct (get_many_request_log sample_config ["A"; "missing"] None world0)
    as ((k & Hk & Hsent & Hret) & _).
  destruct (Hret ["A"] ltac:(vm_compute; reflexivity)) as [-> _].
  rewrite Hsent. reflexivity.
Defined.


Lemma device_move_sends_nothing_witness :
  device_move sample_config ["A"] true ["  "; ""] "5666" false world0 = (1, world0)
  ∧ device_move sample_config ["A"] false [] "5666" true world0 = (0, world0).
Proof.
  split.
  - destruct (device_move_sends_nothing sample_config ["A"] true ["  "; ""] "5666" false
                world0) as (Hnone & _ & Hblank).
    apply Hnone, Hblank; [reflexivity|]. by repeat constructor.
  - destruct (device_move_sends_nothing sample_config ["A"] false [] "5666" true
                world0) as (_ & Hdry & _).
    by apply Hdry.
Defined.


Lemma get_commands_exit_codes_witness :
  (device_get sample_config [] true ["A"] world0) = (2, world0)
  ∧ (device_get sample_config ["missing"] false [] world0).1 = 4
  ∧ (device_get sample_config ["-"] true [" "] world0) = (1, world0)
  ∧ (device_get sample_config ["A"; "missing"] false [] world0).1 = 0.
Proof.
  split; [|split; [|split]].
  - pose proof (get_commands_exit_codes sample_config [] true ["A"] world0) as H.
    cbv zeta beta in H. destruct H as ((H2 & _) & _). by apply H2.
  - pose proof (get_commands_exit_codes sample_config ["missing"] false [] world0) as H.
    cbv zeta beta in H. destruct H as ((_ & Hbody) & _).
    destruct (Hbody ltac:(done)) as (_ & H4 & _).
    set (e := mkExc PRTGNotFoundError "Resource not found: table.json").
    assert ((get_device sample_config "missing" None world0).1 = Raise e) as Hres
      by (vm_compute; reflexivity).
    rewrite (H4 "missing" e (get_device sample_config "missing" None world0).2
               eq_refl); [reflexivity | | reflexivity].
    rewrite <- Hres. apply surjective_pairing.
  - pose proof (get_commands_exit_codes sample_config ["-"] true [" "] world0) as H.
    cbv zeta beta in H. destruct H as ((_ & Hbody) & _).
    destruct (Hbody ltac:(done)) as (H1 & _). by apply H1.
  - pose proof (get_commands_exit_codes sample_config ["A"; "missing"] false [] world0)
      as H.
    cbv zeta beta in H. destruct H as ((_ & Hbody) & _).
    destruct (Hbody ltac:(done)) as (_ & _ & _ & Hmany).
    destruct (Hmany ltac:(simpl; lia)) as (_ & H0).
    rewrite H0; [reflexivity|].
    assert (aborts <$> (run_each (λ id, get_device sample_config id None)
                          ["A"; "missing"] world0).1 = [false; false]) as Houts
      by (vm_compute; reflexivity).
    assert (Forall (λ b, b = false)
              (aborts <$> (run_each (λ id, get_device sample_config id None)
                             ["A"; "missing"] world0).1)) as Hall
      by (rewrite Houts; by repeat constructor).
    by apply Forall_fmap in Hall.
Defined.

End GatewayExamples.

Section SensorDataExamples.
Import Config Client Queries SensorCmd Sample.

Lemma computed_range_never_rejected_witness :
  let run := sensor_data sample_config "2460" (Some 0) None None (Some "") "raw" "csv" world0 in
  run.1 ≠ SysExit 5
  ∧ ∃ r, sent run.2 = [r] ∧ params r !! "sdate" = Some (PStr "2024-06-01-00-00-00").
Proof.
  intros run.
  destruct (computed_range_never_rejected sample_config "2460" (Some 0) None None (Some "")
              "raw" "csv" world0 ltac:(auto)) as (Hne & _ & Hsent).
  split; [exact Hne|].
  destruct (Hsent "2024-06-01-00-00-00" "2024-06-08-00-00-00" 0 eq_refl eq_refl)
    as (_ & r & Hr & Hs & _).
  exists r. split; [exact Hr | exact Hs].
Defined.

Lemma sensor_data_exit_codes_witness :
  sensor_data sample_config "2460" None None (Some "yesterday") (Some "today")
    "raw" "csv" world0
  = (SysExit 1, world0)
  ∧ (sensor_data sample_config "2460" None None
       (Some "2024-06-01-00-00-00") (Some "2024-06-08-00-00-00") "raw" "csv" world0).1
    = Fetched (CsvText "OK")
  ∧ (sensor_data sample_config "B" None None
       (Some "2024-06-01-00-00-00") (Some "2024-06-08-00-00-00") "raw" "csv" world0).1
    = SysExit 2.
Proof.
  split; [|split].
  - destruct (sensor_data_exit_codes sample_config "2460" None None
                (Some "yesterday") (Some "today") "raw" "csv" world0) as (Hparse & _).
    apply (Hparse "yesterday" "today" 0); try done. by left.
  - destruct (sensor_data_exit_codes sample_config "2460" None None
                (Some "2024-06-01-00-00-00") (Some "2024-06-08-00-00-00")
                "raw" "csv" world0) as (_ & Hfetch).
    destruct (Hfetch "2024-06-01-00-00-00" "2024-06-08-00-00-00" 0
                (inr (mkResponse 200 "OK")) 1%nat eq_refl eq_refl
                ltac:(vm_compute; reflexivity) ltac:(vm_compute; reflexivity))
      as (_ & _ & _ & _ & Hcsv).
    apply (Hcsv (mkResponse 200 "OK")); [reflexivity | simpl; lia | reflexivity].
  - destruct (sensor_data_exit_codes sample_config "B" None None
                (Some "2024-06-01-00-00-00") (Some "2024-06-08-00-00-00")
                "raw" "csv" world0) as (_ & Hfetch).
    destruct (Hfetch "2024-06-01-00-00-00" "2024-06-08-00-00-00" 0
                (inr (mkResponse 500 "Internal Server Error")) 1%nat eq_refl eq_refl
                ltac:(vm_compute; reflexivity) ltac:(vm_compute; reflexivity))
      as (_ & _ & H2 & _).
    apply H2. right. exists (mkResponse 500 "Internal Server Error").
    split; [reflexivity|]. simpl. lia.
Defined.

End SensorDataExamples.

Section ModelMoreExamples.
Import Models Tags Sample Offline.

Lemma tags_string_split_at_whitespace_witness :
  parse_tags (VStr "  web  prod db ") = VList [VStr "web"; VStr "prod"; VStr "db"].
Proof.
  rewrite (proj1 (tags_string_split_at_whitespace "  web  prod db ")). reflexivity.
Defined.

Lemma tags_rejected_only_for_bad_list_witness :
  let f := defaulted "tags" TListStr (VList []) (Some parse_tags) in
  let payload : gmap string Value := {[ "tags" := VInt 5 ]} in
  f ∈ PRTGObjectModel_fields ∧ validate_field true f payload = Some (VList []).
Proof.
  intros f payload.
  assert (f ∈ PRTGObjectModel_fields) as Hin
    by (apply (list_elem_of_lookup_2 _ 2); reflexivity).
  split; [exact Hin|].
  destruct (tags_rejected_only_for_bad_list payload f Hin eq_refl) as (_ & _ & Hother).
  by apply (Hother (VInt 5)).
Defined.

Lemma undeclared_keys_ignored_witness :
  let payload : gmap string Value :=
    {[ "objid" := VInt 7; "name" := VStr "core"; "parentid" := VNone ]} in
("comment" ∉ fname <$> Group_fields)
  ∧ Group (<["comment" := VStr "x"]> payload) = Group payload.
Proof.
  intros payload.
  assert ("comment" ∉ fname <$> Group_fields) as Hk
    by (refine (bool_decide_unpack _ _); vm_compute; exact I).
  split; [exact Hk|].
  exact (proj1 (undeclared_keys_ignored true Group_fields payload "comment" (VStr "x") Hk)).
Defined.


Lemma sensor_counts_derived_once_witness :
  let m : gmap string Value :=
    {[ "upsens" := VStr "12"; "sensor_count_up" := VNone;
       "downsens" := VStr "n/a"; "sensor_count_down" := VNone ]} in
  @model_post_init counting_library m !! "sensor_count_up" = Some (VInt 12)
  ∧ @model_post_init counting_library m !! "sensor_count_down" = Some VNone.
Proof.
  intros m.
  destruct (@sensor_counts_derived_once counting_library m) as (Hpair & _).
  split.
  - rewrite (Hpair "upsens" "sensor_count_up");
      [reflexivity | apply (list_elem_of_lookup_2 _ 0); reflexivity].
  - rewrite (Hpair "downsens" "sensor_count_down");
      [reflexivity | apply (list_elem_of_lookup_2 _ 1); reflexivity].
Defined.

End ModelMoreExamples.
